(** * Tahoe Conditions: acquisition and extraction pipeline

    A shallow embedding of the parts of [tahoe_conditions] that the
    specification's testable properties talk about: the shared parsing
    utilities of [adapters/base.py], the adapters' [parse] entry points,
    the fetch layer of [http.py], the weather enrichment of
    [weather/nws.py], the summary of [summarize.py] and the orchestrator
    of [main.py].

    Conventions.
    - A Python [str] is a list of Unicode code points ([Py.str]).  The
      character classes [\d], [\w] and case folding are given on the ASCII
      range; [\s] and [str.strip] use the full white-space table of
      [str.isspace].
    - A Python [float] obtained from a decimal literal is kept as the exact
      rational it denotes ([Q]); [time.time()] is a rational number of
      seconds.
    - Code that may raise is written in an exception monad; code that also
      touches the file system, the clock or the network threads a [World]. *)

From Stdlib Require Import ZArith QArith List String Ascii Bool Lia Lqa.
From stdpp Require Import base option gmap strings list pretty.

Local Open Scope N_scope.
Local Set Warnings "-register-all".

(** ** Python strings *)

Module Py.

Definition char := N.
Definition str := list N.

(** An ASCII literal as a Python string. *)
Fixpoint py (s : string) : str :=
  match s with
  | EmptyString => []
  | String a s' => N_of_ascii a :: py s'
  end.

Definition str_eqb (a b : str) : bool := bool_decide (a = b).

Definition in_range (lo hi c : char) : bool := (lo <=? c) && (c <=? hi).

Definition is_digit (c : char) : bool := in_range 48 57 c.
Definition is_upper (c : char) : bool := in_range 65 90 c.
Definition is_lower (c : char) : bool := in_range 97 122 c.
Definition is_word (c : char) : bool :=
  is_digit c || is_upper c || is_lower c || (c =? 95).

(** [str.isspace] on one code point. *)
Definition is_space (c : char) : bool :=
  in_range 9 13 c || in_range 28 32 c || (c =? 133) || (c =? 160)
  || (c =? 5760) || in_range 8192 8202 c || (c =? 8232) || (c =? 8233)
  || (c =? 8239) || (c =? 8287) || (c =? 12288).

Definition lower_char (c : char) : char := if is_upper c then c + 32 else c.
Definition lower (s : str) : str := map lower_char s.

Fixpoint lstrip (s : str) : str :=
  match s with
  | c :: s' => if is_space c then lstrip s' else s
  | [] => []
  end.
Definition rstrip (s : str) : str := rev (lstrip (rev s)).
Definition strip (s : str) : str := rstrip (lstrip s).

Fixpoint starts_with (p s : str) : bool :=
  match p, s with
  | [], _ => true
  | a :: p', b :: s' => (a =? b) && starts_with p' s'
  | _ :: _, [] => false
  end.

(** [needle in hay] *)
Fixpoint contains (needle hay : str) : bool :=
  starts_with needle hay ||
  match hay with
  | [] => false
  | _ :: hay' => contains needle hay'
  end.

(** [hay.find(needle)]: the first index, or [-1]. *)
Fixpoint find_from (needle hay : str) (i : Z) : Z :=
  if starts_with needle hay then i
  else match hay with
       | [] => (-1)%Z
       | _ :: hay' => find_from needle hay' (i + 1)%Z
       end.
Definition find (needle hay : str) : Z := find_from needle hay 0%Z.

(** [s[:n]] for an integer [n >= 0]. *)
Definition slice_to (n : Z) (s : str) : str := take (Z.to_nat n) s.

(** [int(s)] on a run of ASCII digits. *)
Definition int_of_digits (s : str) : Z :=
  fold_left (fun acc c => (10 * acc + Z.of_N (c - 48))%Z) s 0%Z.

Fixpoint leading_digits (s : str) : str :=
  match s with
  | c :: s' => if is_digit c then c :: leading_digits s' else []
  | [] => []
  end.

(** [float(s)] on text matched by [\d+(?:\.\d+)?]. *)
Definition float_of_decimal (s : str) : Q :=
  let ip := leading_digits s in
  let fp := drop (S (length ip)) s in
  Qred (inject_Z (int_of_digits ip)
        + inject_Z (int_of_digits fp) / inject_Z (10 ^ Z.of_nat (length fp)))%Q.

End Py.

(** ** Regular expressions: the fragment of [re] the sources use

    A backtracking matcher with Python's priorities: alternatives left to
    right, greedy repetition (shortest first for the lazy one), leftmost
    match for [re.search]. *)

Module Re.
Import Py.

Inductive re :=
| Eps
| Chr (p : char -> bool)
| Seq (a b : re)
| Alt (a b : re)
| Star (a : re)
| StarLazy (a : re)
| Dollar
| Group (i : nat) (a : re).

Definition Opt (a : re) : re := Alt a Eps.
Definition Plus (a : re) : re := Seq a (Star a).
Definition PlusLazy (a : re) : re := Seq a (StarLazy a).

Fixpoint seqs (l : list re) : re :=
  match l with
  | [] => Eps
  | [a] => a
  | a :: l' => Seq a (seqs l')
  end.

Definition one (c : char) : re := Chr (N.eqb c).
Definition one_i (c : char) : re := Chr (fun x => lower_char x =? lower_char c).
Definition any_of (cs : list char) : re :=
  Chr (fun x => existsb (N.eqb x) cs).

(** A literal; [lit_i] is the literal under [re.IGNORECASE]. *)
Definition lit (s : string) : re := seqs (map one (py s)).
Definition lit_i (s : string) : re := seqs (map one_i (py s)).

Definition digit : re := Chr is_digit.
Definition space : re := Chr is_space.
Definition word : re := Chr is_word.

(** [\d+(?:\.\d+)?] *)
Definition decimal : re := Seq (Plus digit) (Opt (Seq (one 46) (Plus digit))).

(** Captured groups, most recent binding first. *)
Definition caps := list (nat * str).

Fixpoint group (c : caps) (i : nat) : option str :=
  match c with
  | [] => None
  | (j, s) :: c' => if Nat.eqb i j then Some s else group c' i
  end.

Definition K := str -> caps -> option (caps * str).

Fixpoint star (body : K -> K) (fuel : nat) (k : K) (s : str) (c : caps)
  : option (caps * str) :=
  match fuel with
  | O => k s c
  | S f =>
      match body (fun s' c' =>
                    if Nat.ltb (length s') (length s)
                    then star body f k s' c' else None) s c with
      | Some x => Some x
      | None => k s c
      end
  end.

(** The lazy repetition: the continuation is tried before one more turn
    of the body. *)
Fixpoint star_lazy (body : K -> K) (fuel : nat) (k : K) (s : str) (c : caps)
  : option (caps * str) :=
  match k s c with
  | Some x => Some x
  | None =>
      match fuel with
      | O => None
      | S f =>
          body (fun s' c' =>
                  if Nat.ltb (length s') (length s)
                  then star_lazy body f k s' c' else None) s c
      end
  end.

Fixpoint run (r : re) (k : K) (s : str) (c : caps) {struct r}
  : option (caps * str) :=
  match r with
  | Eps => k s c
  | Chr p =>
      match s with
      | x :: s' => if p x then k s' c else None
      | [] => None
      end
  | Seq a b => run a (run b k) s c
  | Alt a b =>
      match run a k s c with
      | Some x => Some x
      | None => run b k s c
      end
  | Star a => star (run a) (length s) k s c
  | StarLazy a => star_lazy (run a) (length s) k s c
  | Dollar =>
      match s with
      | [] | [10] => k s c
      | _ => None
      end
  | Group i a =>
      run a (fun s' c' =>
               k s' ((i, take (length s - length s')%nat s) :: c')) s c
  end.

(** [re.match]: a match anchored at the start of [s]. *)
Definition match_at (r : re) (s : str) : option caps :=
  fst <$> run r (fun s' c' => Some (c', s')) s [].

(** [re.search]: the leftmost match. *)
Fixpoint search (r : re) (s : str) : option caps :=
  match match_at r s with
  | Some c => Some c
  | None =>
      match s with
      | [] => None
      | _ :: s' => search r s'
      end
  end.

End Re.

(** ** JSON values, as [json.loads] and [response.json()] deliver them *)

Module Json.
Import Py.

Inductive json :=
| JNull
| JBool (b : bool)
| JInt (z : Z)
| JFloat (q : Q)
| JStr (s : str)
| JArr (l : list json)
| JObj (fields : list (str * json)).

(** [d.get(key)] on a [dict]: the first binding of [key]. *)
Fixpoint obj_get (fields : list (str * json)) (key : str) : option json :=
  match fields with
  | [] => None
  | (k, v) :: fs => if str_eqb k key then Some v else obj_get fs key
  end.

(** [bool(v)] *)
Definition truthy (v : json) : bool :=
  match v with
  | JNull => false
  | JBool b => b
  | JInt z => negb (z =? 0)%Z
  | JFloat q => negb (Qeq_bool q 0)
  | JStr s => match s with [] => false | _ => true end
  | JArr l => match l with [] => false | _ => true end
  | JObj f => match f with [] => false | _ => true end
  end.

(** [v == s] for a string literal [s]. *)
Definition eq_str (v : json) (s : string) : bool :=
  match v with
  | JStr t => str_eqb t (py s)
  | _ => false
  end.

End Json.

(** ** The data contract ([models.py]) *)

Module Models.
Import Py Json.

Record Sources := mkSources {
  ops_url : str;
  weather_points_url : option str;
  weather_forecast_url : option str }.

Record Operations := mkOperations {
  open_flag : option bool;
  lifts_open : option Z;
  lifts_scheduled : option Z;
  lifts_total : option Z;
  trails_open : option Z;
  trails_scheduled : option Z;
  trails_total : option Z }.

Record Snow := mkSnow {
  new_snow_24h_in : option Q;
  new_snow_48h_in : option Q;
  base_depth_in : option Q;
  season_total_in : option Q;
  surface : option str;
  report_updated_at : option Q }.

(** [Weather].  The two text fields hold whatever value the forecast
    document carries under their key ([JNull] for [None]). *)
Record Weather := mkWeather {
  temp_f : option Q;
  wind_mph : option Q;
  wind_gust_mph : option Q;
  short_forecast : json;
  forecast_period_name : json }.

Record ResortConditions := mkResortConditions {
  slug : string;
  name : string;
  fetched_at_utc : Q;
  stale : bool;
  sources : Sources;
  ops : Operations;
  snow : Snow;
  weather : Weather }.

Record ResortConfig := mkResortConfig {
  cfg_slug : string;
  cfg_name : string;
  cfg_kind : string;
  cfg_source_url : str;
  cfg_lat : Q;
  cfg_lon : Q;
  cfg_enabled : bool }.

(** [Operations()], [Snow()] and [Weather()]: every fact unknown. *)
Definition Operations_default : Operations :=
  mkOperations None None None None None None None.
Definition Snow_default : Snow := mkSnow None None None None None None.
Definition Weather_default : Weather := mkWeather None None None JNull JNull.

Definition set_open_flag (o : Operations) (f : option bool) : Operations :=
  mkOperations f (lifts_open o) (lifts_scheduled o) (lifts_total o)
    (trails_open o) (trails_scheduled o) (trails_total o).

(** [x is not None] *)
Definition known {A} (x : option A) : bool :=
  match x with Some _ => true | None => false end.

(** [x or 0] on an optional count. *)
Definition or0 (x : option Z) : Z := default 0%Z x.

End Models.

(** ** Shared parsing utilities ([adapters/base.py]) *)

Module Base.
Import Py Re.

(** [(\d+(?:\.\d+)?)\s*[-...]\s*(\d+(?:\.\d+)?)].  The bracket of the
    source holds four code points: U+002D, U+00E2, U+20AC and U+201C. *)
Definition range_class : list char := [45; 226; 8364; 8220].

Definition range_pattern : re :=
  seqs [Group 1 decimal; Star space; any_of range_class; Star space;
        Group 2 decimal].

(** [(\d+(?:\.\d+)?)\s*(?:Q|in|inches?)?], where [Q] is the double-quote
    mark (code point 34). *)
Definition single_pattern : re :=
  seqs [Group 1 decimal; Star space;
        Opt (Alt (one 34)
               (Alt (lit "in") (Seq (lit "inche") (Opt (one 115)))))].

(** [(low + high) / 2] *)
Definition mean (low high : Q) : Q := Qred ((low + high) / 2).

Definition parse_inches (text : option str) : option Q :=
  match text with
  | None | Some [] => None
  | Some t =>
      let t := lower (strip t) in
      match search range_pattern t with
      | Some m =>
          match group m 1, group m 2 with
          | Some low, Some high =>
              Some (mean (float_of_decimal low) (float_of_decimal high))
          | _, _ => None
          end
      | None =>
          match search single_pattern t with
          | Some m => float_of_decimal <$> group m 1
          | None => None
          end
      end
  end.

(** [any(phrase in text for phrase in phrases)] *)
Definition any_in (phrases : list string) (text : str) : bool :=
  existsb (fun p => contains (py p) text) phrases.

Definition parse_bool_status (text : option str) : option bool :=
  match text with
  | None | Some [] => None
  | Some t =>
      let t := lower (strip t) in
      if any_in ["not operating"; "closed"; "not open"]%string t then Some false
      else if any_in ["open"; "yes"; "operating"]%string t then Some true
      else None
  end.

End Base.

(** ** Exceptions and effects *)

Module Exc.
Import Py.

(** The exception classes the sources raise or catch.  All of them derive
    from [Exception]; [HTTPError] derives from
    [requests.exceptions.RequestException]. *)
Inductive exn_class :=
| FetchError
| RequestException
| HTTPError
| JSONDecodeError
| AttributeError
| TypeError
| ValueError
| KeyError
| OtherException.

(** An exception instance: its class and [str(e)]. *)
Record exn := mkExn { exn_cls : exn_class; exn_str : str }.

(** [isinstance(e, FetchError)] *)
Definition is_FetchError (e : exn) : bool :=
  match exn_cls e with FetchError => true | _ => false end.

(** [isinstance(e, requests.exceptions.RequestException)] *)
Definition is_RequestException (e : exn) : bool :=
  match exn_cls e with RequestException | HTTPError => true | _ => false end.

(** [isinstance(e, json.JSONDecodeError)] *)
Definition is_JSONDecodeError (e : exn) : bool :=
  match exn_cls e with JSONDecodeError => true | _ => false end.

(** [isinstance(e, Exception)] *)
Definition is_Exception (e : exn) : bool := true.

(** The outcome of a computation: a value, or an exception in flight. *)
Inductive result (A : Type) :=
| Ok (a : A)
| Raise (e : exn).
Arguments Ok {A} a.
Arguments Raise {A} e.

Definition returns {A} (r : result A) : bool :=
  match r with Ok _ => true | Raise _ => false end.

(** Pure code that may raise. *)
Definition rbind {A B} (r : result A) (k : A -> result B) : result B :=
  match r with
  | Ok a => k a
  | Raise e => Raise e
  end.

(** [try: body  except <caught> as e: handler(e)] *)
Definition rtry {A} (body : result A) (caught : exn -> bool)
    (handler : exn -> result A) : result A :=
  match body with
  | Ok a => Ok a
  | Raise e => if caught e then handler e else Raise e
  end.

(** Code that may raise and that reads and writes a state [W]. *)
Definition M (W A : Type) : Type := W -> result A * W.

Definition ret {W A} (a : A) : M W A := fun w => (Ok a, w).
Definition raise {W A} (e : exn) : M W A := fun w => (Raise e, w).
Definition bind {W A B} (c : M W A) (k : A -> M W B) : M W B :=
  fun w =>
    match c w with
    | (Ok a, w') => k a w'
    | (Raise e, w') => (Raise e, w')
    end.
Definition lift {W A} (r : result A) : M W A := fun w => (r, w).
Definition get {W} : M W W := fun w => (Ok w, w).
Definition modify {W} (f : W -> W) : M W unit := fun w => (Ok tt, f w).

(** [try: body  except <caught> as e: handler(e)]; an exception the
    clause does not name stays in flight.  Effects of [body] up to the
    raise are kept. *)
Definition try_except {W A} (body : M W A) (caught : exn -> bool)
    (handler : exn -> M W A) : M W A :=
  fun w =>
    match body w with
    | (Ok a, w') => (Ok a, w')
    | (Raise e, w') => if caught e then handler e w' else (Raise e, w')
    end.

(** Local variables that are assigned inside a [try] block and read by its
    [except] clause or after it live in the state, next to the world [W]:
    they keep the value they had when an exception was raised. *)
Definition zoom {L W A} (c : M W A) : M (L * W) A :=
  fun lw => let (r, w') := c (snd lw) in (r, (fst lw, w')).
Definition with_locals {L W A} (init : L) (c : M (L * W) A) : M W A :=
  fun w => let (r, lw) := c (init, w) in (r, snd lw).
Definition locals {L W} : M (L * W) L := fun lw => (Ok (fst lw), lw).
Definition assign {L W} (f : L -> L) : M (L * W) unit :=
  modify (fun lw => (f (fst lw), snd lw)).

End Exc.

Declare Scope prog_scope.
Delimit Scope prog_scope with prog.
Notation "x <- y ; z" := (Exc.bind y (fun x => z))
  (at level 20, y at level 100, z at level 200, only parsing) : prog_scope.
Notation "x ;; z" := (Exc.bind x (fun _ => z))
  (at level 100, z at level 200, only parsing, right associativity)
  : prog_scope.


(** ** Operations on JSON values that may raise *)

Module Dyn.
Import Py Json Exc.

Definition attribute_error : exn := mkExn AttributeError (py "object has no attribute 'get'").
Definition type_error : exn := mkExn TypeError (py "object is not iterable").

(** [for x in v]: the items a JSON value yields when iterated. *)
Definition iterate (v : json) : result (list json) :=
  match v with
  | JArr l => Ok l
  | JObj f => Ok (map (fun kv => JStr (fst kv)) f)
  | JStr s => Ok (map (fun c => JStr [c]) s)
  | _ => Raise type_error
  end.

(** [x.get(key, dflt)], which only a [dict] has. *)
Definition get_or (x : json) (key : string) (dflt : json) : result json :=
  match x with
  | JObj f => Ok (default dflt (obj_get f (py key)))
  | _ => Raise attribute_error
  end.

(** [v[0]] *)
Definition subscript0 (v : json) : result json :=
  match v with
  | JArr (x :: _) => Ok x
  | JArr [] => Raise (mkExn OtherException (py "list index out of range"))
  | JStr (c :: _) => Ok (JStr [c])
  | JStr [] => Raise (mkExn OtherException (py "string index out of range"))
  | JObj _ => Raise (mkExn KeyError (py "0"))
  | _ => Raise (mkExn TypeError (py "object is not subscriptable"))
  end.

(** The number a JSON integer, float or boolean stands for. *)
Definition to_number (v : json) : option Q :=
  match v with
  | JInt z => Some (inject_Z z)
  | JFloat q => Some q
  | JBool b => Some (if b then 1 else 0)%Q
  | _ => None
  end.

End Dyn.

(** ** The adapters ([adapters/*.py]) *)

Module Adapters.
Import Py Re Models Base Exc Json Dyn.
Local Open Scope string_scope.
Local Open Scope Z_scope.

(** [ParseResult] of [adapters/base.py]. *)
Record ParseResult := mkParseResult {
  success : bool;
  ops : Operations;
  snow : Snow;
  error : option str;
  needs_headless : bool }.

(** [ParseResult()] *)
Definition ParseResult_default : ParseResult :=
  mkParseResult false Operations_default Snow_default None false.

Inductive AdapterClass :=
| GenericHTMLAdapter
| BorealAdapter
| DiamondPeakAdapter
| HomewoodAdapter
| MtRoseAdapter
| PalisadesAdapter
| SierraAtTahoeAdapter
| SugarBowlAdapter
| TahoeDonnerAdapter
| VailResortsAdapter
| PlaceholderHeadlessAdapter.

(** What the library-dependent part of an adapter's [try] block found on a
    page, when it did not raise: the text the open-status step reads, the
    text the lift rows are read from, the embedded terrain-status object
    if one decoded, and the counts and measurements matched so far (the
    open flag is still unset). *)
Record Page := mkPage {
  page_text : str;
  page_lift_text : str;
  page_terrain : option (list (str * json));
  page_ops : Operations;
  page_snow : Snow }.

(** The HTML parser, the regular-expression searches and the JSON decoder
    the adapters call ([bs4], [lxml], [re], [json]): for each adapter and
    markup, either an exception or the page contents. *)
Class PageLib := { extract : AdapterClass -> str -> result Page }.

Definition has (phrase : string) (text : str) : bool := contains (py phrase) text.

(** [n > 0] on a count that is known. *)
Definition positive (n : option Z) : option bool := (fun k => 0 <? k) <$> n.

(** *** The open flag, adapter by adapter *)

(** [GenericHTMLAdapter._find_open_status] *)
Definition _find_open_status (text_lower : str) (o : Operations) : option bool :=
  if has "resort closed" text_lower || has "mountain closed" text_lower
  then Some false
  else if has "resort open" text_lower || has "mountain open" text_lower
  then Some true
  else match lifts_open o with
       | Some n => Some (0 <? n)
       | None => None
       end.

(** The chain [lifts_open], else [trails_open], else unknown. *)
Definition lifts_then_trails (o : Operations) : option bool :=
  match lifts_open o with
  | Some n => Some (0 <? n)
  | None =>
      match trails_open o with
      | Some n => Some (0 <? n)
      | None => None
      end
  end.

Definition boreal_open_status (text : str) (o : Operations) : option bool :=
  if has "closed for season" (lower text) || has "not operating" (lower text)
  then Some false
  else lifts_then_trails o.

Definition diamond_peak_open_status (text : str) (o : Operations) : option bool :=
  match lifts_open o with
  | Some n => Some (0 <? n)
  | None =>
      if has "mountain closed" (lower text) || has "closed for season" (lower text)
      then Some false
      else if has "open" (lower text) then Some true
      else open_flag o
  end.

Definition homewood_open_status (o : Operations) : option bool :=
  lifts_then_trails o.

Definition palisades_open_status (o : Operations) : option bool :=
  lifts_then_trails o.

(** [ops.lifts_open is not None and ops.lifts_open > 0] *)
Definition lifts_running (o : Operations) : bool :=
  match lifts_open o with
  | Some n => 0 <? n
  | None => false
  end.

Definition mt_rose_open_status (text : str) (o : Operations) : option bool :=
  if lifts_running o then Some true
  else if has "closed" (lower text)
          && negb (has "chutes"
                     (slice_to (find (py "closed") (lower text) + 20) (lower text)))
  then Some false
  else Some (lifts_running o).

Definition sierra_open_status (o : Operations) : option bool :=
  Some (lifts_running o).

Definition sugar_bowl_open_status (text : str) (o : Operations) : option bool :=
  let lifts_active := or0 (lifts_open o) + or0 (lifts_scheduled o) in
  if has "mountain status open" (lower text) then Some true
  else if 0 <? lifts_active then Some true
  else if known (lifts_open o) || known (lifts_scheduled o) then Some false
  else None.

Definition tahoe_donner_open_status (text : str) (o : Operations) : option bool :=
  if has "closed" (lower text) && has "season" (lower text) then Some false
  else lifts_then_trails o.

Definition vail_open_status (o : Operations) : option bool :=
  let lifts_active := or0 (lifts_open o) + or0 (lifts_scheduled o) in
  let trails_active := or0 (trails_open o) + or0 (trails_scheduled o) in
  if 0 <? lifts_active then Some true
  else if 0 <? trails_active then Some true
  else if known (lifts_open o) || known (lifts_scheduled o) then Some false
  else None.

(** *** The text patterns of the generic adapter

    All of them are searched under [re.IGNORECASE], in the order of the
    source's lists; the first pattern that matches decides. *)

Fixpoint alts (l : list re) : re :=
  match l with
  | [] => Eps
  | [a] => a
  | a :: l' => Alt a (alts l')
  end.

(** [\s*], [\s+], [[:\s]*], a slash, the inch marks (the double quote and
    the double prime U+2033), [in|inches?]. *)
Definition sp : re := Star space.
Definition sp1 : re := Plus space.
Definition colon_or_space : re := Chr (fun c => (c =? 58)%N || is_space c).
Definition sep : re := Star colon_or_space.
Definition slash : re := one 47%N.
Definition inch_mark : re := any_of [34; 8243]%N.
Definition plural (w : string) : re := Seq (lit_i w) (Opt (one_i 115%N)).
Definition inches : re := plural "inche".
Definition in_or_inches : re := Alt (lit_i "in") inches.
Definition num (i : nat) : re := Group i (Plus digit).
Definition dec (i : nat) : re := Group i decimal.
Definition trails_or_runs : re := Alt (plural "trail") (plural "run").
Definition hr_or_hour : re := Alt (lit_i "hr") (lit_i "hour").

(** The first pattern of a list that matches, with what [f] reads off the
    match. *)
Fixpoint first_search {A} (patterns : list re) (text : str)
    (f : caps -> option A) : option A :=
  match patterns with
  | [] => None
  | r :: rest =>
      match search r text with
      | Some m => f m
      | None => first_search rest text f
      end
  end.

(** [int(match.group(1)), int(match.group(2))] *)
Definition int_pair (m : caps) : option (Z * Z) :=
  match group m 1, group m 2 with
  | Some a, Some b => Some (int_of_digits a, int_of_digits b)
  | _, _ => None
  end.

(** [float(match.group(1))] *)
Definition float1 (m : caps) : option Q := float_of_decimal <$> group m 1.

Definition _find_lift_counts (text : str) : option (Z * Z) :=
  first_search
    [seqs [num 1; sp; slash; sp; num 2; sp; plural "lift"];
     seqs [plural "lift"; sp; sep; num 1; sp; slash; sp; num 2];
     seqs [num 1; sp1; lit_i "of"; sp1; num 2; sp1; plural "lift"];
     seqs [plural "lift"; sp1; lit_i "open"; sep; num 1; sp; slash; sp; num 2]]
    text int_pair.

Definition _find_trail_counts (text : str) : option (Z * Z) :=
  first_search
    [seqs [num 1; sp; slash; sp; num 2; sp; trails_or_runs];
     seqs [trails_or_runs; sp; sep; num 1; sp; slash; sp; num 2];
     seqs [num 1; sp1; lit_i "of"; sp1; num 2; sp1; trails_or_runs]]
    text int_pair.

Definition _find_new_snow (text : str) (hours : string) : option Q :=
  first_search
    [seqs [dec 1; inch_mark; sp; Opt (Seq (lit_i "in") sp1);
           Opt (Seq (lit_i "last") sp1); lit_i hours; sp; hr_or_hour];
     seqs [lit_i hours; sp; hr_or_hour; Opt (one_i 115%N); sp; sep; dec 1;
           Opt inch_mark];
     seqs [lit_i "new"; sp1; lit_i "snow"; sp; Opt (one 40%N); lit_i hours;
           Opt (one_i 104%N); Opt (one 41%N); sp; sep; dec 1];
     seqs [dec 1; sp; alts [lit_i "in"; inches; one 34%N]; sp;
           Opt (Seq (lit_i "in") sp1); lit_i hours; sp; hr_or_hour]]
    text float1.

(** [base\s*(?:depth)?[:\s]*] *)
Definition base_prefix : re := seqs [lit_i "base"; sp; Opt (lit_i "depth"); sep].

(** The first pattern has two groups, a range, of which the mean is
    returned; the others have one. *)
Definition _find_base_depth (text : str) : option Q :=
  first_search
    [seqs [base_prefix; dec 1; sp; any_of [45; 8211]%N; sp; dec 2];
     seqs [base_prefix; dec 1; Opt inch_mark; sp; Opt in_or_inches];
     seqs [dec 1; Opt inch_mark; sp; lit_i "base"]]
    text
    (fun m =>
       match group m 2 with
       | Some high =>
           (fun low => mean (float_of_decimal low) (float_of_decimal high))
             <$> group m 1
       | None => float1 m
       end).

Definition _find_season_total (text : str) : option Q :=
  first_search
    [seqs [lit_i "season"; sp; lit_i "total"; sep; dec 1; Opt inch_mark; sp;
           Opt in_or_inches];
     seqs [lit_i "ytd"; sep; dec 1; Opt inch_mark];
     seqs [dec 1; Opt inch_mark; sp; Opt in_or_inches; sp; lit_i "season"]]
    text float1.

(** [text.split()]: the maximal runs without white space. *)
Fixpoint split_ws (cur : str) (s : str) : list str :=
  match s with
  | [] => match cur with [] => [] | _ => [rev cur] end
  | c :: s' =>
      if is_space c
      then match cur with
           | [] => split_ws [] s'
           | _ => rev cur :: split_ws [] s'
           end
      else split_ws (c :: cur) s'
  end.

Fixpoint join_sp (l : list str) : str :=
  match l with
  | [] => []
  | [a] => a
  | a :: l' => (a ++ 32%N :: join_sp l')%list
  end.

(** [BaseAdapter.clean_text] *)
Definition clean_text (text : option str) : str :=
  match text with
  | None | Some [] => []
  | Some t => join_sp (split_ws [] t)
  end.

(** [[A-Za-z\s,]+?] as group 1, then a full stop, the end of the text or
    a line feed. *)
Definition described : re :=
  Seq (Group 1 (PlusLazy (Chr (fun c => is_upper c || is_lower c || is_space c
                                        || (c =? 44)%N))))
      (alts [one 46%N; Dollar; one 10%N]).

(** [_find_surface]: a match of 50 characters or more is passed over. *)
Fixpoint first_short (patterns : list re) (text : str) : option str :=
  match patterns with
  | [] => None
  | r :: rest =>
      match search r text with
      | Some m =>
          let surface := clean_text (group m 1) in
          if (length surface <? 50)%nat then Some surface
          else first_short rest text
      | None => first_short rest text
      end
  end.

Definition _find_surface (text : str) : option str :=
  first_short
    [seqs [lit_i "surface"; Plus colon_or_space; described];
     seqs [plural "condition"; Plus colon_or_space; described]]
    text.

(** *** Counting lifts *)

(** [MtRoseAdapter.LIFT_NAMES] *)
Definition LIFT_NAMES : list string :=
  ["Northwest Express"; "Zephyr Express"; "Lakeview Express"; "Wizard";
   "Magic"; "Galena"; "Chuter"; "Blazing Zephyr"].

(** The escaped lift name, [\s+], and as group 1 a word followed by any
    number of further words separated by white space, under
    [re.IGNORECASE]. *)
Definition lift_pattern (lift_name : string) : re :=
  seqs [lit_i lift_name; Plus space;
        Group 1 (Seq (Plus word) (Star (Seq (Plus space) (Plus word))))].

(** One turn of the loop of [MtRoseAdapter._count_lifts] on the running
    pair [(lifts_open, lifts_total)]. *)
Definition count_lift (text : str) (acc : Z * Z) (lift_name : string) : Z * Z :=
  let '(lifts_open, lifts_total) := acc in
  match search (lift_pattern lift_name) text with
  | Some m =>
      let status := lower (default [] (group m 1)) in
      if has "scheduled" status || has "open" status
      then (lifts_open + 1, lifts_total + 1)
      else (lifts_open, lifts_total + 1)
  | None => (lifts_open, lifts_total)
  end.

(** [MtRoseAdapter._count_lifts] *)
Definition _count_lifts (text : str) : option Z * option Z :=
  let '(lifts_open, lifts_total) := fold_left (count_lift text) LIFT_NAMES (0, 0) in
  if lifts_total =? 0 then (None, None) else (Some lifts_open, Some lifts_total).

(** [MtRoseAdapter._count_trails]: an explicit [X / Y trails], if the page
    has one. *)
Definition _count_trails (text : str) : option Z * option Z :=
  match search (seqs [num 1; sp; slash; sp; num 2; sp; trails_or_runs]) text with
  | Some m => (int_of_digits <$> group m 1, int_of_digits <$> group m 2)
  | None => (None, None)
  end.

(** The [counts] dictionaries of the Sugar Bowl and Vail Resorts
    adapters. *)
Record Counts := mkCounts {
  c_open : Z; c_scheduled : Z; c_closed : Z; c_hold : Z; c_total : Z }.

Definition Counts_zero : Counts := mkCounts 0 0 0 0 0.

Inductive LiftStatus := StOpen | StScheduled | StHold | StClosed.

Definition tally (c : Counts) (st : LiftStatus) : Counts :=
  match st with
  | StOpen => mkCounts (c_open c + 1) (c_scheduled c) (c_closed c) (c_hold c) (c_total c + 1)
  | StScheduled => mkCounts (c_open c) (c_scheduled c + 1) (c_closed c) (c_hold c) (c_total c + 1)
  | StHold => mkCounts (c_open c) (c_scheduled c) (c_closed c) (c_hold c + 1) (c_total c + 1)
  | StClosed => mkCounts (c_open c) (c_scheduled c) (c_closed c + 1) (c_hold c) (c_total c + 1)
  end.

(** The lift names of [SugarBowlAdapter._count_lift_statuses]. *)
Definition sugar_bowl_lift_names : list string :=
  ["Mt. Judah Express"; "Jerome Hill Express"; "Mt. Lincoln Express";
   "Christmas Tree Express"; "Mt. Disney Express"; "Nob Hill";
   "White Pine"; "Summit Chair"; "Gondola"; "Flume Carpet"; "Crow's Peak"].

Definition not_newline : re := Chr (fun c => negb (c =? 10)%N).

(** The escaped lift name, the rest of its line, a line feed, and on the
    next line one of [Open], [Scheduled], [Closed] as group 1, under
    [re.IGNORECASE]. *)
Definition sugar_bowl_pattern (lift_name : string) : re :=
  seqs [lit_i lift_name; Star not_newline; one 10%N; Star not_newline;
        Group 1 (alts [lit_i "open"; lit_i "scheduled"; lit_i "closed"])].

(** One turn of the loop of [SugarBowlAdapter._count_lift_statuses]. *)
Definition sugar_bowl_count (text : str) (c : Counts) (lift_name : string) : Counts :=
  match search (sugar_bowl_pattern lift_name) text with
  | Some m =>
      let status := lower (default [] (group m 1)) in
      if str_eqb status (py "open") then tally c StOpen
      else if str_eqb status (py "scheduled") then tally c StScheduled
      else tally c StClosed
  | None => c
  end.

(** [SugarBowlAdapter._count_lift_statuses], on [soup.get_text] with line
    feeds as separator.  (The counts it gathers afterwards, when no lift is
    found, are not stored.) *)
Definition sugar_bowl_lift_statuses (text : str) : Counts :=
  fold_left (sugar_bowl_count text) sugar_bowl_lift_names Counts_zero.

(** The classification of one [Status] value in [_count_lift_statuses].
    [isinstance(status, int)] holds of JSON integers and booleans; any
    other value goes through [str(status).lower()], which spells one of
    the status words only when [status] is a string. *)
Definition lift_status (status : json) : LiftStatus :=
  match status with
  | JInt z =>
      if z =? 1 then StOpen else if z =? 3 then StScheduled
      else if z =? 2 then StHold else StClosed
  | JBool b => if b then StOpen else StClosed
  | JStr s =>
      let status_str := lower s in
      if str_eqb status_str (py "open") then StOpen
      else if str_eqb status_str (py "scheduled") then StScheduled
      else if str_eqb status_str (py "on-hold") || str_eqb status_str (py "on hold")
              || str_eqb status_str (py "hold") then StHold
      else StClosed
  | _ => StClosed
  end.

Fixpoint count_lifts_from (c : Counts) (lifts : list json) : result Counts :=
  match lifts with
  | [] => Ok c
  | lift :: rest =>
      rbind (get_or lift "Status" (JInt 0)) (fun status =>
      count_lifts_from (tally c (lift_status status)) rest)
  end.

(** [VailResortsAdapter._count_lift_statuses] *)
Definition _count_lift_statuses (lifts : json) : result Counts :=
  rbind (iterate lifts) (count_lifts_from Counts_zero).

Fixpoint count_trails_from (c : Counts) (trails : list json) : result Counts :=
  match trails with
  | [] => Ok c
  | trail :: rest =>
      rbind (get_or trail "IsOpen" (JBool false)) (fun is_open =>
      count_trails_from (tally c (if truthy is_open then StOpen else StClosed)) rest)
  end.

(** [VailResortsAdapter._count_trail_statuses] *)
Definition _count_trail_statuses (trails : list json) : result Counts :=
  count_trails_from Counts_zero trails.

(** The loop that gathers [all_trails] from the grooming areas. *)
Fixpoint gather_trails (areas : list json) : result (list json) :=
  match areas with
  | [] => Ok []
  | area :: rest =>
      rbind (get_or area "Trails" (JArr [])) (fun ts =>
      rbind (iterate ts) (fun l =>
      rbind (gather_trails rest) (fun l' => Ok (l ++ l')%list)))
  end.

(** *** [parse] *)

Section Parse.
Context {L : PageLib}.

(** The counts an adapter has assigned when it reaches its open-status
    step: [ops.open_flag] is not assigned before, and the scheduled counts
    are assigned by the Sugar Bowl and Vail Resorts adapters only, whose
    counts are computed below. *)
Definition found (p : Page) : Operations :=
  mkOperations None (lifts_open (page_ops p)) None (lifts_total (page_ops p))
    (trails_open (page_ops p)) None (trails_total (page_ops p)).


(** The tail of a [try] block: [result.ops = ops], [result.snow = snow],
    [result.success = ok] and, where the adapter has one, the message set
    when [ok] is false. *)
Definition finish (ok : bool) (o : Operations) (s : Snow) (msg : string)
  : ParseResult :=
  mkParseResult ok o s (if ok then None else Some (py msg)) false.

(** The [except Exception as e] clause: [result.error = str(e)] on the
    result built by [ParseResult()]. *)
Definition on_exception (e : exn) : result ParseResult :=
  Ok (mkParseResult false Operations_default Snow_default (Some (exn_str e)) false).

Definition with_flag (o : Operations) (f : option bool) : Operations :=
  set_open_flag o f.

(** The generic adapter reads everything off the page text, [text] being
    [soup.get_text(separator=" ")] once the script and style elements are
    removed. *)
Definition generic_body (html : str) : result ParseResult :=
  rbind (extract GenericHTMLAdapter html) (fun p =>
  let text := page_text p in
  let text_lower := lower text in
  let lifts := _find_lift_counts text in
  let trails := _find_trail_counts text in
  let o := mkOperations None (fst <$> lifts) None (snd <$> lifts)
             (fst <$> trails) None (snd <$> trails) in
  let o := with_flag o (_find_open_status text_lower o) in
  let s := mkSnow (_find_new_snow text "24") (_find_new_snow text "48")
             (_find_base_depth text) (_find_season_total text)
             (_find_surface text) None in
  Ok (finish (known (lifts_open o) || known (new_snow_24h_in s)) o s
        "Could not extract meaningful data")).

Definition boreal_body (html : str) : result ParseResult :=
  rbind (extract BorealAdapter html) (fun p =>
  let o := found p in
  let o := with_flag o (boreal_open_status (page_text p) o) in
  let s := page_snow p in
  Ok (finish (known (lifts_open o) || known (trails_open o) || known (base_depth_in s))
        o s "Could not extract conditions data from rendered page")).

Definition diamond_peak_body (html : str) : result ParseResult :=
  rbind (extract DiamondPeakAdapter html) (fun p =>
  let o := found p in
  let o := with_flag o (diamond_peak_open_status (page_text p) o) in
  Ok (finish true o (page_snow p) "")).

Definition homewood_body (html : str) : result ParseResult :=
  rbind (extract HomewoodAdapter html) (fun p =>
  let o := found p in
  let o := with_flag o (homewood_open_status o) in
  Ok (finish true o (page_snow p) "")).

Definition mt_rose_body (html : str) : result ParseResult :=
  rbind (extract MtRoseAdapter html) (fun p =>
  let '(lo, lt) := _count_lifts (page_lift_text p) in
  let '(t_open, t_total) := _count_trails (page_text p) in
  let o := mkOperations None lo None lt t_open None t_total in
  let o := with_flag o (mt_rose_open_status (page_text p) o) in
  Ok (finish true o (page_snow p) "")).

Definition palisades_body (html : str) : result ParseResult :=
  rbind (extract PalisadesAdapter html) (fun p =>
  let o := found p in
  let o := with_flag o (palisades_open_status o) in
  Ok (finish (known (lifts_open o) || known (trails_open o)) o (page_snow p)
        "Could not extract lift/trail data from rendered page")).

Definition sierra_body (html : str) : result ParseResult :=
  rbind (extract SierraAtTahoeAdapter html) (fun p =>
  let o := found p in
  let o := with_flag o (sierra_open_status o) in
  Ok (finish true o (page_snow p) "")).

Definition sugar_bowl_body (html : str) : result ParseResult :=
  rbind (extract SugarBowlAdapter html) (fun p =>
  let text := page_text p in
  let lift_counts := sugar_bowl_lift_statuses (page_lift_text p) in
  let lifts :=
    if 0 <? c_total lift_counts
    then (Some (c_open lift_counts), Some (c_scheduled lift_counts),
          Some (c_total lift_counts))
    else
      match search (seqs [num 1; sp; slash; sp; num 2; sp; plural "lift"; sp;
                          lit_i "open"]) text with
      | Some m => (int_of_digits <$> group m 1, None, int_of_digits <$> group m 2)
      | None => (None, None, None)
      end in
  let trails :=
    match search (seqs [num 1; sp; slash; sp; num 2; sp; plural "trail"; sp;
                        lit_i "open"]) text with
    | Some m => (int_of_digits <$> group m 1, int_of_digits <$> group m 2)
    | None => (None, None)
    end in
  let o := mkOperations None (fst (fst lifts)) (snd (fst lifts)) (snd lifts)
             (fst trails) None (snd trails) in
  let o := with_flag o (sugar_bowl_open_status text o) in
  Ok (finish true o (page_snow p) "")).

Definition tahoe_donner_body (html : str) : result ParseResult :=
  rbind (extract TahoeDonnerAdapter html) (fun p =>
  let o := found p in
  let o := with_flag o (tahoe_donner_open_status (page_text p) o) in
  let s := page_snow p in
  Ok (finish (known (lifts_open o) || known (trails_open o) || known (base_depth_in s))
        o s "Could not extract conditions data from rendered page")).

(** The lift block of [VailResortsAdapter.parse]: the embedded object's
    [Lifts] when there is one, else the counts of the text pattern. *)
Definition vail_lifts (p : Page) : result (option Z * option Z * option Z) :=
  let fallback :=
    match search (seqs [num 1; sp; slash; sp; num 2; sp; plural "lift";
                        Opt (Seq sp (lit_i "open"))]) (page_text p) with
    | Some m => (int_of_digits <$> group m 1, None, int_of_digits <$> group m 2)
    | None => (None, None, None)
    end in
  match page_terrain p with
  | Some f =>
      match (if truthy (JObj f) then obj_get f (py "Lifts") else None) with
      | Some lifts =>
          rbind (_count_lift_statuses lifts) (fun c =>
          Ok (Some (c_open c), Some (c_scheduled c), Some (c_total c)))
      | None => Ok fallback
      end
  | None => Ok fallback
  end.

(** The trail block: the trails of the grooming areas when the embedded
    object lists any, else the counts of the text pattern. *)
Definition vail_trails (p : Page) : result (option Z * option Z * option Z) :=
  let fallback :=
    match search (seqs [num 1; sp; slash; sp; num 2; sp; trails_or_runs;
                        Opt (Seq sp (lit_i "open"))]) (page_text p) with
    | Some m => (int_of_digits <$> group m 1, None, int_of_digits <$> group m 2)
    | None => (None, None, None)
    end in
  match page_terrain p with
  | Some f =>
      match (if truthy (JObj f) then obj_get f (py "GroomingAreas") else None) with
      | Some areas =>
          rbind (iterate areas) (fun l =>
          rbind (gather_trails l) (fun all_trails =>
          match all_trails with
          | [] => Ok fallback
          | _ =>
              rbind (_count_trail_statuses all_trails) (fun c =>
              Ok (Some (c_open c), Some (c_scheduled c), Some (c_total c)))
          end))
      | None => Ok fallback
      end
  | None => Ok fallback
  end.

Definition vail_body (html : str) : result ParseResult :=
  rbind (extract VailResortsAdapter html) (fun p =>
  rbind (vail_lifts p) (fun '(l_open, l_sched, l_total) =>
  rbind (vail_trails p) (fun '(t_open, t_sched, t_total) =>
  let o := mkOperations None l_open l_sched l_total t_open t_sched t_total in
  let o := with_flag o (vail_open_status o) in
  Ok (finish true o (page_snow p) "")))).

(** The body of [parse] up to the [except] clause.  The placeholder
    adapter has no [try] block: it returns its fixed result. *)
Definition parse_body (a : AdapterClass) (html : str) : result ParseResult :=
  match a with
  | GenericHTMLAdapter => generic_body html
  | BorealAdapter => boreal_body html
  | DiamondPeakAdapter => diamond_peak_body html
  | HomewoodAdapter => homewood_body html
  | MtRoseAdapter => mt_rose_body html
  | PalisadesAdapter => palisades_body html
  | SierraAtTahoeAdapter => sierra_body html
  | SugarBowlAdapter => sugar_bowl_body html
  | TahoeDonnerAdapter => tahoe_donner_body html
  | VailResortsAdapter => vail_body html
  | PlaceholderHeadlessAdapter =>
      Ok (mkParseResult false Operations_default Snow_default
            (Some (py "This resort requires JavaScript rendering (headless browser)"))
            true)
  end.

(** [adapter.parse(html)] *)
Definition parse (a : AdapterClass) (html : str) : result ParseResult :=
  match a with
  | PlaceholderHeadlessAdapter => parse_body a html
  | _ => rtry (parse_body a html) is_Exception on_exception
  end.

End Parse.

(** *** The registry ([adapters/registry.py]) *)

Definition ADAPTER_REGISTRY : gmap string AdapterClass :=
  list_to_map
    [("generic", GenericHTMLAdapter); ("boreal", BorealAdapter);
     ("diamond_peak", DiamondPeakAdapter); ("homewood", HomewoodAdapter);
     ("mt_rose", MtRoseAdapter); ("palisades", PalisadesAdapter);
     ("sierra_at_tahoe", SierraAtTahoeAdapter); ("sugar_bowl", SugarBowlAdapter);
     ("tahoe_donner", TahoeDonnerAdapter); ("vail_resorts", VailResortsAdapter);
     ("placeholder_headless", PlaceholderHeadlessAdapter)].

Definition HEADLESS_ADAPTERS : gset string :=
  {[ "boreal"; "palisades"; "tahoe_donner"; "placeholder_headless" ]}.

Definition get_adapter (kind : string) : AdapterClass :=
  default GenericHTMLAdapter (ADAPTER_REGISTRY !! kind).

Definition requires_headless (kind : string) : bool :=
  bool_decide (kind ∈ HEADLESS_ADAPTERS).

End Adapters.

(** ** The summary ([summarize.py]) and the log line of [main.py] *)

Module Summarize.
Import Models.
Local Open Scope Z_scope.

(** [lifts_available] and [trails_available] of [generate_blurb] *)
Definition lifts_available (o : Operations) : Z :=
  or0 (lifts_open o) + or0 (lifts_scheduled o).
Definition trails_available (o : Operations) : Z :=
  or0 (trails_open o) + or0 (trails_scheduled o).

End Summarize.

(** ** The fetch layer ([http.py], [config.py]) *)

Module Http.
Import Py Json Models Exc.
Local Open Scope string_scope.
Local Open Scope list_scope.
Local Open Scope Q_scope.
Local Open Scope prog_scope.

(** [config.py] *)
Definition RATE_LIMIT_DELAY : Q := 3 # 2.
Definition MAX_RETRIES : nat := 3.
Definition RETRY_BACKOFF_BASE : Q := 2.
Definition CONDITIONS_CACHE_TTL : Z := 900.
Definition NWS_CACHE_TTL : Z := 3600.

(** What the run-time environment fixes: whether the [playwright] import
    succeeded, and the library functions whose results are only named
    here ([hashlib], [strftime], [urlparse], [json], [str.format] of the
    points URL, and [float] on a string, [None] standing for its
    [ValueError]). *)
Class Platform := {
  HAS_PLAYWRIGHT : bool;
  md5_hex16 : str -> string;
  utc_date_key : Q -> string;
  netloc : str -> string;
  json_loads : str -> option json;
  json_dumps : json -> str;
  points_url_of : Q -> Q -> str;
  float_of_str : str -> option Q }.

(** A file of [CACHE_DIR]: its modification time and, when it can be read
    and decoded, its text. *)
Record CacheFile := mkCacheFile { mtime : Q; content : option str }.

(** What one call of [requests.get] does: a response, or a transport
    failure raised as a [RequestException]. *)
Inductive Transport :=
| Responds (status_code : Z) (text : str) (body_json : option json)
| Fails (msg : str).

Record Response := mkResponse {
  status : Z;
  response_text : str;
  response_json : option json }.

(** The state the pipeline reads and writes: the clock, the cache
    directory, the [_last_request_time] table, the network (what the
    [k]-th transport call answers for a URL) with the number of calls
    issued, and the browser (what rendering a URL yields, if it
    succeeds). *)
Record World := mkWorld {
  clock : Q;
  cache : gmap string CacheFile;
  cache_writable : bool;
  last_request_time : gmap string Q;
  net : nat -> str -> Transport;
  calls : nat;
  browser : str -> option str }.

Definition set_clock (w : World) (t : Q) : World :=
  mkWorld t (cache w) (cache_writable w) (last_request_time w) (net w)
    (calls w) (browser w).
Definition set_cache (w : World) (c : gmap string CacheFile) : World :=
  mkWorld (clock w) c (cache_writable w) (last_request_time w) (net w)
    (calls w) (browser w).
Definition set_last_request_time (w : World) (t : gmap string Q) : World :=
  mkWorld (clock w) (cache w) (cache_writable w) t (net w)
    (calls w) (browser w).
Definition set_calls (w : World) (n : nat) : World :=
  mkWorld (clock w) (cache w) (cache_writable w) (last_request_time w) (net w)
    n (browser w).

Definition Qltb (a b : Q) : bool := negb (Qle_bool b a).
Definition qmax (a b : Q) : Q := if Qle_bool a b then b else a.
Definition qmin (a b : Q) : Q := if Qle_bool a b then a else b.

Section Fetch.
Context {P : Platform}.

(** [time.time()] *)
Definition time_time : M World Q := fun w => (Ok (clock w), w).

(** [time.sleep(d)] *)
Definition sleep (d : Q) : M World unit :=
  modify (fun w => set_clock w (clock w + d)).

Definition _get_cache_path (url : str) (cache_key_suffix : string) : M World string :=
  now <- time_time;
  ret (utc_date_key now +:+ "_" +:+ md5_hex16 url +:+ cache_key_suffix +:+ ".cache").

(** [_read_cache]: a missing file, a file older than the TTL and a file
    that fails to read all give [None]. *)
Definition _read_cache (cache_path : string) (ttl_seconds : Z) : M World (option str) :=
  w <- get;
  match cache w !! cache_path with
  | None => ret None
  | Some f =>
      now <- time_time;
      let age := now - mtime f in
      if Qltb (inject_Z ttl_seconds) age then ret None
      else ret (content f)
  end.

(** [_write_cache]: a failed write is swallowed. *)
Definition _write_cache (cache_path : string) (c : str) : M World unit :=
  modify (fun w =>
    if cache_writable w
    then set_cache w (<[cache_path := mkCacheFile (clock w) (Some c)]> (cache w))
    else w).

Definition _rate_limit (url : str) : M World unit :=
  let host := netloc url in
  now <- time_time;
  w <- get;
  let last := default 0 (last_request_time w !! host) in
  let elapsed := now - last in
  (if Qltb elapsed RATE_LIMIT_DELAY then sleep (RATE_LIMIT_DELAY - elapsed)
   else ret tt) ;;
  t <- time_time;
  modify (fun w => set_last_request_time w (<[host := t]> (last_request_time w))).

(** [requests.get(url, ...)]: one transport call. *)
Definition requests_get (url : str) : M World Response :=
  fun w =>
    let w' := set_calls w (S (calls w)) in
    match net w (calls w) url with
    | Responds st tx js => (Ok (mkResponse st tx js), w')
    | Fails msg => (Raise (mkExn RequestException msg), w')
    end.

(** The function under the [@retry] decorator. *)
Definition fetch_once (url : str) : M World Response :=
  response <- requests_get url;
  if ((500 <=? status response) && (status response <? 600))%Z
  then raise (mkExn RequestException
                (py "Server error: " ++ py (pretty (status response))))
  else ret response.

(** [wait_exponential(multiplier, min=1, max=30)] after attempt [n]. *)
Definition backoff (attempt_number : nat) : Q :=
  let w := RETRY_BACKOFF_BASE * inject_Z (2 ^ Z.of_nat (attempt_number - 1)) in
  qmax 1 (qmin w 30).

(** The [tenacity] loop: call; on an exception of the retried class, stop
    and re-raise once [attempt_number] has reached the bound, else wait and
    call again.  [remaining] counts the attempts still allowed. *)
Fixpoint retrying {A} (remaining attempt_number : nat) (fn : M World A) : M World A :=
  try_except fn is_RequestException (fun e =>
    match remaining with
    | O => raise e
    | S r => sleep (backoff attempt_number) ;; retrying r (S attempt_number) fn
    end).

Definition _fetch_with_retry (url : str) : M World Response :=
  retrying (MAX_RETRIES - 1) 1 (fetch_once url).

(** [response.raise_for_status()] *)
Definition raise_for_status (r : Response) : M World unit :=
  if ((400 <=? status r) && (status r <? 600))%Z
  then raise (mkExn HTTPError (py (pretty (status r)) ++ py " Error"))
  else ret tt.

Definition fetch_error (prefix : string) (url : str) (e : exn) : exn :=
  mkExn FetchError (py prefix ++ url ++ py ": " ++ exn_str e).

Definition fetch (url : str) (ttl_seconds : Z) (cache_key_suffix : string)
    (use_cache : bool) : M World str :=
  cache_path <- _get_cache_path url cache_key_suffix;
  cached <- (if use_cache then _read_cache cache_path ttl_seconds else ret None);
  match cached with
  | Some c => ret c
  | None =>
      _rate_limit url ;;
      try_except
        (response <- _fetch_with_retry url;
         raise_for_status response ;;
         let c := response_text response in
         (if use_cache then _write_cache cache_path c else ret tt) ;;
         ret c)
        is_RequestException
        (fun e => raise (fetch_error "Failed to fetch " url e))
  end.

Definition fetch_json (url : str) (ttl_seconds : Z) : M World json :=
  cache_path <- _get_cache_path url "_json";
  cached <- _read_cache cache_path ttl_seconds;
  match cached ≫= json_loads with
  | Some data => ret data
  | None =>
      _rate_limit url ;;
      try_except
        (try_except
           (response <- _fetch_with_retry url;
            raise_for_status response ;;
            match response_json response with
            | None => raise (mkExn JSONDecodeError (py "Expecting value"))
            | Some data =>
                _write_cache cache_path (json_dumps data) ;;
                ret data
            end)
           is_RequestException
           (fun e => raise (fetch_error "Failed to fetch " url e)))
        is_JSONDecodeError
        (fun e => raise (fetch_error "Invalid JSON from " url e))
  end.

Definition fetch_headless (url : str) (ttl_seconds : Z)
    (cache_key_suffix : string) (use_cache : bool) : M World str :=
  if negb HAS_PLAYWRIGHT
  then raise (mkExn FetchError
                (py "Playwright not installed - cannot fetch JavaScript-rendered pages"))
  else
    cache_path <- _get_cache_path url cache_key_suffix;
    cached <- (if use_cache then _read_cache cache_path ttl_seconds else ret None);
    match cached with
    | Some c => ret c
    | None =>
        _rate_limit url ;;
        w <- get;
        match browser w url with
        | None =>
            raise (fetch_error "Headless fetch failed for " url
                     (mkExn OtherException (py "browser error")))
        | Some c =>
            (if use_cache then _write_cache cache_path c else ret tt) ;;
            ret c
        end
    end.

End Fetch.

End Http.

(** ** Weather enrichment ([weather/nws.py]) *)

Module Nws.
Import Py Re Json Models Exc Dyn Http.
Local Open Scope string_scope.
Local Open Scope list_scope.
Local Open Scope Q_scope.
Local Open Scope prog_scope.

(** [(\d+)\s*(?:to\s*(\d+))?\s*mph] under [re.IGNORECASE] *)
Definition speed_pattern : re :=
  seqs [Group 1 (Plus digit); Star space;
        Opt (seqs [lit_i "to"; Star space; Group 2 (Plus digit)]);
        Star space; lit_i "mph"].

(** [gust], optionally [ing] or [s], white space, optionally [to] and
    white space, digits as group 1, white space, [mph]; under
    [re.IGNORECASE]. *)
Definition gust_pattern : re :=
  seqs [lit_i "gust"; Opt (Alt (lit_i "ing") (lit_i "s")); Star space;
        Opt (Seq (lit_i "to") (Star space)); Group 1 (Plus digit);
        Star space; lit_i "mph"].

Definition float_of_digits (s : str) : Q := inject_Z (int_of_digits s).

(** [_parse_wind] on the text of a wind string. *)
Definition parse_wind_text (wind_str : str) : option Q * option Q :=
  let wind_mph :=
    match search speed_pattern wind_str with
    | Some m =>
        match group m 2 with
        | Some (c :: hi) => Some (float_of_digits (c :: hi))
        | _ => float_of_digits <$> group m 1
        end
    | None => None
    end in
  let wind_gust_mph :=
    match search gust_pattern wind_str with
    | Some m => float_of_digits <$> group m 1
    | None => None
    end in
  (wind_mph, wind_gust_mph).

(** [_parse_wind]: a falsy argument gives [(None, None)]; [re.search]
    raises [TypeError] on a truthy value that is not a string. *)
Definition _parse_wind (wind_str : json) : result (option Q * option Q) :=
  if negb (truthy wind_str) then Ok (None, None)
  else match wind_str with
       | JStr s => Ok (parse_wind_text s)
       | _ => Raise (mkExn TypeError (py "expected string or bytes-like object"))
       end.

(** The local variables of [fetch_weather] that are assigned inside its
    [try] block and read after it. *)
Record Locals := mkLocals { forecast_url : json; weather : Weather }.

Abbreviation LW := (Locals * World)%type.

Definition set_forecast_url (v : json) : M LW unit :=
  assign (fun l => mkLocals v (weather l)).
Definition set_weather (f : Weather -> Weather) : M LW unit :=
  assign (fun l => mkLocals (forecast_url l) (f (weather l))).

(** [temp * 9 / 5 + 32] *)
Definition to_fahrenheit (temp : json) : result json :=
  match to_number temp with
  | Some q => Ok (JFloat (Qred (q * 9 / 5 + 32)))
  | None => Raise (mkExn TypeError (py "unsupported operand type(s)"))
  end.

Section Weather.
Context {P : Platform}.

(** [float(temp)] for a value that is not [None]. *)
Definition py_float (temp : json) : result Q :=
  match temp with
  | JStr s =>
      match float_of_str s with
      | Some q => Ok q
      | None => Raise (mkExn ValueError (py "could not convert string to float"))
      end
  | _ =>
      match to_number temp with
      | Some q => Ok q
      | None => Raise (mkExn TypeError (py "float() argument must be a string or a real number"))
      end
  end.

(** The value a URL variable holds when it is returned: [None] or a
    string. *)
Definition as_url (v : json) : option str :=
  match v with JStr u => Some u | _ => None end.

(** The statements of the [try] block that read the first period. *)
Definition read_current (current : json) : M LW unit :=
  temp <- lift (get_or current "temperature" JNull);
  temp_unit <- lift (get_or current "temperatureUnit" (JStr (py "F")));
  match temp with
  | JNull => ret tt
  | _ =>
      t <- lift (if eq_str temp_unit "C" then to_fahrenheit temp else Ok temp);
      f <- lift (py_float t);
      set_weather (fun w => mkWeather (Some f) (wind_mph w) (wind_gust_mph w)
                              (short_forecast w) (forecast_period_name w))
  end ;;
  wind_speed <- lift (get_or current "windSpeed" JNull);
  wind <- lift (_parse_wind wind_speed);
  set_weather (fun w => mkWeather (temp_f w) (fst wind) (snd wind)
                          (short_forecast w) (forecast_period_name w)) ;;
  sf <- lift (get_or current "shortForecast" JNull);
  set_weather (fun w => mkWeather (temp_f w) (wind_mph w) (wind_gust_mph w)
                          sf (forecast_period_name w)) ;;
  nm <- lift (get_or current "name" JNull);
  set_weather (fun w => mkWeather (temp_f w) (wind_mph w) (wind_gust_mph w)
                          (short_forecast w) nm).

(** The [try] block of [fetch_weather].  [Some r] is a [return r] inside
    the block; [None] is its normal end. *)
Definition weather_steps (lat lon : Q) (points_url : str)
  : M LW (option (Weather * str * option str)) :=
  points_data <- zoom (fetch_json points_url NWS_CACHE_TTL);
  properties <- lift (get_or points_data "properties" (JObj []));
  fu <- lift (get_or properties "forecast" JNull);
  set_forecast_url fu ;;
  if negb (truthy fu) then
    l <- locals; ret (Some (weather l, points_url, @None str))
  else
    u <- lift (match fu with
               | JStr u => Ok u
               | _ => Raise (mkExn AttributeError (py "object has no attribute 'encode'"))
               end);
    forecast_data <- zoom (fetch_json u NWS_CACHE_TTL);
    props <- lift (get_or forecast_data "properties" (JObj []));
    periods <- lift (get_or props "periods" (JArr []));
    if negb (truthy periods) then
      l <- locals; ret (Some (weather l, points_url, as_url (forecast_url l)))
    else
      current <- lift (subscript0 periods);
      read_current current ;;
      ret None.

Definition fetch_weather (lat lon : Q) : M World (Weather * str * option str) :=
  let points_url := points_url_of lat lon in
  with_locals (mkLocals JNull Weather_default)
    (r <- try_except (weather_steps lat lon points_url) is_FetchError
            (fun e => ret None);
     match r with
     | Some early => ret early
     | None =>
         l <- locals;
         ret (weather l, points_url, as_url (forecast_url l))
     end).

End Weather.

End Nws.

(** ** Last-known-good records ([output.py]) *)

Module Output.
Import Models Exc Http.
Local Open Scope prog_scope.

(** The files of [RESORTS_OUTPUT_DIR], by slug: the record a file loads
    to, or [None] for a file that does not load. *)
Abbreviation Store := (gmap string (option ResortConditions)).

(** The orchestrator's state: the published files next to the world of
    the fetch layer, which cannot see them. *)
Abbreviation Site := (Store * World)%type.

(** [load_existing_resort]: [None] when the file is missing and when it
    does not load. *)
Definition load_existing_resort (slug : string) : M Site (option ResortConditions) :=
  published <- locals;
  ret (mjoin (published !! slug)).

(** [write_resort] for each record, in order. *)
Definition write_all_outputs (resorts : list ResortConditions) : M Site unit :=
  assign (fun published =>
    fold_left (fun m r => <[slug r := Some r]> m) resorts published).

End Output.

(** ** The orchestrator ([main.py]) *)

Module Main.
Import Py Json Models Exc Adapters Http Nws Output.
Local Open Scope string_scope.
Local Open Scope list_scope.
Local Open Scope prog_scope.

(** The local variables of [process_resort] assigned inside its [try]
    block. *)
Record Vars := mkVars { v_stale : bool; v_ops : Operations; v_snow : Snow }.

Definition set_stale (b : bool) : M (Vars * Site) unit :=
  assign (fun v => mkVars b (v_ops v) (v_snow v)).
Definition set_facts (o : Operations) (s : Snow) : M (Vars * Site) unit :=
  assign (fun v => mkVars (v_stale v) o s).

Section Orchestrator.
Context {P : Platform} {L : PageLib}.

(** The last-known-good step shared by the parse-failure branch and the
    [except FetchError] clause. *)
Definition use_last_known_good (slug : string) : M (Vars * Site) unit :=
  existing <- zoom (load_existing_resort slug);
  match existing with
  | Some e => set_facts (Models.ops e) (Models.snow e)
  | None => ret tt
  end.

(** The [try] block of [process_resort]. *)
Definition acquire (resort_config : ResortConfig) : M (Vars * Site) unit :=
  let slug := cfg_slug resort_config in
  html <- (if requires_headless (cfg_kind resort_config) then
             if negb HAS_PLAYWRIGHT then
               set_stale true ;; ret (@None str)
             else
               h <- zoom (zoom (fetch_headless (cfg_source_url resort_config)
                                  CONDITIONS_CACHE_TTL "_headless" true));
               ret (Some h)
           else
             h <- zoom (zoom (fetch (cfg_source_url resort_config)
                                CONDITIONS_CACHE_TTL "" true));
             ret (Some h));
  result <- match html with
            | None => ret None
            | Some h =>
                r <- lift (parse (get_adapter (cfg_kind resort_config)) h);
                ret (Some r)
            end;
  match result with
  | Some r =>
      if success r then set_facts (Adapters.ops r) (Adapters.snow r)
      else set_stale true ;; use_last_known_good slug
  | None => ret tt
  end.

Definition process_resort (resort_config : ResortConfig) : M Site ResortConditions :=
  let slug := cfg_slug resort_config in
  now <- zoom time_time;
  with_locals (mkVars false Operations_default Snow_default)
    (try_except (acquire resort_config) is_FetchError
       (fun e => set_stale true ;; use_last_known_good slug) ;;
     wx <- zoom (zoom (fetch_weather (cfg_lat resort_config) (cfg_lon resort_config)));
     v <- locals;
     ret (mkResortConditions slug (cfg_name resort_config) now (v_stale v)
            (mkSources (cfg_source_url resort_config) (Some (snd (fst wx))) (snd wx))
            (v_ops v) (v_snow v) (fst (fst wx)))).

(** The entry [update_command] appends when [process_resort] raises. *)
Definition stale_entry (config : ResortConfig) (now : Q) : ResortConditions :=
  mkResortConditions (cfg_slug config) (cfg_name config) now true
    (mkSources (cfg_source_url config) None None)
    Operations_default Snow_default Weather_default.

(** One turn of the loop of [update_command]. *)
Definition process_or_stale (config : ResortConfig) : M Site ResortConditions :=
  try_except (process_resort config) is_Exception
    (fun e => now <- zoom time_time; ret (stale_entry config now)).

(** The loop of [update_command]: [results], in the order of the
    configuration. *)
Fixpoint process_all (resorts_config : list ResortConfig) : M Site (list ResortConditions) :=
  match resorts_config with
  | [] => ret []
  | config :: rest =>
      conditions <- process_or_stale config;
      results <- process_all rest;
      ret (conditions :: results)
  end.

(** [update_command], given the enabled resorts of the registry: the exit
    code and the records handed to [write_all_outputs]. *)
Definition update_command (resorts_config : list ResortConfig)
  : M Site (Z * list ResortConditions) :=
  match resorts_config with
  | [] => ret (1%Z, [])
  | _ =>
      results <- process_all resorts_config;
      write_all_outputs results ;;
      ret (0%Z, results)
  end.

End Orchestrator.

End Main.

(** ** The specification's vocabulary *)

Module Spec.
Import Py Json Models Exc Dyn Adapters Http Main.
Local Open Scope string_scope.
Local Open Scope Z_scope.

(** The cache key of a request issued in world [w]: date bucket, URL hash
    and suffix. *)
Definition cache_key `{Platform} (w : World) (url : str) (suffix : string) : string :=
  utc_date_key (clock w) +:+ "_" +:+ md5_hex16 url +:+ suffix +:+ ".cache".

(** The age of a cache file in world [w]. *)
Definition age (w : World) (f : CacheFile) : Q := (clock w - mtime f)%Q.

(** What a cache read under [key] delivers in world [w]. *)
Definition cache_read (w : World) (key : string) (ttl : Z) : option str :=
  match cache w !! key with
  | Some f => if Qltb (inject_Z ttl) (age w f) then None else content f
  | None => None
  end.

(** The components of the world that a fetch leaves alone, whatever
    happens: the network's behaviour, the browser and the writability of
    the cache directory. *)
Definition same_environment (w w' : World) : Prop :=
  net w' = net w /\ browser w' = browser w /\
  cache_writable w' = cache_writable w.

(** The transport's answer to call number [k] for [url] is a response with
    a status in the given range. *)
Definition answers (w : World) (k : nat) (url : str) (lo hi : Z) : Prop :=
  exists st tx js, net w k url = Responds st tx js /\ lo <= st < hi.

(** An outcome is coherent when it carries an error description exactly
    when it is not a success. *)
Definition coherent (r : ParseResult) : Prop :=
  known (error r) = negb (success r).

(** The derived-field policy in the specification's words: an explicit
    phrase decides; else the open-lift count, when known; else the
    open-trail count, when known; else unknown. *)
Definition priority_order (phrase : option bool) (lifts trails : option Z)
  : option bool :=
  match phrase with
  | Some b => Some b
  | None =>
      match lifts with
      | Some n => Some (0 <? n)
      | None =>
          match trails with
          | Some n => Some (0 <? n)
          | None => None
          end
      end
  end.

(** What an explicit phrase says: closed wins over open. *)
Definition phrase_of (closed opened : bool) : option bool :=
  if closed then Some false else if opened then Some true else None.

(** The rule of the adapters that count scheduled lifts and trails as
    activity. *)
Definition activity_rule (lifts_active trails_active : Z) (lifts_known : bool)
  : option bool :=
  if 0 <? lifts_active then Some true
  else if 0 <? trails_active then Some true
  else if lifts_known then Some false
  else None.

(** The order each adapter follows, on the lower-cased page text and the
    counts it has found. *)
Definition open_flag_rule (a : AdapterClass) (tl : str) (o : Operations)
  : option bool :=
  match a with
  | GenericHTMLAdapter =>
      priority_order
        (phrase_of (has "resort closed" tl || has "mountain closed" tl)
                   (has "resort open" tl || has "mountain open" tl))
        (lifts_open o) None
  | BorealAdapter =>
      priority_order
        (phrase_of (has "closed for season" tl || has "not operating" tl) false)
        (lifts_open o) (trails_open o)
  | TahoeDonnerAdapter =>
      priority_order (phrase_of (has "closed" tl && has "season" tl) false)
        (lifts_open o) (trails_open o)
  | PalisadesAdapter | HomewoodAdapter =>
      priority_order None (lifts_open o) (trails_open o)
  | DiamondPeakAdapter =>
      match lifts_open o with
      | Some n => Some (0 <? n)
      | None =>
          phrase_of (has "mountain closed" tl || has "closed for season" tl)
                    (has "open" tl)
      end
  | MtRoseAdapter | SierraAtTahoeAdapter => Some (lifts_running o)
  | SugarBowlAdapter =>
      if has "mountain status open" tl then Some true
      else activity_rule (or0 (lifts_open o) + or0 (lifts_scheduled o)) 0
             (known (lifts_open o) || known (lifts_scheduled o))
  | VailResortsAdapter =>
      activity_rule (or0 (lifts_open o) + or0 (lifts_scheduled o))
        (or0 (trails_open o) + or0 (trails_scheduled o))
        (known (lifts_open o) || known (lifts_scheduled o))
  | PlaceholderHeadlessAdapter => None
  end.

(** *** Weather documents of the expected shape

    A document is a JSON object; its [properties], when present, is an
    object; [forecast], when present, is a string or a falsy value;
    [periods], when present, is falsy or a list whose first entry is an
    object; in that entry [temperature], when present, is a number or
    null, and [windSpeed], when present, is a string or a falsy value. *)

Definition field_ok (f : list (str * json)) (key : string) (ok : json -> bool) : bool :=
  match obj_get f (py key) with
  | Some v => ok v
  | None => true
  end.

Definition string_or_falsy (v : json) : bool :=
  negb (truthy v) || match v with JStr _ => true | _ => false end.

Definition number_or_null (v : json) : bool :=
  match v with
  | JNull | JInt _ | JFloat _ | JBool _ => true
  | _ => false
  end.

Definition period_ok (c : json) : bool :=
  match c with
  | JObj f => field_ok f "temperature" number_or_null
              && field_ok f "windSpeed" string_or_falsy
  | _ => false
  end.

Definition periods_ok (v : json) : bool :=
  negb (truthy v) ||
  match v with
  | JArr (c :: _) => period_ok c
  | _ => false
  end.

Definition properties_ok (v : json) : bool :=
  match v with
  | JObj f => field_ok f "forecast" string_or_falsy
              && field_ok f "periods" periods_ok
  | _ => false
  end.

Definition document_ok (d : json) : bool :=
  match d with
  | JObj f => field_ok f "properties" properties_ok
  | _ => false
  end.

(** The forecast URL a points document resolves to, if any. *)
Definition forecast_link (d : json) : option str :=
  match d with
  | JObj f =>
      match default (JObj []) (obj_get f (py "properties")) with
      | JObj g =>
          match default JNull (obj_get g (py "forecast")) with
          | JStr (c :: u) => Some (c :: u)
          | _ => None
          end
      | _ => None
      end
  | _ => None
  end.

(** Every JSON document the network or the cache of [w] can deliver has
    the expected shape. *)
Definition delivers_ok `{Platform} (w : World) : Prop :=
  (forall k url st tx d,
     net w k url = Responds st tx (Some d) -> document_ok d = true) /\
  (forall key f c d,
     cache w !! key = Some f -> content f = Some c ->
     json_loads c = Some d -> document_ok d = true).

(** Decoding what [json.dumps] wrote keeps the expected shape. *)
Definition dumps_ok `{Platform} : Prop :=
  forall d d', document_ok d = true ->
               json_loads (json_dumps d) = Some d' -> document_ok d' = true.

(** *** The orchestrator's fallback *)

(** The live fetch of a resort's page: rendered for the kinds that need
    it, plain otherwise. *)
Definition live_fetch `{Platform} (cfg : ResortConfig) : M World str :=
  if requires_headless (cfg_kind cfg)
  then fetch_headless (cfg_source_url cfg) CONDITIONS_CACHE_TTL "_headless" true
  else fetch (cfg_source_url cfg) CONDITIONS_CACHE_TTL "" true.

(** The resort needs rendering and the rendering engine is not there. *)
Definition engine_missing `{Platform} (cfg : ResortConfig) : bool :=
  requires_headless (cfg_kind cfg) && negb HAS_PLAYWRIGHT.

(** The previously published record of a resort, if one loads. *)
Definition last_known_good (published : Output.Store) (slug : string)
  : option ResortConditions :=
  mjoin (published !! slug).

(** A record with every operations and snow fact unknown. *)
Definition facts_unknown (rec : ResortConditions) : Prop :=
  Models.ops rec = Operations_default /\ Models.snow rec = Snow_default.

(** A stale record that carries the facts of the previous record, or
    unknown facts when there is none. *)
Definition carried_forward (previous : option ResortConditions)
    (rec : ResortConditions) : Prop :=
  stale rec = true /\
  match previous with
  | Some e => Models.ops rec = Models.ops e /\ Models.snow rec = Models.snow e
  | None => facts_unknown rec
  end.

(** The network phase of [fetch], entered after a cache miss. *)
Definition network_phase `{Platform} (url : str) (key : string) (use_cache : bool)
  : M World str :=
  try_except
    (bind (_fetch_with_retry url) (fun response =>
     bind (raise_for_status response) (fun _ =>
     bind (if use_cache then _write_cache key (response_text response) else ret tt)
       (fun _ => ret (response_text response)))))
    is_RequestException
    (fun e => raise (fetch_error "Failed to fetch " url e)).

(** The record [process_resort] assembles from its local variables and
    the weather. *)
Definition assemble (cfg : ResortConfig) (now : Q) (v : Vars)
    (wx : Weather * str * option str) : ResortConditions :=
  mkResortConditions (cfg_slug cfg) (cfg_name cfg) now (v_stale v)
    (mkSources (cfg_source_url cfg) (Some (snd (fst wx))) (snd wx))
    (v_ops v) (v_snow v) (fst (fst wx)).

(** The value of the local variables after the last-known-good step. *)
Definition after_fallback (published : Output.Store) (slug : string) (v : Vars) : Vars :=
  match last_known_good published slug with
  | Some e => mkVars true (Models.ops e) (Models.snow e)
  | None => mkVars true (v_ops v) (v_snow v)
  end.

(** What the guarded block of [process_resort] leaves in the local
    variables, by the outcome of the live fetch and of the parse. *)
Definition after_acquire `{Platform} `{PageLib} (cfg : ResortConfig)
    (published : Output.Store)
    (outcome : result str) (v : Vars) : Vars :=
  if engine_missing cfg then mkVars true (v_ops v) (v_snow v)
  else
    match outcome with
    | Raise _ => after_fallback published (cfg_slug cfg) v
    | Ok html =>
        match parse (get_adapter (cfg_kind cfg)) html with
        | Ok r =>
            if success r then mkVars (v_stale v) (Adapters.ops r) (Adapters.snow r)
            else after_fallback published (cfg_slug cfg) v
        | Raise _ => v
        end
    end.

(** The status the Vail Resorts adapter reads off one lift entry. *)
Definition lift_status_of (lift : json) : result LiftStatus :=
  rbind (get_or lift "Status" (JInt 0)) (fun s => Ok (lift_status s)).

Definition is_status (st st' : LiftStatus) : bool :=
  match st, st' with
  | StOpen, StOpen | StScheduled, StScheduled
  | StHold, StHold | StClosed, StClosed => true
  | _, _ => false
  end.

(** How many entries of a list of statuses are [st]. *)
Definition how_many (st : LiftStatus) (l : list LiftStatus) : Z :=
  Z.of_nat (length (filter (fun x => is_status st x = true) l)).

End Spec.

(** ** Sample pages and worlds *)

Module Samples.
Import Py Json Models Exc Dyn Adapters Http.
Local Open Scope string_scope.
Local Open Scope Z_scope.

(** A platform without the rendering engine. *)
Definition sample_platform : Platform :=
  {| HAS_PLAYWRIGHT := false;
     md5_hex16 := fun _ => "0123456789abcdef";
     utc_date_key := fun _ => "20260101";
     netloc := fun _ => "resort.example";
     json_loads := fun _ => None;
     json_dumps := fun _ => [];
     points_url_of := fun _ _ => py "https://api.weather.gov/points/39.1,-120.1";
     float_of_str := fun _ => None |}.

Definition sample_url : str := py "https://resort.example/conditions".
Definition sample_key : string := "20260101_0123456789abcdef.cache".

(** A world at time 1000 with the given cache and network. *)
Definition world_with (c : gmap string CacheFile) (n : nat -> str -> Transport)
  : World :=
  mkWorld 1000%Q c true ∅ n 0 (fun _ => None).

(** A server that answers 503 twice and then 200. *)
Definition flaky_world : World :=
  world_with ∅ (fun k _ => if (k <? 2)%nat then Responds 503 [] None
                           else Responds 200 (py "<p>Resort Open</p>") None).

(** A server that always answers 403. *)
Definition forbidden_world : World :=
  world_with ∅ (fun _ _ => Responds 403 (py "Forbidden") None).

(** A cache entry written 60 seconds ago, and one written 1000 seconds
    ago, in front of a server that answers 200. *)
Definition recent_file : CacheFile := mkCacheFile 940%Q (Some (py "<p>cached</p>")).
Definition old_file : CacheFile := mkCacheFile 0%Q (Some (py "<p>old</p>")).

Definition ok_net : nat -> str -> Transport :=
  fun _ _ => Responds 200 (py "<p>fresh</p>") None.

(** The two weather documents of a resort: the points lookup and the
    forecast. *)
Definition points_doc : json :=
  JObj [(py "properties",
         JObj [(py "forecast", JStr (py "https://api.weather.gov/gridpoints/REV/1,2/forecast"))])].

Definition forecast_doc : json :=
  JObj [(py "properties",
         JObj [(py "periods",
                JArr [JObj [(py "name", JStr (py "Tonight"));
                            (py "temperature", JInt 20);
                            (py "temperatureUnit", JStr (py "C"));
                            (py "windSpeed", JStr (py "10 to 20 mph"));
                            (py "shortForecast", JStr (py "Snow"))]])])].

(** A weather service that answers the first call with the points
    document and later calls with the forecast. *)
Definition weather_net : nat -> str -> Transport :=
  fun k _ => Responds 200 [] (Some (if (k <? 1)%nat then points_doc else forecast_doc)).

Definition weather_world : World := world_with ∅ weather_net.

(** A weather service whose points document has [null] for
    [properties]. *)
Definition null_properties_doc : json := JObj [(py "properties", JNull)].

Definition null_properties_world : World :=
  world_with ∅ (fun _ _ => Responds 200 [] (Some null_properties_doc)).

Definition sample_lat : Q := 391 # 10.
Definition sample_lon : Q := - (1201 # 10).

(** Two configured resorts: one that needs rendering, one that does
    not. *)
Definition boreal_config : ResortConfig :=
  mkResortConfig "boreal" "Boreal" "boreal"
    (py "https://www.rideboreal.com/conditions") sample_lat sample_lon true.

Definition heavenly_config : ResortConfig :=
  mkResortConfig "heavenly" "Heavenly" "vail_resorts"
    (py "https://www.skiheavenly.com/terrain-and-lift-status.aspx")
    sample_lat sample_lon true.

(** The record published for a resort by the previous run: five lifts of
    eight open, six inches of new snow. *)
Definition previous_record (slug : string) : ResortConditions :=
  mkResortConditions slug slug 500%Q false
    (mkSources sample_url None None)
    (mkOperations (Some true) (Some 5) None (Some 8) (Some 20) None (Some 30))
    (mkSnow (Some 6%Q) None (Some 48%Q) None None None)
    Weather_default.

Definition sample_store : gmap string (option ResortConditions) :=
  {[ "boreal" := Some (previous_record "boreal");
     "heavenly" := Some (previous_record "heavenly") ]}.

Definition cached_world : World := world_with {[ sample_key := recent_file ]} ok_net.
Definition expired_world : World := world_with {[ sample_key := old_file ]} ok_net.

(** The en dash, U+2013. *)
Definition en_dash : char := 8211%N.

(** A page that reports open trails and new snow, and nothing on lifts. *)
Definition trails_only_text : str :=
  (py "20/50 Trails Open 6" ++ [34%N] ++ py " in last 24 hours")%list.

(** The page text of the generic adapter's test in [test_parsing.py]. *)
Definition generic_test_text : str :=
  (py "5/10 Lifts Open" ++ [10%N] ++ py "20/50 Trails Open" ++ [10%N]
   ++ py "6" ++ [34%N] ++ py " in last 24 hours" ++ [10%N]
   ++ py "Base: 48" ++ [34%N; 10%N])%list.

(** A Mt Rose page whose lift-status section reads [Wizard Scheduled], as
    for the markup below. *)
Definition wizard_scheduled_html : str :=
  py "<div class='lift-status'>Wizard Scheduled</div>".

Definition wizard_scheduled_page : Page :=
  mkPage (py "Wizard Scheduled") (py "Wizard Scheduled") None
    Operations_default Snow_default.

(** A Vail page whose embedded terrain object lists three lifts: one
    scheduled, one open, one closed. *)
Definition three_lifts : list json :=
  [JObj [(py "Name", JStr (py "Gondola")); (py "Status", JInt 3)];
   JObj [(py "Name", JStr (py "Comet")); (py "Status", JStr (py "Open"))];
   JObj [(py "Name", JStr (py "Dipper"))]].

Definition three_lifts_terrain : list (str * json) :=
  [(py "Lifts", JArr three_lifts)].

Definition three_lifts_page : Page :=
  mkPage (py "Terrain status") [] (Some three_lifts_terrain)
    Operations_default Snow_default.

(** A Sugar Bowl page with three lift entries, the status on the line
    after the name. *)
Definition sugar_bowl_lines : str :=
  (py "Gondola" ++ [10%N] ++ py "Scheduled" ++ [10%N] ++
   py "Nob Hill" ++ [10%N] ++ py "Open" ++ [10%N] ++
   py "White Pine" ++ [10%N] ++ py "Closed")%list.

Definition sugar_bowl_page : Page :=
  mkPage (py "Gondola Scheduled Nob Hill Open White Pine Closed")
    sugar_bowl_lines None Operations_default Snow_default.

(** A page library that answers with the sample pages. *)
Definition sample_lib : PageLib :=
  {| extract := fun a html =>
       match a with
       | MtRoseAdapter => Ok wizard_scheduled_page
       | SugarBowlAdapter => Ok sugar_bowl_page
       | VailResortsAdapter => Ok three_lifts_page
       | _ => Ok (mkPage html html None Operations_default Snow_default)
       end |}.

End Samples.

(** ** Further definitions: scanning, utilities, fixtures *)

Module Scan.
Import Py Re.

(** What [Star (Chr p)] amounts to: the longest run of characters of the
    class first, then shorter ones. *)
Fixpoint greedy (p : char -> bool) (k : K) (s : str) (c : caps)
  : option (caps * str) :=
  match s with
  | x :: s' =>
      if p x then
        match greedy p k s' c with
        | Some r => Some r
        | None => k s c
        end
      else k s c
  | [] => k s c
  end.

(** The text does not go on with a character of the class. *)
Definition stops (p : char -> bool) (rest : str) : Prop :=
  match rest with
  | x :: _ => p x = false
  | [] => True
  end.

(** The patterns every match of which begins with a character of the
    class [p]. *)
Inductive begins (p : char -> bool) : re -> Prop :=
| begins_chr : begins p (Chr p)
| begins_seq a b : begins p a -> begins p (Seq a b)
| begins_alt a b : begins p a -> begins p b -> begins p (Alt a b)
| begins_group i a : begins p a -> begins p (Group i a).

(** No character of the text is of the class [p]. *)
Definition free_of (p : char -> bool) (s : str) : bool :=
  forallb (fun c => negb (p c)) s.

(** The characters that go on a number: a digit or the decimal point. *)
Definition in_number (c : char) : bool := is_digit c || (46 =? c).

(** The letter g, in either case. *)
Definition is_g (c : char) : bool := lower_char c =? lower_char 103.

(** A word of [str.split]: not empty, and free of white space. *)
Definition word_ok (w : str) : Prop :=
  w <> [] /\ forallb (fun c => negb (is_space c)) w = true.

End Scan.

Module Fraction.
Import Py Re.

(** The patterns of [parse_fraction], searched under [re.IGNORECASE]. *)
Definition fraction_patterns : list re :=
  [seqs [Group 1 (Plus digit); Star space; one 47; Star space; Group 2 (Plus digit)];
   seqs [Group 1 (Plus digit); Plus space; lit_i "of"; Plus space;
         Group 2 (Plus digit)];
   seqs [Group 1 (Plus digit); Plus space; lit_i "out"; Plus space; lit_i "of";
         Plus space; Group 2 (Plus digit)]].

Fixpoint first_fraction (patterns : list re) (text : str) : option Z * option Z :=
  match patterns with
  | [] => (None, None)
  | r :: rest =>
      match search r text with
      | Some m => (int_of_digits <$> group m 1, int_of_digits <$> group m 2)
      | None => first_fraction rest text
      end
  end.

(** [BaseAdapter.parse_fraction] *)
Definition parse_fraction (text : option str) : option Z * option Z :=
  match text with
  | None | Some [] => (None, None)
  | Some t => first_fraction fraction_patterns (strip t)
  end.

End Fraction.

Module Waits.
Import Py Json Models Exc Http.
Local Open Scope Q_scope.

(** The time the retry loop sleeps when every attempt fails: the
    back-off after each attempt but the last. *)
Fixpoint waits (remaining attempt_number : nat) : Q :=
  match remaining with
  | O => 0
  | S r => backoff attempt_number + waits r (S attempt_number)
  end.

(** The transport fails call number [k] for [url]: a response in 5xx, or
    no response. *)
Definition fails_at (w : World) (k : nat) (url : str) : Prop :=
  match net w k url with
  | Responds st _ _ => (500 <= st < 600)%Z
  | Fails _ => True
  end.

End Waits.

Module Fixtures.
Import Py Json Models Exc Dyn Adapters Http Samples.
Local Open Scope string_scope.

(** A server that always answers 503. *)
Definition down_world : World :=
  world_with ∅ (fun _ _ => Responds 503 [] None).

(** The cache key of the sample URL for [fetch_json]. *)
Definition sample_json_key : string := "20260101_0123456789abcdef_json.cache".

(** A fresh cache entry whose text does not decode, in front of a weather
    service. *)
Definition corrupt_cache_world : World :=
  world_with {[ sample_json_key := mkCacheFile 940%Q (Some (py "{not json")) ]}
    weather_net.

End Fixtures.

(** ** The summary ([summarize.py]) *)
Module Report.
Import Py Json Models Exc Http Summarize.
Local Open Scope string_scope.
Local Open Scope Z_scope.
Local Open Scope list_scope.
Local Open Scope prog_scope.

(** [SummaryCounts] and [Summary] of [models.py]. *)
Record SummaryCounts := mkSummaryCounts {
  open_resorts : Z;
  closed_resorts : Z;
  stale_resorts : Z }.

Record Summary := mkSummary {
  last_updated_utc : Q;
  counts : SummaryCounts;
  highlights : list str;
  blurbs : gmap string str }.

(** The library functions that turn times and floats into text, and the
    float arithmetic of the terrain percentage: [strftime] with the
    format of the stale blurb, the format specification [.0f], the true
    division of two integers (the divisor not 0) and the product of a
    float with 100. *)
Class Render := {
  strftime_minute : Q -> str;
  fixed0 : Q -> str;
  true_div : Z -> Z -> Q;
  times100 : Q -> Q }.

(** [str(n)] of an integer. *)
Definition str_of_int (n : Z) : str := py (pretty n).

(** [sep.join(items)] on strings. *)
Fixpoint join (sep : str) (items : list str) : str :=
  match items with
  | [] => []
  | [a] => a
  | a :: rest => a ++ sep ++ join sep rest
  end.

(** [sep.join(items)] on values one of which may not be a string:
    [TypeError] for such an item. *)
Fixpoint strings_of (items : list json) : result (list str) :=
  match items with
  | [] => Ok []
  | JStr s :: rest => rbind (strings_of rest) (fun l => Ok (s :: l))
  | _ :: _ => Raise (mkExn TypeError (py "sequence item: expected str instance"))
  end.

(** [parts[-1] += suffix] *)
Definition add_to_last (parts : list str) (suffix : str) : result (list str) :=
  match rev parts with
  | last :: front => Ok (rev front ++ [last ++ suffix])
  | [] => Raise (mkExn OtherException (py "list index out of range"))
  end.

(** [a / b] on integers. *)
Definition py_truediv `{Render} (a b : Z) : result Q :=
  if b =? 0 then Raise (mkExn OtherException (py "division by zero"))
  else Ok (true_div a b).

(** A value used as a number: [TypeError] on [None]. *)
Definition number {A} (x : option A) : result A :=
  match x with
  | Some q => Ok q
  | None => Raise (mkExn TypeError (py "unsupported operand type(s): 'NoneType'"))
  end.

(** [bool(x)] on an optional flag and on an optional count. *)
Definition flag_set (x : option bool) : bool := default false x.
Definition count_set (x : option Z) : bool :=
  match x with Some n => negb (n =? 0) | None => false end.

Section Blurb.
Context {R : Render}.

Definition generate_blurb (resort : ResortConditions) : result str :=
  if stale resort then
    Ok (py "Latest update unavailable; showing last known conditions from "
        ++ strftime_minute (fetched_at_utc resort) ++ py " UTC.")
  else
    let parts := [py (name resort) ++ py ":"] in
    let o := ops resort in
    let parts :=
      match lifts_total o with
      | Some t => parts ++ [str_of_int (lifts_available o) ++ py "/" ++ str_of_int t
                            ++ py " lifts"]
      | None => parts
      end in
    rbind (match trails_total o with
           | Some t => Ok (parts ++ [str_of_int (trails_available o) ++ py "/"
                                     ++ str_of_int t ++ py " trails."])
           | None =>
               match lifts_total o with
               | Some _ => add_to_last parts (py ".")
               | None => Ok parts
               end
           end) (fun parts =>
    let s := snow resort in
    let parts :=
      match new_snow_24h_in s with
      | Some x => parts ++ [py "New snow (24h): " ++ fixed0 x ++ [34%N; 46%N]]
      | None =>
          match base_depth_in s with
          | Some x => parts ++ [py "Base: " ++ fixed0 x ++ [34%N; 46%N]]
          | None => parts
          end
      end in
    let wth := weather resort in
    let weather_parts :=
      (if truthy (short_forecast wth) then [short_forecast wth] else [])
      ++ match temp_f wth with
         | Some t => [JStr (fixed0 t ++ [176%N; 70%N])]
         | None => []
         end
      ++ match wind_mph wth with
         | Some v => [JStr (py "wind " ++ fixed0 v ++ py " mph")]
         | None => []
         end in
    rbind (match weather_parts with
           | [] => Ok parts
           | _ =>
               rbind (strings_of weather_parts) (fun l =>
               Ok (parts ++ [py "Forecast: " ++ join (py ", ") l ++ py "."]))
           end) (fun parts =>
    Ok (join (py " ") parts))).

(** The resorts [compute_highlights] looks at: not stale, and open. *)
Definition is_active (r : ResortConditions) : bool :=
  negb (stale r) && flag_set (open_flag (ops r)).

Definition has_trails (r : ResortConditions) : bool :=
  count_set (trails_open (ops r)) && count_set (trails_total (ops r)).

Definition has_snow (r : ResortConditions) : bool :=
  match new_snow_24h_in (snow r) with
  | Some x => Qltb 0 x
  | None => false
  end.

Definition has_wind (r : ResortConditions) : bool := known (wind_mph (weather r)).
Definition has_temp (r : ResortConditions) : bool := known (temp_f (weather r)).

(** [r.ops.trails_open / r.ops.trails_total] *)
Definition trail_ratio (r : ResortConditions) : result Q :=
  rbind (number (trails_open (ops r))) (fun a =>
  rbind (number (trails_total (ops r))) (fun b =>
  py_truediv a b)).

(** [max(items, key=key)]: the first item whose key no other exceeds.
    [better k k'] says that key [k'] replaces key [k]. *)
Fixpoint best_from {A} (better : Q -> Q -> bool) (key : A -> result Q)
    (best : A) (kbest : Q) (items : list A) : result A :=
  match items with
  | [] => Ok best
  | x :: rest =>
      rbind (key x) (fun kx =>
      if better kbest kx then best_from better key x kx rest
      else best_from better key best kbest rest)
  end.

Definition best_of {A} (better : Q -> Q -> bool) (key : A -> result Q)
    (items : list A) : result A :=
  match items with
  | [] => Raise (mkExn ValueError (py "arg is an empty sequence"))
  | x :: rest => rbind (key x) (fun kx => best_from better key x kx rest)
  end.

Definition py_max {A} := @best_of A (fun k k' => Qltb k k').
Definition py_min {A} := @best_of A (fun k k' => Qltb k' k).

Definition terrain_highlight (with_trails : list ResortConditions)
  : result (list str) :=
  match with_trails with
  | [] => Ok []
  | _ =>
      rbind (py_max trail_ratio with_trails) (fun best_terrain =>
      rbind (trail_ratio best_terrain) (fun ratio =>
      let pct := times100 ratio in
      Ok [py "Most open terrain: " ++ py (name best_terrain) ++ py " ("
          ++ str_of_int (or0 (trails_open (ops best_terrain))) ++ py "/"
          ++ str_of_int (or0 (trails_total (ops best_terrain)))
          ++ py " trails, " ++ fixed0 pct ++ py "%)"]))
  end.

Definition snow_highlight (with_snow : list ResortConditions)
  : result (list str) :=
  match with_snow with
  | [] => Ok []
  | _ =>
      rbind (py_max (fun r => number (new_snow_24h_in (snow r))) with_snow)
        (fun most_snow =>
      rbind (number (new_snow_24h_in (snow most_snow))) (fun x =>
      Ok [py "Most new snow: " ++ py (name most_snow) ++ py " (" ++ fixed0 x
          ++ [34%N] ++ py " in 24h)"]))
  end.

Definition wind_highlight (with_wind : list ResortConditions)
  : result (list str) :=
  match with_wind with
  | [] => Ok []
  | _ =>
      rbind (py_max (fun r => number (wind_mph (weather r))) with_wind)
        (fun windiest =>
      rbind (number (wind_mph (weather windiest))) (fun v =>
      if Qle_bool 15 v
      then Ok [py "Windiest: " ++ py (name windiest) ++ py " (" ++ fixed0 v
               ++ py " mph)"]
      else Ok []))
  end.

Definition temp_highlight (with_temp : list ResortConditions)
  : result (list str) :=
  match with_temp with
  | [] => Ok []
  | _ =>
      rbind (py_min (fun r => number (temp_f (weather r))) with_temp)
        (fun coldest =>
      rbind (number (temp_f (weather coldest))) (fun t =>
      if Qle_bool t 32
      then Ok [py "Coldest: " ++ py (name coldest) ++ py " (" ++ fixed0 t
               ++ [176%N; 70%N] ++ py ")"]
      else Ok []))
  end.

Definition compute_highlights (resorts : list ResortConditions)
  : result (list str) :=
  let active := List.filter is_active resorts in
  match active with
  | [] => Ok [py "All resorts are currently closed or unavailable."]
  | _ =>
      rbind (terrain_highlight (List.filter has_trails active)) (fun h1 =>
      rbind (snow_highlight (List.filter has_snow active)) (fun h2 =>
      rbind (wind_highlight (List.filter has_wind active)) (fun h3 =>
      rbind (temp_highlight (List.filter has_temp active)) (fun h4 =>
      Ok (h1 ++ h2 ++ h3 ++ h4)))))
  end.

(** The status count of one turn of the loop of [generate_summary]. *)
Definition count_resort (c : SummaryCounts) (r : ResortConditions) : SummaryCounts :=
  if stale r then
    mkSummaryCounts (open_resorts c) (closed_resorts c) (stale_resorts c + 1)
  else if flag_set (open_flag (ops r)) then
    mkSummaryCounts (open_resorts c + 1) (closed_resorts c) (stale_resorts c)
  else
    mkSummaryCounts (open_resorts c) (closed_resorts c + 1) (stale_resorts c).

(** The loop of [generate_summary]. *)
Fixpoint summarize_each (resorts : list ResortConditions) (c : SummaryCounts)
    (b : gmap string str) : result (SummaryCounts * gmap string str) :=
  match resorts with
  | [] => Ok (c, b)
  | resort :: rest =>
      rbind (generate_blurb resort) (fun blurb =>
      summarize_each rest (count_resort c resort) (<[slug resort := blurb]> b))
  end.

Definition generate_summary (resorts : list ResortConditions) : M World Summary :=
  cb <- lift (summarize_each resorts (mkSummaryCounts 0 0 0) ∅);
  hs <- lift (compute_highlights resorts);
  now <- time_time;
  ret (mkSummary now (fst cb) hs (snd cb)).

End Blurb.

(** The resorts counted by a [SummaryCounts]. *)
Definition total_of (c : SummaryCounts) : Z :=
  open_resorts c + closed_resorts c + stale_resorts c.

(** The forecast text of a record is a string, or a falsy value. *)
Definition forecast_ok (r : ResortConditions) : bool :=
  negb (truthy (short_forecast (weather r)))
  || match short_forecast (weather r) with JStr _ => true | _ => false end.

End Report.

(** ** Snow measurements of the Mt Rose adapter ([adapters/mt_rose.py]) *)
Module MtRoseSnow.
Import Py Re Models Base Adapters.
Local Open Scope string_scope.
Local Open Scope list_scope.

(** The tail shared by the four patterns handed to [_parse_range]:
    digits as group 1, optionally a hyphen or an en dash (U+2013),
    optionally digits as group 2, then an inch mark. *)
Definition range_tail : re :=
  seqs [Group 1 (Plus digit); Opt (any_of [45; 8211]); Opt (Group 2 (Plus digit));
        inch_mark].

Definition new_snow_pattern : re :=
  seqs [lit_i "new"; sp; lit_i "snow"; sep; range_tail].
Definition base_depth_pattern : re :=
  seqs [lit_i "base"; sp; Opt (lit_i "depth"); sep; range_tail].
Definition season_pattern : re :=
  seqs [lit_i "season"; sp; Opt (lit_i "total"); sep; range_tail].
Definition storm_pattern : re :=
  seqs [lit_i "storm"; sp; Opt (lit_i "total"); sep; range_tail].

(** [MtRoseAdapter._parse_range] *)
Definition _parse_range (text : str) (pattern : re) : option Q :=
  match search pattern text with
  | Some m =>
      match group m 1 with
      | Some low =>
          match group m 2 with
          | Some (c :: high) =>
              Some (mean (float_of_decimal low) (float_of_decimal (c :: high)))
          | _ => Some (float_of_decimal low)
          end
      | None => None
      end
  | None => None
  end.

(** The snow block of [MtRoseAdapter.parse]: a storm total that is 0 is
    falsy and is not stored. *)
Definition mt_rose_snow (text : str) : Snow :=
  let storm := _parse_range text storm_pattern in
  mkSnow (_parse_range text new_snow_pattern)
    (match storm with
     | Some q => if Qeq_bool q 0 then None else Some q
     | None => None
     end)
    (_parse_range text base_depth_pattern)
    (_parse_range text season_pattern)
    None None.

End MtRoseSnow.

Module Fixtures2.
Import Py Json Models Exc Dyn Adapters Http Samples Report.
Local Open Scope string_scope.
Local Open Scope Z_scope.
Local Open Scope list_scope.

(** A renderer for whole numbers: the minute is fixed, a float is shown
    by its integer part. *)
Definition sample_render : Render :=
  {| strftime_minute := fun _ => py "2026-01-01 00:00";
     fixed0 := fun q => py (pretty (Qnum q / Z.pos (Qden q)));
     true_div := fun a b => (inject_Z a / inject_Z b)%Q;
     times100 := fun q => (q * 100)%Q |}.

(** Three records: an open resort, a closed one and a stale one. *)
Definition open_record : ResortConditions :=
  mkResortConditions "heavenly" "Heavenly" 1000%Q false
    (mkSources sample_url None None)
    (mkOperations (Some true) (Some 5) (Some 1) (Some 8) (Some 20) None (Some 40))
    (mkSnow (Some 6%Q) None (Some 48%Q) None None None)
    (mkWeather (Some 20%Q) (Some 25%Q) None (JStr (py "Snow")) (JStr (py "Tonight"))).

Definition closed_record : ResortConditions :=
  mkResortConditions "homewood" "Homewood" 1000%Q false
    (mkSources sample_url None None)
    (mkOperations (Some false) (Some 0) None (Some 4) None None None)
    Snow_default Weather_default.

Definition stale_record : ResortConditions :=
  mkResortConditions "boreal" "Boreal" 1000%Q true
    (mkSources sample_url None None) Operations_default Snow_default Weather_default.

Definition three_records : list ResortConditions :=
  [open_record; closed_record; stale_record].

(** A world with a fresh rendering of the sample URL in the cache. *)
Definition sample_headless_key : string := "20260101_0123456789abcdef_headless.cache".

Definition rendered_world : World :=
  world_with {[ sample_headless_key := recent_file ]} ok_net.

End Fixtures2.

Module Scan2.
Import Py Re Base.
Local Open Scope list_scope.

(** The patterns without a capturing group. *)
Fixpoint groupless (r : re) : bool :=
  match r with
  | Eps | Chr _ | Dollar => true
  | Seq a b | Alt a b => groupless a && groupless b
  | Star a | StarLazy a => groupless a
  | Group _ _ => false
  end.

(** A continuation-passing matcher hands its continuation a suffix of the
    text; [keeps] says whether the captures are handed on unchanged. *)
Definition reaches (keeps : bool) (k : K) (s : str) (c : caps)
    (x : caps * str) : Prop :=
  exists s' c', s' `suffix_of` s /\ k s' c' = Some x /\ (keeps = true -> c' = c).

(** No character of the range class of [parse_inches] is followed by a
    digit. *)
Definition no_range (t : str) : Prop :=
  forall l y r, t = l ++ y :: r -> existsb (N.eqb y) range_class = true ->
                Scan.free_of is_digit r = true.

End Scan2.

(** * Properties *)

(** ** Adapters: the [parse] contract *)

Section AdapterContract.
Import Py Json Models Exc Dyn Adapters Spec.
Context {L : PageLib}.

Lemma rtry_all_returns {A} (body : result A) (h : exn -> result A) :
  (forall e, returns (h e) = true) ->
  returns (rtry body is_Exception h) = true.
Proof.
  intros Hh. destruct body as [a|e]; simpl; [reflexivity | apply Hh].
Qed.

Lemma parse_unfold (a : AdapterClass) (html : str) :
  parse a html =
  match parse_body a html with
  | Ok r => Ok r
  | Raise e =>
      Ok (mkParseResult false Operations_default Snow_default (Some (exn_str e)) false)
  end.
Proof.
  destruct a; unfold parse, rtry, on_exception; cbn [parse_body];
    try reflexivity;
    match goal with
    | |- context [match ?b with Ok _ => _ | Raise _ => _ end] =>
        destruct b; reflexivity
    end.
Qed.

(** C1.  For every adapter class and every markup string, [parse] returns
    a [ParseResult] and does not raise; when the body of [parse] raises an
    exception [e], the result returned has [success = False] and carries
    [str(e)] as its error message. *)
Theorem parse_never_raises (a : AdapterClass) (html : str) :
  returns (parse a html) = true /\
  match parse_body a html with
  | Ok r => parse a html = Ok r
  | Raise e =>
      exists r, parse a html = Ok r /\ success r = false /\
                error r = Some (exn_str e)
  end.
Proof.
  rewrite parse_unfold.
  destruct (parse_body a html) as [r|e]; simpl; split; try reflexivity.
  eexists; split; [reflexivity | split; reflexivity].
Qed.

Lemma finish_error_iff (ok : bool) o s msg :
  known (error (finish ok o s msg)) = negb (success (finish ok o s msg)).
Proof. destruct ok; reflexivity. Qed.

Lemma body_coherent (a : AdapterClass) (html : str) (r : ParseResult) :
  parse_body a html = Ok r -> coherent r.
Proof.
  unfold coherent.
  destruct a; simpl;
    unfold generic_body, boreal_body, diamond_peak_body, homewood_body,
      mt_rose_body, palisades_body, sierra_body, sugar_bowl_body,
      tahoe_donner_body, vail_body, rbind;
    try (destruct (extract _ html) as [p|e]; [|discriminate]).
  all: try (intros [= <-]; apply finish_error_iff).
  - destruct (_count_lifts (page_lift_text p)) as [lo lt].
    destruct (_count_trails (page_text p)) as [t_open t_total].
    intros [= <-]; apply finish_error_iff.
  - destruct (vail_lifts p) as [[[l1 l2] l3]|e]; [|discriminate].
    destruct (vail_trails p) as [[[t1 t2] t3]|e]; [|discriminate].
    intros [= <-]; apply finish_error_iff.
  - intros [= <-]; reflexivity.
Qed.

(** C9.  For every adapter class and every markup string, the result of
    [parse] has an error description exactly when its success flag is
    false. *)
Theorem error_iff_not_success (a : AdapterClass) (html : str) :
  exists r, parse a html = Ok r /\
            (error r <> None <-> success r = false).
Proof.
  rewrite parse_unfold.
  destruct (parse_body a html) as [r|e] eqn:Hb.
  - exists r; split; [reflexivity|].
    apply body_coherent in Hb. unfold coherent in Hb.
    destruct (error r), (success r); simpl in Hb; try discriminate;
      split; congruence.
  - eexists; split; [reflexivity|]. simpl. split; congruence.
Qed.

End AdapterContract.

(** ** Adapters: the derived open flag *)

Section OpenFlag.
Import Py Json Models Exc Dyn Adapters Spec.
Local Open Scope Z_scope.
Context {L : PageLib}.

Lemma mt_rose_open_status_eq (text : str) (o : Operations) :
  mt_rose_open_status text o = Some (lifts_running o).
Proof.
  unfold mt_rose_open_status.
  destruct (lifts_running o); [reflexivity|].
  destruct (_ && _); reflexivity.
Qed.

Lemma lifts_then_trails_eq (o : Operations) :
  lifts_then_trails o = priority_order None (lifts_open o) (trails_open o).
Proof. reflexivity. Qed.

Lemma with_flag_counts (o : Operations) (f : option bool) :
  lifts_open (with_flag o f) = lifts_open o /\
  lifts_scheduled (with_flag o f) = lifts_scheduled o /\
  trails_open (with_flag o f) = trails_open o /\
  trails_scheduled (with_flag o f) = trails_scheduled o /\
  open_flag (with_flag o f) = f.
Proof. repeat split. Qed.

(** C5, as amended.  The order in which the open flag is derived is
    fixed per adapter ([open_flag_rule]): the generic adapter lets an
    explicit closed or open phrase decide and otherwise uses the open-lift
    count, never the trail count; Boreal and Tahoe Donner follow closed
    phrase, lifts, trails, unknown; Palisades and Homewood follow lifts,
    trails, unknown without a phrase; Diamond Peak reads the lift count
    before any phrase; Mt Rose and Sierra-at-Tahoe report whether a
    positive lift count is known; Sugar Bowl and Vail count scheduled lifts
    as activity.  Whenever the body of [parse] completes, the flag of the
    result is the one the adapter's rule gives on the lower-cased page text
    and the result's own counts. *)
Theorem open_flag_by_adapter (a : AdapterClass) (html : str) (p : Page)
    (r : ParseResult) :
  extract a html = Ok p ->
  parse_body a html = Ok r ->
  open_flag (ops r) = open_flag_rule a (lower (page_text p)) (ops r).
Proof.
  intros Hx.
  destruct a; simpl;
    unfold generic_body, boreal_body, diamond_peak_body, homewood_body,
      mt_rose_body, palisades_body, sierra_body, sugar_bowl_body,
      tahoe_donner_body, vail_body, rbind;
    try rewrite Hx.
  - intros [= <-]. simpl. unfold _find_open_status, phrase_of. simpl.
    destruct (_ || _); [reflexivity|]. destruct (_ || _); reflexivity.
  - intros [= <-]. simpl. unfold boreal_open_status, phrase_of. simpl.
    destruct (_ || _); reflexivity.
  - intros [= <-]. simpl. unfold diamond_peak_open_status, phrase_of. simpl.
    destruct (lifts_open (page_ops p)); [reflexivity|].
    destruct (_ || _); [reflexivity|]. destruct (has _ _); reflexivity.
  - intros [= <-]. reflexivity.
  - destruct (_count_lifts (page_lift_text p)) as [lo lt].
    destruct (_count_trails (page_text p)) as [t_open t_total].
    intros [= <-]. simpl. rewrite mt_rose_open_status_eq. reflexivity.
  - intros [= <-]. reflexivity.
  - intros [= <-]. reflexivity.
  - intros [= <-]. simpl. unfold sugar_bowl_open_status, activity_rule. simpl.
    destruct (has _ _); [reflexivity|].
    destruct (0 <? _); reflexivity.
  - intros [= <-]. simpl. unfold tahoe_donner_open_status, phrase_of. simpl.
    destruct (_ && _); reflexivity.
  - destruct (vail_lifts p) as [[[l1 l2] l3]|e]; [|discriminate].
    destruct (vail_trails p) as [[[t1 t2] t3]|e]; [|discriminate].
    intros [= <-]. reflexivity.
  - intros [= <-]. reflexivity.
Qed.

End OpenFlag.

Section OpenFlagExamples.
Import Py Json Models Exc Dyn Adapters Spec Samples.
Local Open Scope Z_scope.

(** C5, counterexample.  On a page that reads 20/50 trails open and six
    inches in the last 24 hours, and nothing on lifts, the generic adapter
    succeeds with 20 open trails and leaves the flag unknown, where the
    claimed order infers it from the open-trail count. *)
Lemma generic_open_flag_ignores_trails :
  exists r,
    @parse sample_lib GenericHTMLAdapter trails_only_text = Ok r /\
    success r = true /\
    lifts_open (Adapters.ops r) = None /\
    trails_open (Adapters.ops r) = Some 20 /\
    open_flag (Adapters.ops r) = None /\
    priority_order None (lifts_open (Adapters.ops r)) (trails_open (Adapters.ops r))
      = Some true.
Proof. eexists. repeat split; vm_compute; reflexivity. Qed.

(** The generic adapter's test of [test_parsing.py]. *)
Example generic_adapter_test :
  @parse sample_lib GenericHTMLAdapter generic_test_text
  = Ok (mkParseResult true
          (mkOperations (Some true) (Some 5) None (Some 10) (Some 20) None (Some 50))
          (mkSnow (Some 6%Q) None (Some 48%Q) None None None)
          None false).
Proof. vm_compute. reflexivity. Qed.

(** C5, witness: the generic adapter on a page that reads
    [Resort Closed]. *)
Lemma open_flag_by_adapter_witness :
  exists p r,
    @extract sample_lib GenericHTMLAdapter (py "Resort Closed") = Ok p /\
    @parse_body sample_lib GenericHTMLAdapter (py "Resort Closed") = Ok r /\
    open_flag (Adapters.ops r)
      = open_flag_rule GenericHTMLAdapter (lower (page_text p)) (Adapters.ops r).
Proof.
  do 2 eexists. split; [reflexivity|]. split; [reflexivity|].
  apply (@open_flag_by_adapter sample_lib GenericHTMLAdapter (py "Resort Closed"));
    reflexivity.
Defined.

End OpenFlagExamples.

(** ** Adapters: scheduled lifts *)

Section Scheduled.
Import Py Json Models Exc Dyn Adapters Spec Summarize.
Local Open Scope Z_scope.
Context {L : PageLib}.

Lemma how_many_cons (st x : LiftStatus) (l : list LiftStatus) :
  how_many st (x :: l) = (if is_status st x then 1 else 0) + how_many st l.
Proof.
  unfold how_many. rewrite filter_cons.
  destruct (decide (is_status st x = true)) as [H|H].
  - rewrite H. rewrite length_cons. lia.
  - destruct (is_status st x); [congruence|]. lia.
Qed.

Lemma tally_counts (c : Counts) (st : LiftStatus) :
  c_open (tally c st) = c_open c + (if is_status StOpen st then 1 else 0) /\
  c_scheduled (tally c st)
    = c_scheduled c + (if is_status StScheduled st then 1 else 0) /\
  c_total (tally c st) = c_total c + 1.
Proof. destruct st; simpl; repeat split; lia. Qed.

(** The loop of [_count_lift_statuses] adds, to each counter, the number
    of entries with that status. *)
Lemma count_lifts_from_spec (lifts : list json) :
  forall c0 c,
    count_lifts_from c0 lifts = Ok c ->
    exists sts,
      Forall2 (fun lift st => lift_status_of lift = Ok st) lifts sts /\
      c_open c = c_open c0 + how_many StOpen sts /\
      c_scheduled c = c_scheduled c0 + how_many StScheduled sts /\
      c_total c = c_total c0 + Z.of_nat (length lifts).
Proof.
  induction lifts as [|lift rest IH]; intros c0 c H.
  - injection H as <-. exists []. repeat split; [constructor | | |];
      unfold how_many; simpl; lia.
  - simpl in H. unfold rbind in H.
    destruct (get_or lift "Status" (JInt 0)) as [status|e] eqn:Hs; [|discriminate].
    destruct (IH _ _ H) as (sts & HF & Ho & Hsc & Ht).
    exists (lift_status status :: sts).
    destruct (tally_counts c0 (lift_status status)) as (To & Ts & Tt).
    repeat split.
    + constructor; [|exact HF]. unfold lift_status_of, rbind. rewrite Hs. reflexivity.
    + rewrite Ho, To, how_many_cons. lia.
    + rewrite Hsc, Ts, how_many_cons. lia.
    + rewrite Ht, Tt. rewrite length_cons. lia.
Qed.

Lemma count_trails_from_scheduled (trails : list json) :
  forall c0 c, count_trails_from c0 trails = Ok c -> c_scheduled c = c_scheduled c0.
Proof.
  induction trails as [|t rest IH]; intros c0 c H.
  - injection H as <-. reflexivity.
  - simpl in H. unfold rbind in H.
    destruct (get_or t "IsOpen" (JBool false)) as [v|e]; [|discriminate].
    apply IH in H. rewrite H. destruct (truthy v); reflexivity.
Qed.

(** Every lift is tallied under exactly one status. *)
Definition partitioned (c : Counts) : Prop :=
  c_open c + c_scheduled c + c_closed c + c_hold c = c_total c.

Lemma tally_partitioned (c : Counts) (st : LiftStatus) :
  partitioned c -> partitioned (tally c st).
Proof. unfold partitioned. destruct st; simpl; lia. Qed.

Lemma sugar_bowl_partitioned (text : str) (names : list string) :
  forall c, partitioned c -> partitioned (fold_left (sugar_bowl_count text) names c).
Proof.
  induction names as [|n rest IH]; intros c Hc; [exact Hc|].
  simpl. apply IH. unfold sugar_bowl_count.
  destruct (Re.search _ text); [|exact Hc].
  destruct (str_eqb _ _); [apply tally_partitioned, Hc|].
  destruct (str_eqb _ _); apply tally_partitioned, Hc.
Qed.


End Scheduled.

Section ScheduledExamples.
Import Py Json Models Exc Dyn Adapters Spec Summarize Samples.
Local Open Scope Z_scope.


(** Each lift of [LIFT_NAMES] whose status reads [Scheduled] is counted as
    open. *)
Lemma mt_rose_scheduled_counts_as_open :
  Forall (fun lift_name =>
            _count_lifts (py lift_name ++ py " Scheduled") = (Some 1, Some 1))
         LIFT_NAMES.
Proof. repeat constructor. Qed.


(** The counts of the two sample pages. *)
Example sample_scheduled_counts :
  (fun r => match r with
            | Ok x => (lifts_open (Adapters.ops x), lifts_scheduled (Adapters.ops x),
                       lifts_total (Adapters.ops x), lifts_available (Adapters.ops x))
            | Raise _ => (None, None, None, 0)
            end) (@parse sample_lib VailResortsAdapter [])
  = (Some 1, Some 1, Some 3, 2) /\
  sugar_bowl_lift_statuses (page_lift_text sugar_bowl_page) = mkCounts 1 1 1 0 3.
Proof. split; vm_compute; reflexivity. Qed.

End ScheduledExamples.

(** ** Shared parsers: [parse_inches] *)

Section ParseInches.
Import Py Re Base Samples.

(** The cases of [test_parse_inches_simple], [test_parse_inches_range]
    with a hyphen, and [test_parse_inches_invalid]. *)
Example parse_inches_tests :
  parse_inches (Some (py "6" ++ [34])) = Some 6%Q /\
  parse_inches (Some (py "6 in")) = Some 6%Q /\
  parse_inches (Some (py "6 inches")) = Some 6%Q /\
  parse_inches (Some (py "12.5 inches")) = Some (25 # 2)%Q /\
  parse_inches (Some (py "6-8" ++ [34])) = Some 7%Q /\
  parse_inches (Some (py "6 - 8 inches")) = Some 7%Q /\
  parse_inches (Some []) = None /\
  parse_inches (Some (py "none")) = None /\
  parse_inches None = None.
Proof. repeat split; vm_compute; reflexivity. Qed.

(** C7.  The claim asks for the mean of two numbers joined by an en dash;
    on the string made of 10, an en dash and 15, [parse_inches] returns
    10.0, the first number, and not the mean 12.5: the bracket of the range
    pattern holds the code points U+00E2, U+20AC and U+201C, not U+2013, so
    only the single-number pattern matches. *)
Theorem parse_inches_en_dash :
  parse_inches (Some (py "10" ++ [en_dash] ++ py "15")) = Some 10%Q /\
  Re.search range_pattern (lower (strip (py "10" ++ [en_dash] ++ py "15"))) = None /\
  mean 10 15 = (25 # 2)%Q /\
  existsb (N.eqb en_dash) range_class = false.
Proof. repeat split; vm_compute; reflexivity. Qed.

End ParseInches.

(** ** The fetch layer *)

Section FetchLayer.
Import Py Json Models Exc Http Spec.
Local Open Scope string_scope.
Context {P : Platform}.

Lemma same_environment_refl w : same_environment w w.
Proof. repeat split. Qed.

Lemma same_environment_trans w1 w2 w3 :
  same_environment w1 w2 -> same_environment w2 w3 -> same_environment w1 w3.
Proof.
  intros (a & b & c) (a' & b' & c').
  repeat split; congruence.
Qed.

Lemma get_cache_path_run (url : str) (suffix : string) (w : World) :
  _get_cache_path url suffix w = (Ok (cache_key w url suffix), w).
Proof. reflexivity. Qed.

Lemma read_cache_run (key : string) (ttl : Z) (w : World) :
  _read_cache key ttl w = (Ok (cache_read w key ttl), w).
Proof.
  unfold _read_cache, cache_read, age, bind, get, time_time, ret.
  destruct (cache w !! key) as [f|]; [|reflexivity].
  destruct (Qltb _ _); reflexivity.
Qed.

Lemma rate_limit_run (url : str) (w : World) :
  exists w', _rate_limit url w = (Ok tt, w') /\
             calls w' = calls w /\ cache w' = cache w /\
             same_environment w w'.
Proof.
  unfold _rate_limit, bind, get, time_time, sleep, modify, ret.
  destruct (Qltb _ _); eexists; (split; [reflexivity|]);
    repeat split.
Qed.

Lemma write_cache_run (key : string) (c : str) (w : World) :
  exists w', _write_cache key c w = (Ok tt, w') /\
             calls w' = calls w /\ same_environment w w' /\
             (cache_writable w = true ->
              cache w' !! key = Some (mkCacheFile (clock w) (Some c))).
Proof.
  unfold _write_cache, modify.
  destruct (cache_writable w) eqn:Hw; eexists; (split; [reflexivity|]).
  - repeat split; try assumption. intros _. simpl. apply lookup_insert_eq.
  - repeat split. discriminate.
Qed.

(** One transport call that is answered with a status outside 5xx. *)
Lemma fetch_once_ok (url : str) (w : World) st tx js :
  net w (calls w) url = Responds st tx js ->
  ~ (500 <= st < 600)%Z ->
  fetch_once url w = (Ok (mkResponse st tx js), set_calls w (S (calls w))).
Proof.
  intros Hn Hst. unfold fetch_once, bind, requests_get. rewrite Hn. simpl.
  destruct (500 <=? st)%Z eqn:E1; destruct (st <? 600)%Z eqn:E2; simpl;
    try reflexivity.
  exfalso. apply Hst. split; [apply Z.leb_le | apply Z.ltb_lt]; assumption.
Qed.

(** One transport call that is answered with a 5xx status. *)
Lemma fetch_once_5xx (url : str) (w : World) :
  answers w (calls w) url 500 600 ->
  exists e, fetch_once url w = (Raise e, set_calls w (S (calls w))) /\
            is_RequestException e = true.
Proof.
  intros (st & tx & js & Hn & Hlo & Hhi).
  unfold fetch_once, bind, requests_get. rewrite Hn. simpl.
  apply Z.leb_le in Hlo. apply Z.ltb_lt in Hhi. rewrite Hlo, Hhi. simpl.
  eexists; split; reflexivity.
Qed.

Lemma retrying_unfold {A} (remaining attempt_number : nat) (fn : M World A) :
  retrying remaining attempt_number fn =
  try_except fn is_RequestException (fun e =>
    match remaining with
    | O => raise e
    | S r => bind (sleep (backoff attempt_number))
               (fun _ => retrying r (S attempt_number) fn)
    end).
Proof. destruct remaining; reflexivity. Qed.

(** After [k] answers in 5xx and one answer outside 5xx, the retry loop
    returns that answer, having issued [k + 1] transport calls. *)
Lemma retrying_after_5xx (url : str) st tx js (k : nat) :
  forall (remaining attempt_number : nat) (w : World),
    (k <= remaining)%nat ->
    (forall i, (i < k)%nat -> answers w (calls w + i) url 500 600) ->
    net w (calls w + k) url = Responds st tx js ->
    ~ (500 <= st < 600)%Z ->
    exists w',
      retrying remaining attempt_number (fetch_once url) w
        = (Ok (mkResponse st tx js), w') /\
      calls w' = (calls w + k + 1)%nat /\ cache w' = cache w /\
      same_environment w w'.
Proof.
  induction k as [|k IH]; intros remaining attempt_number w Hk H5 Hn Hst.
  - rewrite retrying_unfold. unfold try_except.
    rewrite Nat.add_0_r in Hn. rewrite (fetch_once_ok _ _ _ _ _ Hn Hst).
    eexists; split; [reflexivity|]. simpl. repeat split. lia.
  - destruct remaining as [|r]; [lia|].
    rewrite retrying_unfold. unfold try_except.
    destruct (fetch_once_5xx url w) as (e & He & Hc).
    { specialize (H5 O ltac:(lia)). rewrite Nat.add_0_r in H5. exact H5. }
    rewrite He, Hc. unfold bind, sleep, modify.
    set (w1 := set_clock (set_calls w (S (calls w))) _).
    destruct (IH r (S attempt_number) w1) as (w' & Hr & Hcalls & Hcache & Henv).
    + lia.
    + intros i Hi. specialize (H5 (S i) ltac:(lia)).
      unfold answers in *. simpl.
      replace (S (calls w + i)) with (calls w + S i)%nat by lia. exact H5.
    + simpl. replace (S (calls w + k)) with (calls w + S k)%nat by lia. exact Hn.
    + exact Hst.
    + exists w'. split; [exact Hr|]. simpl in Hcalls, Hcache.
      split; [lia|]. split; [exact Hcache|]. exact Henv.
Qed.

Lemma fetch_after_miss (url : str) (ttl : Z) (suffix : string)
    (use_cache : bool) (w : World) :
  use_cache = false \/ cache_read w (cache_key w url suffix) ttl = None ->
  exists w1,
    calls w1 = calls w /\ cache w1 = cache w /\ same_environment w w1 /\
    fetch url ttl suffix use_cache w
      = network_phase url (cache_key w url suffix) use_cache w1.
Proof.
  intros Hmiss.
  destruct (rate_limit_run url w) as (w1 & Hrl & Hc & Hca & Henv).
  exists w1. repeat split; try apply Henv; try assumption.
  unfold fetch. unfold bind at 1. rewrite get_cache_path_run.
  unfold bind at 1.
  assert (Hread : (if use_cache then _read_cache (cache_key w url suffix) ttl
                   else ret None) w = (Ok None, w)).
  { destruct Hmiss as [->|Hm]; [reflexivity|].
    destruct use_cache; [|reflexivity].
    rewrite read_cache_run, Hm. reflexivity. }
  rewrite Hread. unfold bind at 1. rewrite Hrl. reflexivity.
Qed.

Lemma raise_for_status_ok (r : Response) (w : World) :
  ~ (400 <= status r < 600)%Z -> raise_for_status r w = (Ok tt, w).
Proof.
  intros H. unfold raise_for_status.
  destruct (400 <=? status r)%Z eqn:E1; destruct (status r <? 600)%Z eqn:E2;
    simpl; try reflexivity.
  exfalso. apply H. split; [apply Z.leb_le | apply Z.ltb_lt]; assumption.
Qed.

Lemma raise_for_status_4xx (r : Response) (w : World) :
  (400 <= status r < 600)%Z ->
  exists e, raise_for_status r w = (Raise e, w) /\ is_RequestException e = true.
Proof.
  intros [Hlo Hhi]. unfold raise_for_status.
  apply Z.leb_le in Hlo. apply Z.ltb_lt in Hhi. rewrite Hlo, Hhi. simpl.
  eexists; split; reflexivity.
Qed.

(** The network phase when the retry loop delivers a response below 400:
    its text is returned and, with the cache in use and writable, stored
    under the key. *)
Lemma network_phase_ok (url : str) (key : string) (use_cache : bool)
    (w1 w2 : World) (resp : Response) :
  _fetch_with_retry url w1 = (Ok resp, w2) ->
  ~ (400 <= status resp < 600)%Z ->
  exists w',
    network_phase url key use_cache w1 = (Ok (response_text resp), w') /\
    calls w' = calls w2 /\ same_environment w2 w' /\
    (use_cache = true -> cache_writable w2 = true ->
     cache w' !! key = Some (mkCacheFile (clock w2) (Some (response_text resp)))).
Proof.
  intros Hr Hst. unfold network_phase, try_except.
  unfold bind at 1. rewrite Hr.
  unfold bind at 1. rewrite (raise_for_status_ok _ _ Hst).
  unfold bind at 1.
  destruct use_cache.
  - destruct (write_cache_run key (response_text resp) w2)
      as (w' & Hw & Hc & Henv & Hstore).
    rewrite Hw. exists w'. split; [reflexivity|].
    split; [exact Hc|]. split; [exact Henv|]. intros _ Hwr. exact (Hstore Hwr).
  - exists w2. split; [reflexivity|]. split; [reflexivity|].
    split; [apply same_environment_refl|]. discriminate.
Qed.

(** The network phase when the retry loop delivers a 4xx response:
    [FetchError]. *)
Lemma network_phase_4xx (url : str) (key : string) (use_cache : bool)
    (w1 w2 : World) (resp : Response) :
  _fetch_with_retry url w1 = (Ok resp, w2) ->
  (400 <= status resp < 600)%Z ->
  exists e,
    network_phase url key use_cache w1 = (Raise e, w2) /\
    is_FetchError e = true.
Proof.
  intros Hr Hst. unfold network_phase, try_except.
  unfold bind at 1. rewrite Hr.
  unfold bind at 1.
  destruct (raise_for_status_4xx resp w2 Hst) as (e & He & Hre).
  rewrite He, Hre. eexists; split; reflexivity.
Qed.

(** C3.  Retry: with no fresh cache entry to serve the request, if the
    transport answers the first [N - 1] calls with a 5xx status and the
    [N]-th with a 2xx status, for [N] between 1 and [MAX_RETRIES] = 3,
    then [fetch] returns the text of that answer and has issued exactly
    [N] transport calls.  No retry on 4xx: if the transport always answers
    with a 4xx status, [fetch] raises [FetchError] after exactly one
    transport call. *)
Theorem fetch_retries_5xx_not_4xx (url : str) (ttl : Z) (suffix : string)
    (use_cache : bool) (w : World) (N : nat) (st : Z) (tx : str)
    (js : option json) (w4 : World) :
  (1 <= N <= MAX_RETRIES)%nat ->
  use_cache = false \/ cache_read w (cache_key w url suffix) ttl = None ->
  (forall i, (i < N - 1)%nat -> answers w (calls w + i) url 500 600) ->
  net w (calls w + (N - 1)) url = Responds st tx js ->
  (200 <= st < 300)%Z ->
  use_cache = false \/ cache_read w4 (cache_key w4 url suffix) ttl = None ->
  (forall k, answers w4 k url 400 500) ->
  (exists w', fetch url ttl suffix use_cache w = (Ok tx, w') /\
              calls w' = (calls w + N)%nat) /\
  (exists e w', fetch url ttl suffix use_cache w4 = (Raise e, w') /\
                is_FetchError e = true /\
                calls w' = (calls w4 + 1)%nat).
Proof.
  intros HN Hmiss H5 Hn Hst Hmiss4 H4. split.
  - destruct (fetch_after_miss url ttl suffix use_cache w Hmiss)
      as (w1 & Hc & Hca & (Hnet & _) & ->).
    destruct (retrying_after_5xx url st tx js (N - 1) (MAX_RETRIES - 1) 1 w1)
      as (w2 & Hr & Hc2 & _ & _).
    + unfold MAX_RETRIES in *. lia.
    + intros i Hi. unfold answers. rewrite Hnet, Hc. apply H5, Hi.
    + rewrite Hnet, Hc. exact Hn.
    + lia.
    + destruct (network_phase_ok url (cache_key w url suffix) use_cache
                  w1 w2 _ Hr) as (w' & Hf & Hc' & _).
      { simpl. lia. }
      exists w'. split; [exact Hf|]. rewrite Hc', Hc2, Hc. lia.
  - destruct (fetch_after_miss url ttl suffix use_cache w4 Hmiss4)
      as (w1 & Hc & Hca & (Hnet & _) & ->).
    destruct (H4 (calls w4)) as (st4 & tx4 & js4 & Hn4 & Hst4).
    destruct (retrying_after_5xx url st4 tx4 js4 0 (MAX_RETRIES - 1) 1 w1)
      as (w2 & Hr & Hc2 & _ & _).
    + lia.
    + intros i Hi. lia.
    + rewrite Hnet, Hc, Nat.add_0_r. exact Hn4.
    + lia.
    + destruct (network_phase_4xx url (cache_key w4 url suffix) use_cache
                  w1 w2 _ Hr) as (e & Hf & He).
      { simpl. lia. }
      exists e, w2. split; [exact Hf|]. split; [exact He|].
      rewrite Hc2, Hc. lia.
Qed.

Lemma Qltb_false (a b : Q) : (b <= a)%Q -> Qltb a b = false.
Proof.
  intros H. unfold Qltb. apply negb_false_iff. apply Qle_bool_iff. exact H.
Qed.

Lemma Qltb_true (a b : Q) : (a < b)%Q -> Qltb a b = true.
Proof.
  intros H. unfold Qltb. apply negb_true_iff.
  destruct (Qle_bool b a) eqn:E; [|reflexivity].
  apply Qle_bool_iff in E. exfalso. exact (Qlt_not_le _ _ H E).
Qed.

(** C4.  Cache: with the cache in use, a fetch issued while the entry
    under the request's cache key can be read and has age at most the TTL
    returns the cached body and leaves the world as it is, so that no
    transport call is issued; a fetch issued when the entry's age exceeds
    the TTL, and answered at once with a status below 400, issues exactly
    one transport call, returns the answer's text and, the cache directory
    being writable, replaces the entry by that text. *)
Theorem fetch_cache_ttl (url : str) (ttl : Z) (suffix : string)
    (w : World) (f : CacheFile) (body : str)
    (w4 : World) (f4 : CacheFile) (st : Z) (tx : str) (js : option json) :
  cache w !! cache_key w url suffix = Some f ->
  content f = Some body ->
  (age w f <= inject_Z ttl)%Q ->
  cache w4 !! cache_key w4 url suffix = Some f4 ->
  (inject_Z ttl < age w4 f4)%Q ->
  net w4 (calls w4) url = Responds st tx js ->
  ~ (400 <= st < 600)%Z ->
  cache_writable w4 = true ->
  fetch url ttl suffix true w = (Ok body, w) /\
  (exists w', fetch url ttl suffix true w4 = (Ok tx, w') /\
              calls w' = (calls w4 + 1)%nat /\
              exists t, cache w' !! cache_key w4 url suffix
                        = Some (mkCacheFile t (Some tx))).
Proof.
  intros Hf Hbody Hage Hf4 Hage4 Hn Hst Hwr. split.
  - unfold fetch. unfold bind at 1. rewrite get_cache_path_run.
    unfold bind at 1. rewrite read_cache_run.
    unfold cache_read. rewrite Hf, (Qltb_false _ _ Hage), Hbody. reflexivity.
  - assert (Hmiss : cache_read w4 (cache_key w4 url suffix) ttl = None).
    { unfold cache_read. rewrite Hf4, (Qltb_true _ _ Hage4). reflexivity. }
    destruct (fetch_after_miss url ttl suffix true w4 (or_intror Hmiss))
      as (w1 & Hc & Hca & (Hnet & Hb & Hw) & ->).
    destruct (retrying_after_5xx url st tx js 0 (MAX_RETRIES - 1) 1 w1)
      as (w2 & Hr & Hc2 & _ & (_ & _ & Hw2)).
    + lia.
    + intros i Hi. lia.
    + rewrite Hnet, Hc, Nat.add_0_r. exact Hn.
    + lia.
    + destruct (network_phase_ok url (cache_key w4 url suffix) true
                  w1 w2 _ Hr) as (w' & Hfe & Hc' & _ & Hstore).
      { simpl. exact Hst. }
      exists w'. split; [exact Hfe|]. split; [rewrite Hc', Hc2, Hc; lia|].
      eexists. apply Hstore; [reflexivity|]. rewrite Hw2, Hw. exact Hwr.
Qed.

End FetchLayer.

Section FetchLayerExamples.
Import Py Json Models Exc Http Spec Samples.
Local Open Scope string_scope.

(** C3, witness: two 503 answers and then a 200 give three calls; a 403
    gives one call and [FetchError]. *)
Lemma fetch_retries_5xx_not_4xx_witness :
  (exists w', @fetch sample_platform sample_url 900 "" true flaky_world
                = (Ok (py "<p>Resort Open</p>"), w') /\
              calls w' = (calls flaky_world + 3)%nat) /\
  (exists e w', @fetch sample_platform sample_url 900 "" true forbidden_world
                  = (Raise e, w') /\
                is_FetchError e = true /\
                calls w' = (calls forbidden_world + 1)%nat).
Proof.
  apply (@fetch_retries_5xx_not_4xx sample_platform sample_url 900 "" true
           flaky_world 3 200 (py "<p>Resort Open</p>") None forbidden_world).
  - unfold MAX_RETRIES. lia.
  - right. reflexivity.
  - intros i Hi. exists 503%Z, [], None.
    destruct i as [|[|i]]; [split; [reflexivity|lia].. | simpl in Hi; lia].
  - reflexivity.
  - lia.
  - right. reflexivity.
  - intros k. exists 403%Z, (py "Forbidden"), None. split; [reflexivity|lia].
Defined.

(** C4, witness: an entry 60 seconds old is served from the cache under a
    TTL of 900 seconds; an entry 1000 seconds old is refetched. *)
Lemma fetch_cache_ttl_witness :
  @fetch sample_platform sample_url 900 "" true cached_world
    = (Ok (py "<p>cached</p>"), cached_world) /\
  (exists w', @fetch sample_platform sample_url 900 "" true expired_world
                = (Ok (py "<p>fresh</p>"), w') /\
              calls w' = (calls expired_world + 1)%nat /\
              exists t, cache w' !! @cache_key sample_platform expired_world sample_url ""
                        = Some (mkCacheFile t (Some (py "<p>fresh</p>")))).
Proof.
  apply (@fetch_cache_ttl sample_platform sample_url 900 "" cached_world
           recent_file (py "<p>cached</p>") expired_world old_file 200
           (py "<p>fresh</p>") None).
  - reflexivity.
  - reflexivity.
  - unfold age. simpl. unfold Qle. simpl. lia.
  - reflexivity.
  - unfold age. simpl. unfold Qlt. simpl. lia.
  - reflexivity.
  - lia.
  - reflexivity.
Defined.

End FetchLayerExamples.

(** ** Weather enrichment *)

Section FetchJson.
Import Py Json Models Exc Http Spec.
Local Open Scope string_scope.
Context {P : Platform}.

Lemma fetch_once_outcome (url : str) (w w' : World) (r : result Response) :
  fetch_once url w = (r, w') ->
  cache w' = cache w /\ same_environment w w' /\
  match r with
  | Ok resp => exists k, net w k url
                 = Responds (status resp) (response_text resp) (response_json resp)
  | Raise e => is_RequestException e = true
  end.
Proof.
  unfold fetch_once, bind, requests_get.
  destruct (net w (calls w) url) as [st tx js|msg] eqn:Hn.
  - simpl. destruct ((500 <=? st)%Z && (st <? 600)%Z).
    + intros [= <- <-]. repeat split.
    + intros [= <- <-]. repeat split. exists (calls w). exact Hn.
  - intros [= <- <-]. repeat split.
Qed.

Lemma retrying_outcome (url : str) :
  forall (remaining attempt_number : nat) (w w' : World) (r : result Response),
    retrying remaining attempt_number (fetch_once url) w = (r, w') ->
    cache w' = cache w /\ same_environment w w' /\
    match r with
    | Ok resp => exists k, net w k url
                   = Responds (status resp) (response_text resp) (response_json resp)
    | Raise e => is_RequestException e = true
    end.
Proof.
  induction remaining as [|rem IH]; intros attempt_number w w' r;
    rewrite retrying_unfold; unfold try_except;
    destruct (fetch_once url w) as [r1 w1] eqn:H1;
    destruct (fetch_once_outcome _ _ _ _ H1) as (Hc & Henv & Hr);
    destruct r1 as [resp|e].
  - intros [= <- <-]. auto.
  - rewrite Hr. intros [= <- <-]. auto.
  - intros [= <- <-]. auto.
  - rewrite Hr. unfold bind, sleep, modify.
    intros H. apply IH in H. simpl in H.
    destruct H as (Hc' & Henv' & Hr').
    split; [congruence|]. split.
    + eapply same_environment_trans; [exact Henv|].
      destruct Henv' as (a & b & c). repeat split; assumption.
    + destruct r as [resp|e']; [|exact Hr'].
      destruct Hr' as (k & Hk). exists k.
      destruct Henv as (Hnet & _). rewrite <- Hnet. exact Hk.
Qed.

Lemma delivers_ok_env (w w' : World) :
  delivers_ok w -> cache w' = cache w -> same_environment w w' -> delivers_ok w'.
Proof.
  intros [Hn Hc] Hcache (Hnet & _). split.
  - intros k url st tx d. rewrite Hnet. apply Hn.
  - intros key f c d. rewrite Hcache. apply Hc.
Qed.

Lemma cache_read_Some (w : World) (key : string) (ttl : Z) (c : str) :
  cache_read w key ttl = Some c ->
  exists f, cache w !! key = Some f /\ content f = Some c.
Proof.
  unfold cache_read. destruct (cache w !! key) as [f|]; [|discriminate].
  destruct (Qltb _ _); [discriminate|]. intros H. exists f. auto.
Qed.

(** [fetch_json] raises nothing but [FetchError], delivers documents of
    the expected shape from a world that holds only such documents, and
    leaves such a world behind. *)
Lemma fetch_json_outcome (url : str) (ttl : Z) (w w' : World) (r : result json) :
  dumps_ok -> delivers_ok w ->
  fetch_json url ttl w = (r, w') ->
  delivers_ok w' /\
  match r with
  | Ok d => document_ok d = true
  | Raise e => is_FetchError e = true
  end.
Proof.
  intros Hd Hw. unfold fetch_json.
  unfold bind at 1. rewrite get_cache_path_run.
  unfold bind at 1. rewrite read_cache_run.
  set (key := cache_key w url "_json").
  destruct (cache_read w key ttl ≫= json_loads) as [data|] eqn:Hcached.
  - intros [= <- <-]. split; [exact Hw|].
    destruct (cache_read w key ttl) as [c|] eqn:Hr; [|discriminate].
    simpl in Hcached. destruct (cache_read_Some _ _ _ _ Hr) as (f & Hf & Hc).
    destruct Hw as [_ Hcache]. eapply Hcache; eassumption.
  - unfold bind at 1.
    destruct (rate_limit_run url w) as (w1 & Hrl & Hc1 & Hca1 & Henv1).
    rewrite Hrl. assert (Hw1 : delivers_ok w1) by (eapply delivers_ok_env; eauto).
    unfold try_except. unfold bind at 1. unfold _fetch_with_retry.
    destruct (retrying (MAX_RETRIES - 1) 1 (fetch_once url) w1) as [r2 w2] eqn:Hr2.
    destruct (retrying_outcome _ _ _ _ _ _ Hr2) as (Hca2 & Henv2 & Hres).
    assert (Hw2 : delivers_ok w2) by (eapply delivers_ok_env; eauto).
    destruct r2 as [resp|e].
    + unfold bind at 1. unfold raise_for_status.
      destruct ((400 <=? status resp)%Z && (status resp <? 600)%Z).
      * simpl. intros [= <- <-]. split; [exact Hw2 | reflexivity].
      * unfold ret at 1. cbv beta iota.
        destruct (response_json resp) as [data|] eqn:Hjs.
        -- unfold bind at 1.
           destruct (write_cache_run key (json_dumps data) w2)
             as (w3 & Hwc & Hc3 & Henv3 & _).
           rewrite Hwc. unfold ret. simpl.
           intros [= <- <-].
           destruct Hres as (k & Hk).
           assert (Hdata : document_ok data = true).
           { destruct Hw1 as [Hn _]. eapply Hn. exact Hk. }
           split; [|exact Hdata].
           unfold _write_cache, modify in Hwc.
           destruct (cache_writable w2).
           ++ injection Hwc as <-. split.
              ** intros k' url' st tx d. simpl. destruct Hw2 as [Hn _]. apply Hn.
              ** intros key' f c d. simpl.
                 destruct (decide (key = key')) as [<-|Hne].
                 --- rewrite lookup_insert_eq. intros [= <-]. simpl.
                     intros [= <-]. apply Hd. exact Hdata.
                 --- rewrite lookup_insert_ne by exact Hne.
                     destruct Hw2 as [_ Hc]. apply Hc.
           ++ injection Hwc as <-. exact Hw2.
        -- simpl. intros [= <- <-]. split; [exact Hw2 | reflexivity].
    + simpl. rewrite Hres. simpl. intros [= <- <-]. split; [exact Hw2 | reflexivity].
Qed.

End FetchJson.

Section WeatherProps.
Import Py Json Models Exc Dyn Http Nws Spec.
Local Open Scope string_scope.
Context {P : Platform}.

Lemma zoom_bind {Loc W A B} (c : M W A) (k : A -> M (Loc * W) B)
    (l : Loc) (w : W) :
  bind (zoom c) k (l, w) =
  match c w with
  | (Ok a, w') => k a (l, w')
  | (Raise e, w') => (Raise e, (l, w'))
  end.
Proof. unfold bind, zoom. simpl. destruct (c w) as [[a|e] w']; reflexivity. Qed.

Lemma lift_bind {W A B} (r : result A) (k : A -> M W B) (s : W) :
  bind (lift r) k s = match r with Ok a => k a s | Raise e => (Raise e, s) end.
Proof. unfold bind, lift. destruct r; reflexivity. Qed.

Lemma assign_bind {Loc W B} (f : Loc -> Loc) (k : unit -> M (Loc * W) B)
    (l : Loc) (w : W) :
  bind (assign f) k (l, w) = k tt (f l, w).
Proof. reflexivity. Qed.

Lemma locals_bind {Loc W B} (k : Loc -> M (Loc * W) B) (l : Loc) (w : W) :
  bind locals k (l, w) = k l (l, w).
Proof. reflexivity. Qed.

Lemma get_or_obj (f : list (str * json)) (key : string) (dflt : json) :
  get_or (JObj f) key dflt = Ok (default dflt (obj_get f (py key))).
Proof. reflexivity. Qed.

Lemma field_ok_default (f : list (str * json)) (key : string)
    (ok : json -> bool) (dflt : json) :
  field_ok f key ok = true -> ok dflt = true ->
  ok (default dflt (obj_get f (py key))) = true.
Proof. unfold field_ok. destruct (obj_get f (py key)); simpl; auto. Qed.

(** The part of the [try] block after the forecast document has arrived
    cannot raise on a document of the expected shape. *)
Lemma parse_wind_ok (v : json) :
  string_or_falsy v = true -> exists r, _parse_wind v = Ok r.
Proof.
  unfold string_or_falsy, _parse_wind. intros H.
  destruct (truthy v) eqn:Ht; simpl in *; [|eauto].
  destruct v; try discriminate. eauto.
Qed.

Lemma read_current_ok (current : json) (l : Locals) (w : World) :
  period_ok current = true ->
  exists wth, read_current current (l, w)
              = (Ok tt, (mkLocals (forecast_url l) wth, w)).
Proof.
  intros Hok. destruct current as [| | | | | |h]; try discriminate.
  simpl in Hok. apply andb_true_iff in Hok as [Htemp Hwind].
  unfold read_current.
  rewrite lift_bind, get_or_obj. rewrite lift_bind, get_or_obj.
  pose proof (field_ok_default h "temperature" number_or_null JNull Htemp eq_refl) as Ht.
  pose proof (field_ok_default h "windSpeed" string_or_falsy JNull Hwind eq_refl) as Hw.
  destruct (parse_wind_ok _ Hw) as (wind & Hpw).
  set (temp := default JNull (obj_get h (py "temperature"))) in *.
  set (tu := default (JStr (py "F")) (obj_get h (py "temperatureUnit"))).
  assert (Hstep : forall (k : unit -> M LW unit) (l' : Locals),
            exists wth',
              bind (match temp with
                    | JNull => ret tt
                    | _ =>
                        bind (lift (if eq_str tu "C" then to_fahrenheit temp else Ok temp))
                          (fun t => bind (lift (py_float t)) (fun f =>
                           set_weather (fun w0 => mkWeather (Some f) (wind_mph w0)
                              (wind_gust_mph w0) (short_forecast w0)
                              (forecast_period_name w0))))
                    end) k (l', w)
              = k tt (mkLocals (forecast_url l') wth', w)).
  { intros k l'.
    destruct temp; try discriminate Ht.
    - exists (weather l'). destruct l'; reflexivity.
    - destruct (eq_str tu "C"); eexists; reflexivity.
    - destruct (eq_str tu "C"); eexists; reflexivity.
    - destruct (eq_str tu "C"); eexists; reflexivity. }
  destruct (Hstep (fun _ =>
      bind (lift (get_or (JObj h) "windSpeed" JNull)) (fun wind_speed =>
      bind (lift (_parse_wind wind_speed)) (fun wind0 =>
      bind (set_weather (fun w0 => mkWeather (temp_f w0) (fst wind0) (snd wind0)
                           (short_forecast w0) (forecast_period_name w0))) (fun _ =>
      bind (lift (get_or (JObj h) "shortForecast" JNull)) (fun sf =>
      bind (set_weather (fun w0 => mkWeather (temp_f w0) (wind_mph w0)
                           (wind_gust_mph w0) sf (forecast_period_name w0))) (fun _ =>
      bind (lift (get_or (JObj h) "name" JNull)) (fun nm =>
      set_weather (fun w0 => mkWeather (temp_f w0) (wind_mph w0)
                     (wind_gust_mph w0) (short_forecast w0) nm)))))))) l)
    as (wth' & Heq).
  rewrite Heq.
  rewrite lift_bind, get_or_obj. rewrite lift_bind, Hpw.
  eexists. reflexivity.
Qed.

Lemma forecast_string (v : json) :
  string_or_falsy v = true -> truthy v = true ->
  exists c u, v = JStr (c :: u).
Proof.
  unfold string_or_falsy. intros H Ht. rewrite Ht in H. simpl in H.
  destruct v as [| | | |s| |]; try discriminate.
  destruct s as [|c u]; [discriminate Ht|]. eauto.
Qed.

Lemma first_period (v : json) :
  periods_ok v = true -> truthy v = true ->
  exists c rest, v = JArr (c :: rest) /\ period_ok c = true.
Proof.
  unfold periods_ok. intros H Ht. rewrite Ht in H. simpl in H.
  destruct v as [| | | | |l|]; try discriminate.
  destruct l as [|c rest]; [discriminate|]. eauto.
Qed.


End WeatherProps.

Section WeatherExamples.
Import Py Json Models Exc Dyn Http Nws Spec Samples.
Local Open Scope string_scope.

Lemma sample_dumps_ok : @dumps_ok sample_platform.
Proof. intros d d' _ H. discriminate H. Qed.

Lemma weather_world_delivers_ok : @delivers_ok sample_platform weather_world.
Proof.
  split.
  - intros k url st tx d. simpl. unfold weather_net.
    destruct (k <? 1)%nat; intros [= <- <- <-]; reflexivity.
  - intros key f c d H. simpl in H. rewrite lookup_empty in H. discriminate.
Qed.



(** The weather of the sample forecast: 20 degrees Celsius are 68 degrees
    Fahrenheit, and of a wind range the upper bound is kept. *)
Example sample_weather :
  fst (@fetch_weather sample_platform sample_lat sample_lon weather_world)
  = Ok (mkWeather (Some 68%Q) (Some 20%Q) None (JStr (py "Snow"))
          (JStr (py "Tonight")),
        py "https://api.weather.gov/points/39.1,-120.1",
        Some (py "https://api.weather.gov/gridpoints/REV/1,2/forecast")).
Proof. vm_compute. reflexivity. Qed.

End WeatherExamples.

(** ** The orchestrator *)

Section OrchestratorProps.
Import Py Json Models Exc Dyn Adapters Http Nws Output Main Spec.
Local Open Scope string_scope.
Context {P : Platform} {L : PageLib}.

Lemma zoom_run {Loc W A} (c : M W A) (l : Loc) (w w' : W) (r : result A) :
  c w = (r, w') -> zoom c (l, w) = (r, (l, w')).
Proof. intros H. unfold zoom. simpl. rewrite H. reflexivity. Qed.

Lemma bind_ok {W A B} (c : M W A) (k : A -> M W B) (w w' : W) (a : A) :
  c w = (Ok a, w') -> bind c k w = k a w'.
Proof. intros H. unfold bind. rewrite H. reflexivity. Qed.

Lemma bind_raise {W A B} (c : M W A) (k : A -> M W B) (w w' : W) (e : exn) :
  c w = (Raise e, w') -> bind c k w = (Raise e, w').
Proof. intros H. unfold bind. rewrite H. reflexivity. Qed.

(** [fetch] raises nothing but [FetchError]. *)
Lemma fetch_raises_FetchError (url : str) (ttl : Z) (suffix : string)
    (use_cache : bool) (w w' : World) (e : exn) :
  fetch url ttl suffix use_cache w = (Raise e, w') -> is_FetchError e = true.
Proof.
  unfold fetch. unfold bind at 1. rewrite get_cache_path_run.
  unfold bind at 1.
  destruct ((if use_cache then _read_cache (cache_key w url suffix) ttl
             else ret None) w) as [rc wc] eqn:Hrc.
  assert (Hok : exists o, rc = Ok o).
  { destruct use_cache; [rewrite read_cache_run in Hrc|unfold ret in Hrc];
      injection Hrc as <- <-; eauto. }
  destruct Hok as (o & ->). destruct o as [c|]; [discriminate|].
  unfold bind at 1.
  destruct (rate_limit_run url wc) as (w1 & Hrl & _). rewrite Hrl.
  unfold try_except. unfold bind at 1. unfold _fetch_with_retry.
  destruct (retrying (MAX_RETRIES - 1) 1 (fetch_once url) w1) as [r2 w2] eqn:Hr2.
  destruct (retrying_outcome _ _ _ _ _ _ Hr2) as (_ & _ & Hres).
  destruct r2 as [resp|e2].
  - unfold bind at 1. unfold raise_for_status.
    destruct ((400 <=? status resp)%Z && (status resp <? 600)%Z).
    + simpl. intros [= <- <-]. reflexivity.
    + unfold ret at 1. cbv beta iota. unfold bind at 1.
      destruct ((if use_cache
                 then _write_cache (cache_key w url suffix) (response_text resp)
                 else ret ()) w2) as [rw ww] eqn:Hwc.
      assert (Hokw : rw = Ok tt).
      { destruct use_cache.
        - destruct (write_cache_run (cache_key w url suffix) (response_text resp) w2)
            as (w3 & Hw3 & _). rewrite Hw3 in Hwc. congruence.
        - unfold ret in Hwc. congruence. }
      rewrite Hokw. discriminate.
  - rewrite Hres. simpl. intros [= <- <-]. reflexivity.
Qed.

(** [fetch_headless] raises nothing but [FetchError]. *)
Lemma fetch_headless_raises_FetchError (url : str) (ttl : Z) (suffix : string)
    (use_cache : bool) (w w' : World) (e : exn) :
  fetch_headless url ttl suffix use_cache w = (Raise e, w') ->
  is_FetchError e = true.
Proof.
  unfold fetch_headless. destruct HAS_PLAYWRIGHT; cbn [negb].
  2: { intros [= <- <-]. reflexivity. }
  unfold bind at 1. rewrite get_cache_path_run.
  unfold bind at 1.
  destruct ((if use_cache then _read_cache (cache_key w url suffix) ttl
             else ret None) w) as [rc wc] eqn:Hrc.
  assert (Hok : exists o, rc = Ok o).
  { destruct use_cache; [rewrite read_cache_run in Hrc|unfold ret in Hrc];
      injection Hrc as <- <-; eauto. }
  destruct Hok as (o & ->). destruct o as [c|]; [discriminate|].
  unfold bind at 1.
  destruct (rate_limit_run url wc) as (w1 & Hrl & _). rewrite Hrl.
  unfold bind at 1. unfold get at 1.
  destruct (browser w1 url) as [c|].
  - unfold bind at 1.
    destruct ((if use_cache then _write_cache (cache_key w url suffix) c
               else ret ()) w1) as [rw ww] eqn:Hwc.
    assert (Hokw : rw = Ok tt).
    { destruct use_cache.
      - destruct (write_cache_run (cache_key w url suffix) c w1)
          as (w3 & Hw3 & _). rewrite Hw3 in Hwc. congruence.
      - unfold ret in Hwc. congruence. }
    rewrite Hokw. discriminate.
  - intros [= <- <-]. reflexivity.
Qed.

Lemma live_fetch_raises_FetchError (cfg : ResortConfig) (w w' : World) (e : exn) :
  live_fetch cfg w = (Raise e, w') -> is_FetchError e = true.
Proof.
  unfold live_fetch. destruct (requires_headless _).
  - apply fetch_headless_raises_FetchError.
  - apply fetch_raises_FetchError.
Qed.

Lemma fallback_run (slug : string) (v : Vars) (published : Store) (w : World) :
  bind (set_stale true) (fun _ => use_last_known_good slug) (v, (published, w))
  = (Ok tt, (after_fallback published slug v, (published, w))).
Proof.
  unfold after_fallback, last_known_good, use_last_known_good, set_stale,
    set_facts, load_existing_resort.
  rewrite assign_bind. cbv beta. rewrite zoom_bind.
  unfold bind at 1. unfold locals at 1. unfold ret at 1. cbn [fst snd].
  destruct (mjoin (published !! slug)); reflexivity.
Qed.

Lemma parse_returns (a : AdapterClass) (html : str) :
  exists r, parse a html = Ok r.
Proof.
  rewrite parse_unfold. destruct (parse_body a html); eauto.
Qed.

Lemma guarded_acquire_run (cfg : ResortConfig) (v : Vars) (published : Store)
    (w w1 : World) (outcome : result str) :
  live_fetch cfg w = (outcome, w1) ->
  try_except (acquire cfg) is_FetchError
    (fun e => bind (set_stale true) (fun _ => use_last_known_good (cfg_slug cfg)))
    (v, (published, w))
  = (Ok tt, (after_acquire cfg published outcome v,
             (published, if engine_missing cfg then w else w1))).
Proof.
  intros Hf. pose proof Hf as Hlive.
  unfold try_except, after_acquire, engine_missing, acquire.
  unfold live_fetch in Hf.
  assert (Hafter : forall (F : M World str),
            F w = (outcome, w1) ->
            (let (r, lw) :=
               bind (bind (zoom (zoom F)) (fun h => ret (Some h)))
                 (fun html =>
                    bind match html with
                         | None => ret None
                         | Some h =>
                             bind (lift (parse (get_adapter (cfg_kind cfg)) h))
                               (fun r => ret (Some r))
                         end
                      (fun result =>
                         match result with
                         | Some r =>
                             if success r
                             then set_facts (Adapters.ops r) (Adapters.snow r)
                             else bind (set_stale true)
                                    (fun _ => use_last_known_good (cfg_slug cfg))
                         | None => ret tt
                         end)) (v, (published, w)) in
             match r with
             | Ok a => (Ok a, lw)
             | Raise e =>
                 if is_FetchError e
                 then bind (set_stale true)
                        (fun _ => use_last_known_good (cfg_slug cfg)) lw
                 else (Raise e, lw)
             end)
            = (Ok tt,
               (match outcome with
                | Ok html =>
                    match parse (get_adapter (cfg_kind cfg)) html with
                    | Ok r =>
                        if success r
                        then mkVars (v_stale v) (Adapters.ops r) (Adapters.snow r)
                        else after_fallback published (cfg_slug cfg) v
                    | Raise _ => v
                    end
                | Raise _ => after_fallback published (cfg_slug cfg) v
                end, (published, w1)))).
  { intros F HF.
    pose proof (zoom_run _ v _ _ _ (zoom_run _ published _ _ _ HF)) as Hz.
    unfold bind at 1. unfold bind at 1. rewrite Hz.
    destruct outcome as [html|e].
    - unfold ret at 1. cbv beta iota.
      destruct (parse_returns (get_adapter (cfg_kind cfg)) html) as (r & Hr).
      rewrite Hr. unfold bind at 1. unfold bind at 1. unfold lift at 1.
      unfold ret at 1. cbv beta iota.
      destruct (success r).
      + reflexivity.
      + rewrite fallback_run. reflexivity.
    - rewrite (live_fetch_raises_FetchError _ _ _ _ Hlive).
      rewrite fallback_run. reflexivity. }
  destruct (requires_headless (cfg_kind cfg)) eqn:Hh; cbn [andb].
  - destruct HAS_PLAYWRIGHT eqn:Hp; cbn [negb].
    + apply Hafter. exact Hf.
    + reflexivity.
  - apply Hafter. exact Hf.
Qed.

(** The run of [process_resort] once the guarded block has ended. *)
Lemma process_resort_run (cfg : ResortConfig) (published : Store)
    (w w1 w2 : World) (outcome : result str)
    (rw : result (Weather * str * option str)) :
  live_fetch cfg w = (outcome, w1) ->
  fetch_weather (cfg_lat cfg) (cfg_lon cfg) (if engine_missing cfg then w else w1)
    = (rw, w2) ->
  process_resort cfg (published, w)
  = (match rw with
     | Ok wx =>
         Ok (assemble cfg (clock w)
               (after_acquire cfg published outcome
                  (mkVars false Operations_default Snow_default)) wx)
     | Raise e => Raise e
     end, (published, w2)).
Proof.
  intros Hf Hwx. unfold process_resort.
  rewrite zoom_bind. unfold time_time at 1. unfold with_locals.
  unfold bind at 1.
  rewrite (guarded_acquire_run cfg _ published w w1 outcome Hf).
  unfold bind at 1.
  rewrite (zoom_run _ _ _ _ _ (zoom_run _ published _ _ _ Hwx)).
  destruct rw as [wx|e]; reflexivity.
Qed.

(** One turn of the loop of [update_command]: the record of
    [process_resort], or the stale entry when the weather step raises. *)
Lemma process_or_stale_run (cfg : ResortConfig) (published : Store)
    (w w1 w2 : World) (outcome : result str)
    (rw : result (Weather * str * option str)) :
  live_fetch cfg w = (outcome, w1) ->
  fetch_weather (cfg_lat cfg) (cfg_lon cfg) (if engine_missing cfg then w else w1)
    = (rw, w2) ->
  process_or_stale cfg (published, w)
  = (Ok match rw with
        | Ok wx =>
            assemble cfg (clock w)
              (after_acquire cfg published outcome
                 (mkVars false Operations_default Snow_default)) wx
        | Raise _ => stale_entry cfg (clock w2)
        end, (published, w2)).
Proof.
  intros Hf Hwx. unfold process_or_stale, try_except.
  rewrite (process_resort_run cfg published w w1 w2 outcome rw Hf Hwx).
  destruct rw as [wx|e]; reflexivity.
Qed.

Lemma process_or_stale_total (cfg : ResortConfig) (s : Site) :
  exists rec s', process_or_stale cfg s = (Ok rec, s') /\
                 slug rec = cfg_slug cfg.
Proof.
  destruct s as [published w].
  destruct (live_fetch cfg w) as [outcome w1] eqn:Hf.
  destruct (fetch_weather (cfg_lat cfg) (cfg_lon cfg)
              (if engine_missing cfg then w else w1)) as [rw w2] eqn:Hwx.
  rewrite (process_or_stale_run cfg published w w1 w2 outcome rw Hf Hwx).
  do 2 eexists. split; [reflexivity|]. destruct rw; reflexivity.
Qed.

Lemma process_all_total (configs : list ResortConfig) :
  forall s : Site,
    exists results s', process_all configs s = (Ok results, s') /\
                       map slug results = map cfg_slug configs.
Proof.
  induction configs as [|cfg rest IH]; intros s.
  - do 2 eexists. split; reflexivity.
  - destruct (process_or_stale_total cfg s) as (rec & s1 & H1 & Hs).
    destruct (IH s1) as (results & s2 & H2 & Hm).
    exists (rec :: results), s2. split.
    + simpl. rewrite (bind_ok _ _ _ _ _ H1). rewrite (bind_ok _ _ _ _ _ H2).
      reflexivity.
    + simpl. rewrite Hs, Hm. reflexivity.
Qed.


(** C10.  For a resort whose kind is in the headless set, when the
    rendering engine is unavailable, the orchestrator produces a record
    that is stale and whose operations and snow facts are all unknown, and
    that record is the same whatever the store of published records holds:
    the last-known-good store is not consulted. *)
Theorem headless_unavailable_skips_last_known_good (cfg : ResortConfig)
    (published : Store) (w : World) :
  requires_headless (cfg_kind cfg) = true ->
  HAS_PLAYWRIGHT = false ->
  exists rec w',
    process_or_stale cfg (published, w) = (Ok rec, (published, w')) /\
    stale rec = true /\ facts_unknown rec /\
    forall published' : Store,
      process_or_stale cfg (published', w) = (Ok rec, (published', w')).
Proof.
  intros Hh Hp.
  assert (Hem : engine_missing cfg = true).
  { unfold engine_missing. rewrite Hh, Hp. reflexivity. }
  destruct (live_fetch cfg w) as [outcome w1] eqn:Hf.
  destruct (fetch_weather (cfg_lat cfg) (cfg_lon cfg) w) as [rw w2] eqn:Hwx.
  assert (Hrun : forall pub : Store,
            process_or_stale cfg (pub, w)
            = (Ok match rw with
                  | Ok wx => assemble cfg (clock w)
                               (mkVars true Operations_default Snow_default) wx
                  | Raise _ => stale_entry cfg (clock w2)
                  end, (pub, w2))).
  { intros pub.
    rewrite (process_or_stale_run cfg pub w w1 w2 outcome rw Hf).
    - unfold after_acquire. rewrite Hem. reflexivity.
    - rewrite Hem. exact Hwx. }
  do 2 eexists. split; [apply Hrun|].
  split; [|split].
  - destruct rw; reflexivity.
  - destruct rw; split; reflexivity.
  - intros published'. apply Hrun.
Qed.

End OrchestratorProps.

Section OrchestratorExamples.
Import Py Json Models Exc Dyn Adapters Http Nws Output Main Spec Samples.
Local Open Scope string_scope.



(** The record of the witness carries the five open lifts of the previous
    record. *)
Example heavenly_keeps_five_lifts :
  (fun r => match r with
            | Ok rec => (stale rec, lifts_open (Models.ops rec))
            | Raise _ => (false, None)
            end)
    (fst (@process_or_stale sample_platform sample_lib heavenly_config
            (sample_store, forbidden_world)))
  = (true, Some 5%Z).
Proof. vm_compute. reflexivity. Qed.

(** C10, witness: Boreal on a platform without the rendering engine. *)
Lemma headless_unavailable_skips_last_known_good_witness :
  exists rec w',
    @process_or_stale sample_platform sample_lib boreal_config
      (sample_store, weather_world) = (Ok rec, (sample_store, w')) /\
    stale rec = true /\ facts_unknown rec /\
    forall published' : Store,
      @process_or_stale sample_platform sample_lib boreal_config
        (published', weather_world) = (Ok rec, (published', w')).
Proof.
  exact (@headless_unavailable_skips_last_known_good sample_platform sample_lib
           boreal_config sample_store weather_world eq_refl eq_refl).
Defined.

End OrchestratorExamples.

(** * Further properties of the code *)

Section RegexFacts.
Import Py Re Scan.

Lemma star_chr_greedy (p : char -> bool) :
  forall (fuel : nat) (k : K) (s : str) (c : caps),
    (length s <= fuel)%nat ->
    star (run (Chr p)) fuel k s c = greedy p k s c.
Proof.
  induction fuel as [|f IH]; intros k s c Hlen.
  - destruct s; [reflexivity | simpl in Hlen; lia].
  - destruct s as [|x s]; [reflexivity|].
    simpl in Hlen. cbn [star run greedy].
    destruct (p x); [|reflexivity].
    assert (Hlt : Nat.ltb (length s) (length (x :: s)) = true)
      by (apply Nat.ltb_lt; simpl; lia).
    rewrite Hlt, IH by lia. reflexivity.
Qed.

Lemma run_star_chr (p : char -> bool) (k : K) (s : str) (c : caps) :
  run (Star (Chr p)) k s c = greedy p k s c.
Proof. cbn [run]. apply star_chr_greedy. lia. Qed.

Lemma greedy_stop (p : char -> bool) (k : K) (rest : str) (c : caps) :
  stops p rest -> greedy p k rest c = k rest c.
Proof. destruct rest as [|x r]; [reflexivity|]. simpl. intros ->. reflexivity. Qed.

Lemma greedy_app (p : char -> bool) (k : K) (ds rest : str) (c : caps) r :
  forallb p ds = true ->
  greedy p k rest c = Some r ->
  greedy p k (ds ++ rest) c = Some r.
Proof.
  induction ds as [|d ds IH]; intros Hds Hk; [exact Hk|].
  simpl in Hds. apply andb_true_iff in Hds as [Hd Hds].
  simpl. rewrite Hd, (IH Hds Hk). reflexivity.
Qed.

(** A run of the class followed by text that stops it: the greedy star
    hands the rest to the continuation, if that succeeds there. *)
Lemma run_star_run (p : char -> bool) (k : K) (ds rest : str) (c : caps) r :
  forallb p ds = true -> stops p rest ->
  k rest c = Some r ->
  run (Star (Chr p)) k (ds ++ rest) c = Some r.
Proof.
  intros Hds Hstop Hk. rewrite run_star_chr.
  apply greedy_app; [exact Hds|]. rewrite greedy_stop; assumption.
Qed.

Lemma run_plus_run (p : char -> bool) (k : K) (d : char) (ds rest : str)
    (c : caps) r :
  p d = true -> forallb p ds = true -> stops p rest ->
  k rest c = Some r ->
  run (Plus (Chr p)) k (d :: ds ++ rest) c = Some r.
Proof.
  intros Hd Hds Hstop Hk. unfold Plus. cbn [run]. rewrite Hd.
  change (star (run (Chr p)) (length (ds ++ rest)) k (ds ++ rest) c)
    with (run (Star (Chr p)) k (ds ++ rest) c).
  apply run_star_run; assumption.
Qed.

Lemma take_prefix (ds rest : str) :
  take (length (ds ++ rest) - length rest) (ds ++ rest) = ds.
Proof.
  rewrite length_app, Nat.add_sub. apply take_app_length.
Qed.

(** A captured run: the group holds the whole run. *)
Lemma run_group_run (i : nat) (p : char -> bool) (k : K) (ds rest : str)
    (c : caps) r :
  ds <> [] -> forallb p ds = true -> stops p rest ->
  k rest ((i, ds) :: c) = Some r ->
  run (Group i (Plus (Chr p))) k (ds ++ rest) c = Some r.
Proof.
  intros Hne Hds Hstop Hk. destruct ds as [|d ds]; [congruence|].
  simpl in Hds. apply andb_true_iff in Hds as [Hd Hds].
  cbn [run].
  change ((d :: ds) ++ rest) with (d :: ds ++ rest).
  apply (run_plus_run p _ d ds rest c r Hd Hds Hstop).
  change (d :: ds ++ rest) with ((d :: ds) ++ rest).
  rewrite take_prefix. exact Hk.
Qed.

Lemma search_here (r : re) (s : str) (m : caps) :
  match_at r s = Some m -> search r s = Some m.
Proof. intros H. destruct s; simpl; rewrite H; reflexivity. Qed.

End RegexFacts.

Section StripFacts.
Import Py Re Scan.

Lemma digit_not_space (c : char) : is_digit c = true -> is_space c = false.
Proof.
  unfold is_digit, is_space, in_range. intros H.
  apply andb_true_iff in H as [H1 H2].
  apply N.leb_le in H1. apply N.leb_le in H2.
  repeat (apply orb_false_iff; split);
    first [ apply N.eqb_neq; lia
          | apply andb_false_iff; (left; apply N.leb_gt; lia) || (right; apply N.leb_gt; lia) ].
Qed.

Lemma lstrip_stops (s : str) : stops is_space s -> lstrip s = s.
Proof. destruct s as [|x s]; [reflexivity|]. simpl. intros ->. reflexivity. Qed.

Lemma lstrip_spaces (l m : str) :
  forallb is_space l = true -> lstrip (l ++ m) = lstrip m.
Proof.
  induction l as [|x l IH]; intros H; [reflexivity|].
  simpl in H. apply andb_true_iff in H as [Hx Hl].
  simpl. rewrite Hx. auto.
Qed.

Lemma forallb_rev {A} (f : A -> bool) (l : list A) :
  forallb f (rev l) = forallb f l.
Proof.
  induction l as [|x l IH]; [reflexivity|].
  simpl. rewrite forallb_app, IH. simpl. rewrite andb_true_r. apply andb_comm.
Qed.

(** [strip] removes the white space around a text that neither begins nor
    ends with white space. *)
Lemma strip_around (lead core trail : str) :
  forallb is_space lead = true -> forallb is_space trail = true ->
  core <> [] -> stops is_space core -> stops is_space (rev core) ->
  strip (lead ++ core ++ trail) = core.
Proof.
  intros Hl Ht Hne Hc Hr. unfold strip, rstrip.
  rewrite lstrip_spaces by exact Hl.
  destruct core as [|x core]; [congruence|].
  rewrite (lstrip_stops ((x :: core) ++ trail)) by exact Hc.
  rewrite rev_app_distr, lstrip_spaces by (rewrite forallb_rev; exact Ht).
  rewrite (lstrip_stops (rev (x :: core))) by exact Hr. apply rev_involutive.
Qed.

Lemma stops_digits_head (a rest : str) :
  a <> [] -> forallb is_digit a = true -> stops is_space (a ++ rest).
Proof.
  destruct a as [|d a]; [congruence|]. intros _ H. simpl in H.
  apply andb_true_iff in H as [Hd _]. simpl. apply digit_not_space, Hd.
Qed.

Lemma stops_spaces_digit (ws rest : str) :
  forallb is_space ws = true -> stops is_digit rest -> stops is_digit (ws ++ rest).
Proof.
  destruct ws as [|x ws]; [intros _ H; exact H|].
  simpl. intros H _. apply andb_true_iff in H as [Hx _].
  destruct (is_digit x) eqn:E; [|reflexivity].
  apply digit_not_space in E. congruence.
Qed.

End StripFacts.

Section FractionProps.
Import Py Re Scan Fraction.

Lemma run_seq (a b : re) (k : K) (s : str) (c : caps) :
  run (Seq a b) k s c = run a (run b k) s c.
Proof. reflexivity. Qed.

Lemma run_one (x : char) (k : K) (s : str) (c : caps) :
  run (one x) k (x :: s) c = k s c.
Proof. unfold one. cbn [run]. rewrite N.eqb_refl. reflexivity. Qed.


End FractionProps.

Section NoDigit.
Import Py Re Scan Base Fraction.

Lemma run_begins (p : char -> bool) (r : re) :
  begins p r -> forall k s c, stops p s -> run r k s c = None.
Proof.
  induction 1 as [|a b _ IH|a b _ IHa _ IHb|i a _ IH]; intros k s c Hs.
  - destruct s as [|x s]; [reflexivity|]. simpl in *. rewrite Hs. reflexivity.
  - cbn [run]. apply IH, Hs.
  - cbn [run]. rewrite IHa by exact Hs. apply IHb, Hs.
  - cbn [run]. apply IH, Hs.
Qed.

Lemma free_of_stops p s : free_of p s = true -> stops p s.
Proof.
  destruct s as [|x s]; [intros _; exact I|].
  simpl. intros H. apply andb_true_iff in H as [H _].
  apply negb_true_iff in H. exact H.
Qed.

Lemma search_begins (p : char -> bool) (r : re) (s : str) :
  begins p r -> free_of p s = true -> search r s = None.
Proof.
  intros Hb. induction s as [|x s IH]; intros Hs.
  - simpl. unfold match_at. rewrite (run_begins p r Hb) by exact I. reflexivity.
  - cbn [search]. unfold match_at.
    rewrite (run_begins p r Hb) by (apply free_of_stops, Hs).
    simpl. apply IH. simpl in Hs. apply andb_true_iff in Hs as [_ Hs]. exact Hs.
Qed.

Lemma free_of_lstrip p s : free_of p s = true -> free_of p (lstrip s) = true.
Proof.
  induction s as [|x s IH]; intros H; [reflexivity|].
  simpl. destruct (is_space x); [|exact H].
  apply IH. simpl in H. apply andb_true_iff in H as [_ H]. exact H.
Qed.

Lemma free_of_strip p s : free_of p s = true -> free_of p (strip s) = true.
Proof.
  intros H. unfold strip, rstrip, free_of. rewrite forallb_rev.
  apply free_of_lstrip. unfold free_of. rewrite forallb_rev.
  apply free_of_lstrip, H.
Qed.

Lemma lower_char_digit (c : char) : is_digit (lower_char c) = is_digit c.
Proof.
  unfold lower_char. destruct (is_upper c) eqn:E; [|reflexivity].
  unfold is_upper, is_digit, in_range in *.
  apply andb_true_iff in E as [H1 H2].
  apply N.leb_le in H1. apply N.leb_le in H2.
  assert (H3 : (c + 32 <=? 57) = false) by (apply N.leb_gt; lia).
  assert (H4 : (c <=? 57) = false) by (apply N.leb_gt; lia).
  rewrite H3, H4, !andb_false_r. reflexivity.
Qed.

Lemma free_of_lower s : free_of is_digit s = true -> free_of is_digit (lower s) = true.
Proof.
  unfold free_of, lower. induction s as [|x s IH]; [reflexivity|].
  simpl. rewrite lower_char_digit. intros H.
  apply andb_true_iff in H as [Hx Hs]. rewrite Hx. apply IH, Hs.
Qed.

Lemma begins_decimal i : begins is_digit (Group i decimal).
Proof. repeat constructor. Qed.

Lemma begins_digits i : begins is_digit (Group i (Plus digit)).
Proof. repeat constructor. Qed.



End NoDigit.

Section InchesRange.
Import Py Re Scan Base Fraction.

Lemma lstrip_app_stop (l m : str) :
  m <> [] -> stops is_space m -> lstrip (l ++ m) = lstrip l ++ m.
Proof.
  intros Hne Hm. induction l as [|x l IH]; simpl.
  - apply lstrip_stops, Hm.
  - destruct (is_space x); [exact IH|reflexivity].
Qed.

Lemma rstrip_app (core rest : str) :
  core <> [] -> stops is_space (rev core) ->
  rstrip (core ++ rest) = core ++ rstrip rest.
Proof.
  intros Hne Hc. unfold rstrip. rewrite rev_app_distr, lstrip_app_stop.
  - rewrite rev_app_distr, rev_involutive. reflexivity.
  - intros H. apply (f_equal (@rev _)) in H. rewrite rev_involutive in H.
    simpl in H. congruence.
  - exact Hc.
Qed.

Lemma lstrip_suffix (s : str) : exists pre, s = pre ++ lstrip s.
Proof.
  induction s as [|x s [pre IH]]; [exists []; reflexivity|].
  simpl. destruct (is_space x).
  - exists (x :: pre). simpl. f_equal. exact IH.
  - exists []. reflexivity.
Qed.

Lemma rstrip_prefix (s : str) : exists post, s = rstrip s ++ post.
Proof.
  destruct (lstrip_suffix (rev s)) as [pre H].
  exists (rev pre). unfold rstrip.
  rewrite <- rev_app_distr, <- H, rev_involutive. reflexivity.
Qed.

Lemma stops_prefix (p : char -> bool) (s post : str) :
  stops p (s ++ post) -> stops p s.
Proof. destruct s; [intros _; exact I|]. simpl. auto. Qed.

Lemma lower_char_in_number (c : char) : in_number (lower_char c) = in_number c.
Proof.
  unfold in_number. rewrite lower_char_digit. f_equal.
  unfold lower_char. destruct (is_upper c) eqn:E; [|reflexivity].
  unfold is_upper, in_range in E. apply andb_true_iff in E as [H1 H2].
  apply N.leb_le in H1. apply N.leb_le in H2.
  assert (H3 : (46 =? c + 32) = false) by (apply N.eqb_neq; lia).
  assert (H4 : (46 =? c) = false) by (apply N.eqb_neq; lia).
  rewrite H3, H4. reflexivity.
Qed.

Lemma stops_lower (s : str) : stops in_number s -> stops in_number (lower s).
Proof.
  destruct s as [|x s]; [intros _; exact I|].
  simpl. rewrite lower_char_in_number. auto.
Qed.

Lemma stops_in_number (s : str) :
  stops in_number s -> stops is_digit s /\ stops (N.eqb 46) s.
Proof.
  destruct s as [|x s]; [intros _; split; exact I|].
  unfold in_number. simpl. intros H. apply orb_false_iff in H. exact H.
Qed.

Lemma space_not_upper (c : char) : is_space c = true -> is_upper c = false.
Proof.
  intros H. destruct (is_upper c) eqn:E; [|reflexivity].
  unfold is_upper, in_range in E. apply andb_true_iff in E as [H1 H2].
  apply N.leb_le in H1. apply N.leb_le in H2.
  assert (Hf : is_space c = false); [|congruence].
  unfold is_space, in_range.
  repeat (apply orb_false_iff; split);
    first [ apply N.eqb_neq; lia
          | apply andb_false_iff; (left; apply N.leb_gt; lia) || (right; apply N.leb_gt; lia) ].
Qed.

Lemma digit_not_upper (c : char) : is_digit c = true -> is_upper c = false.
Proof.
  unfold is_digit, is_upper, in_range. intros H.
  apply andb_true_iff in H as [H1 H2].
  apply N.leb_le in H1. apply N.leb_le in H2.
  apply andb_false_iff. left. apply N.leb_gt. lia.
Qed.

Lemma lower_id (s : str) : forallb (fun c => negb (is_upper c)) s = true -> lower s = s.
Proof.
  induction s as [|x s IH]; [reflexivity|]. simpl. intros H.
  apply andb_true_iff in H as [Hx Hs]. apply negb_true_iff in Hx.
  unfold lower in *. simpl. unfold lower_char at 1. rewrite Hx, (IH Hs). reflexivity.
Qed.

Lemma no_upper_digits (s : str) :
  forallb is_digit s = true -> forallb (fun c => negb (is_upper c)) s = true.
Proof.
  induction s as [|x s IH]; [reflexivity|]. simpl. intros H.
  apply andb_true_iff in H as [Hx Hs]. rewrite (digit_not_upper x Hx). simpl. auto.
Qed.

Lemma no_upper_spaces (s : str) :
  forallb is_space s = true -> forallb (fun c => negb (is_upper c)) s = true.
Proof.
  induction s as [|x s IH]; [reflexivity|]. simpl. intros H.
  apply andb_true_iff in H as [Hx Hs]. rewrite (space_not_upper x Hx). simpl. auto.
Qed.

Lemma space_not_in_number (c : char) : is_space c = true -> in_number c = false.
Proof.
  intros H. unfold in_number.
  destruct (is_digit c) eqn:Ed; [apply digit_not_space in Ed; congruence|].
  destruct (N.eqb_spec 46 c) as [<-|]; [discriminate H|reflexivity].
Qed.

Lemma stops_spaces_in_number (ws rest : str) :
  forallb is_space ws = true -> stops in_number rest ->
  stops in_number (ws ++ rest).
Proof.
  destruct ws as [|x ws]; [intros _ H; exact H|].
  intros H _. cbn [forallb] in H. apply andb_true_iff in H as [Hx _].
  exact (space_not_in_number x Hx).
Qed.

Lemma run_any_of (cs : list char) (x : char) (k : K) (s : str) (c : caps) :
  existsb (N.eqb x) cs = true -> run (any_of cs) k (x :: s) c = k s c.
Proof. intros H. unfold any_of. cbn [run]. rewrite H. reflexivity. Qed.

(** An integer matched by the decimal pattern: the digits, when what
    follows is neither a digit nor a decimal point. *)
Lemma run_group_decimal (i : nat) (k : K) (ds rest : str) (c : caps) r :
  ds <> [] -> forallb is_digit ds = true -> stops in_number rest ->
  k rest ((i, ds) :: c) = Some r ->
  run (Group i decimal) k (ds ++ rest) c = Some r.
Proof.
  intros Hne Hds Hstop Hk. apply stops_in_number in Hstop as [Hd Hp].
  destruct ds as [|d ds]; [congruence|].
  simpl in Hds. apply andb_true_iff in Hds as [Hd0 Hds].
  unfold decimal. cbn [run].
  change ((d :: ds) ++ rest) with (d :: ds ++ rest).
  apply (run_plus_run is_digit _ d ds rest c r Hd0 Hds Hd).
  unfold Opt. cbn [run].
  assert (Hno : forall k', run (Chr (N.eqb 46)) k' rest c = None).
  { intros k'. destruct rest as [|x rest]; [reflexivity|].
    cbv beta iota delta [stops] in Hp. cbn [run]. rewrite Hp. reflexivity. }
  unfold one. rewrite Hno.
  change (d :: ds ++ rest) with ((d :: ds) ++ rest).
  rewrite take_prefix. exact Hk.
Qed.

Lemma float_of_digits_int (ds : str) :
  forallb is_digit ds = true ->
  (float_of_decimal ds == inject_Z (int_of_digits ds))%Q.
Proof.
  intros Hds. unfold float_of_decimal.
  assert (Hl : leading_digits ds = ds).
  { induction ds as [|d ds IH]; [reflexivity|]. simpl in *.
    apply andb_true_iff in Hds as [Hd Hds]. rewrite Hd, (IH Hds). reflexivity. }
  rewrite Hl. rewrite drop_ge by lia.
  rewrite Qred_correct.
  change (int_of_digits []) with 0%Z. change (10 ^ Z.of_nat (length (@nil N)))%Z with 1%Z.
  change (inject_Z 0 / inject_Z 1)%Q with 0%Q. apply Qplus_0_r.
Qed.


End InchesRange.

Section TextFacts.
Import Py Re Scan Base Adapters.

Lemma starts_with_iff (p s : str) :
  starts_with p s = true <-> exists r, s = p ++ r.
Proof.
  revert s. induction p as [|a p IH]; intros s; simpl.
  - split; [intros _; exists s; reflexivity|reflexivity].
  - destruct s as [|b s].
    + split; [discriminate|intros [r H]; discriminate].
    + rewrite andb_true_iff, N.eqb_eq, IH. split.
      * intros [-> [r ->]]. exists r. reflexivity.
      * intros [r H]. injection H as -> ->. split; [reflexivity|exists r; reflexivity].
Qed.

Lemma contains_iff (n s : str) :
  contains n s = true <-> exists l r, s = l ++ n ++ r.
Proof.
  induction s as [|x s IH].
  - simpl. rewrite orb_false_r, starts_with_iff. split.
    + intros [r H]. exists [], r. exact H.
    + intros (l & r & H). destruct l; [exists r; exact H|discriminate].
  - cbn [contains]. rewrite orb_true_iff, starts_with_iff, IH. split.
    + intros [[r H]|(l & r & H)].
      * exists [], r. exact H.
      * exists (x :: l), r. simpl. rewrite H. reflexivity.
    + intros (l & r & H). destruct l as [|y l].
      * left. exists r. exact H.
      * right. injection H as -> ->. exists l, r. reflexivity.
Qed.

Lemma strip_infix (s : str) : exists pre post, s = pre ++ strip s ++ post.
Proof.
  destruct (lstrip_suffix s) as [pre H1].
  destruct (rstrip_prefix (lstrip s)) as [post H2].
  exists pre, post. unfold strip. rewrite <- H2. exact H1.
Qed.

(** A phrase that neither begins nor ends with white space is found in a
    text exactly when it is found in the stripped text. *)
Lemma contains_strip (n s : str) :
  n <> [] -> stops is_space n -> stops is_space (rev n) ->
  contains n (strip s) = contains n s.
Proof.
  intros Hne Hh Hl. apply eq_true_iff_eq. rewrite !contains_iff. split.
  - intros (l & r & H). destruct (strip_infix s) as (pre & post & Hs).
    exists (pre ++ l), (r ++ post). rewrite Hs, H, <- !app_assoc. reflexivity.
  - intros (l & r & ->). exists (lstrip l), (rstrip r).
    unfold strip. rewrite lstrip_app_stop.
    + rewrite (app_assoc (lstrip l) n r), rstrip_app.
      * rewrite <- app_assoc. reflexivity.
      * destruct n; [congruence|]. destruct (lstrip l); discriminate.
      * rewrite rev_app_distr. destruct (rev n) eqn:E.
        { apply (f_equal (@rev _)) in E. rewrite rev_involutive in E.
          simpl in E. congruence. }
        exact Hl.
    + destruct n; [congruence|discriminate].
    + destruct n; [congruence|exact Hh].
Qed.

Lemma lower_char_space (c : char) : is_space (lower_char c) = is_space c.
Proof.
  unfold lower_char. destruct (is_upper c) eqn:E; [|reflexivity].
  assert (Hc : is_space c = false).
  { destruct (is_space c) eqn:Es; [|reflexivity].
    apply space_not_upper in Es. congruence. }
  rewrite Hc. unfold is_upper, in_range in E. apply andb_true_iff in E as [H1 H2].
  apply N.leb_le in H1. apply N.leb_le in H2.
  unfold is_space, in_range.
  repeat (apply orb_false_iff; split);
    first [ apply N.eqb_neq; lia
          | apply andb_false_iff; (left; apply N.leb_gt; lia) || (right; apply N.leb_gt; lia) ].
Qed.

Lemma lower_lstrip (s : str) : lower (lstrip s) = lstrip (lower s).
Proof.
  induction s as [|x s IH]; [reflexivity|].
  simpl. rewrite lower_char_space. destruct (is_space x); [exact IH|reflexivity].
Qed.

Lemma lower_strip (s : str) : lower (strip s) = strip (lower s).
Proof.
  unfold strip, rstrip. unfold lower at 1. rewrite map_rev.
  fold (lower (lstrip (rev (lstrip s)))). rewrite lower_lstrip.
  unfold lower at 1. rewrite map_rev. fold (lower (lstrip s)).
  rewrite lower_lstrip. reflexivity.
Qed.

(** ** [parse_bool_status] *)

(** X5: the status words.  [parse_bool_status] decides on the
    lower-cased text, whatever white space surrounds it: a negative
    phrase gives [False] even when a positive word is present too;
    otherwise a positive word gives [True]; otherwise the answer is
    [None]. *)
Theorem parse_bool_status_rule (t : str) :
  parse_bool_status (Some t) =
    if any_in ["not operating"; "closed"; "not open"]%string (lower t)
    then Some false
    else if any_in ["open"; "yes"; "operating"]%string (lower t)
    then Some true
    else None.
Proof.
  destruct t as [|x t]; [reflexivity|].
  unfold parse_bool_status. rewrite lower_strip.
  unfold any_in. cbn [existsb].
  rewrite !contains_strip by
    (first [ discriminate | reflexivity ]).
  reflexivity.
Qed.

(** ** [clean_text] *)

Lemma split_ws_words (s : str) :
  forall cur, forallb (fun c => negb (is_space c)) cur = true ->
              Forall word_ok (split_ws cur s).
Proof.
  induction s as [|x s IH]; intros cur Hcur; simpl.
  - destruct cur as [|y cur]; [constructor|].
    constructor; [|constructor]. split.
    + intros H. apply (f_equal (@rev _)) in H. rewrite rev_involutive in H.
      discriminate H.
    + rewrite forallb_rev. exact Hcur.
  - destruct (is_space x) eqn:Ex.
    + destruct cur as [|y cur]; [apply IH; reflexivity|].
      constructor; [|apply IH; reflexivity]. split.
      * intros H. apply (f_equal (@rev _)) in H. rewrite rev_involutive in H.
        discriminate H.
      * rewrite forallb_rev. exact Hcur.
    + apply IH. simpl. rewrite Ex. exact Hcur.
Qed.

Lemma split_ws_word (w : str) :
  forallb (fun c => negb (is_space c)) w = true ->
  forall cur s, split_ws cur (w ++ s) = split_ws (rev w ++ cur) s.
Proof.
  induction w as [|x w IH]; intros Hw cur s; [reflexivity|].
  simpl in Hw. apply andb_true_iff in Hw as [Hx Hw]. apply negb_true_iff in Hx.
  simpl. rewrite Hx, (IH Hw). rewrite <- app_assoc. reflexivity.
Qed.

Lemma split_ws_join (ws : list str) :
  Forall word_ok ws -> split_ws [] (join_sp ws) = ws.
Proof.
  induction 1 as [|w ws [Hne Hw] Hws IH]; [reflexivity|].
  destruct ws as [|w' ws].
  - simpl. rewrite <- (app_nil_r w) at 1. rewrite split_ws_word by exact Hw.
    rewrite app_nil_r. simpl.
    destruct (rev w) eqn:E.
    + apply (f_equal (@rev _)) in E. rewrite rev_involutive in E. simpl in E. congruence.
    + rewrite <- E, rev_involutive. reflexivity.
  - change (join_sp (w :: w' :: ws)) with (w ++ 32 :: join_sp (w' :: ws)).
    rewrite split_ws_word by exact Hw. rewrite app_nil_r.
    cbn [split_ws]. change (is_space 32) with true. cbv iota.
    destruct (rev w) eqn:E.
    + apply (f_equal (@rev _)) in E. rewrite rev_involutive in E. simpl in E. congruence.
    + rewrite <- E, rev_involutive, IH. reflexivity.
Qed.

Lemma clean_text_join (t : str) : clean_text (Some t) = join_sp (split_ws [] t).
Proof. destruct t; reflexivity. Qed.

(** X6: [clean_text] normalises white space.  The cleaned text has
    the same words in the same order as the text, and cleaning it again
    changes nothing. *)
Theorem clean_text_normalises (t : str) :
  split_ws [] (clean_text (Some t)) = split_ws [] t /\
  clean_text (Some (clean_text (Some t))) = clean_text (Some t).
Proof.
  assert (H : split_ws [] (clean_text (Some t)) = split_ws [] t).
  { rewrite clean_text_join. apply split_ws_join, split_ws_words. reflexivity. }
  split; [exact H|].
  rewrite (clean_text_join (clean_text (Some t))), H, clean_text_join. reflexivity.
Qed.

Lemma clean_text_fixed (text : option str) :
  clean_text (Some (clean_text text)) = clean_text text.
Proof.
  destruct text as [t|]; [|reflexivity].
  rewrite (clean_text_join (clean_text (Some t))), clean_text_join.
  rewrite split_ws_join by (apply split_ws_words; reflexivity). reflexivity.
Qed.

End TextFacts.

Section SurfaceProps.
Import Py Re Scan Base Adapters.

(** X7: the surface description is short and clean.  A description
    returned by [_find_surface] has fewer than 50 characters, and
    [clean_text] leaves it as it is. *)
Theorem find_surface_short (text s : str) :
  _find_surface text = Some s ->
  (length s < 50)%nat /\ clean_text (Some s) = s.
Proof.
  unfold _find_surface.
  match goal with |- first_short ?l _ = _ -> _ => generalize l end.
  intros patterns. induction patterns as [|r rest IH]; [discriminate|].
  simpl. destruct (search r text) as [m|]; [|exact IH].
  destruct (Nat.ltb_spec (length (clean_text (group m 1))) 50) as [Hlt|_]; [|exact IH].
  intros [= <-]. split; [exact Hlt|apply clean_text_fixed].
Qed.

(** X7, witness. *)
Lemma find_surface_short_witness :
  _find_surface (py "Surface:  Packed   Powder. Base 40") = Some (py "Packed Powder") /\
  (length (py "Packed Powder") < 50)%nat /\
  clean_text (Some (py "Packed Powder")) = py "Packed Powder".
Proof.
  split; [vm_compute; reflexivity|].
  apply (find_surface_short (py "Surface:  Packed   Powder. Base 40")).
  vm_compute. reflexivity.
Defined.

End SurfaceProps.

Section RegistryProps.
Import Py Adapters.
Local Open Scope string_scope.

(** X8: unknown kinds.  A kind that is not registered gets the
    generic adapter and is fetched without the rendering engine: every
    kind of [HEADLESS_ADAPTERS] is a key of [ADAPTER_REGISTRY]. *)
Theorem unknown_kind_is_generic (kind : string) :
  ADAPTER_REGISTRY !! kind = None ->
  get_adapter kind = GenericHTMLAdapter /\ requires_headless kind = false.
Proof.
  intros H. split.
  - unfold get_adapter. rewrite H. reflexivity.
  - unfold requires_headless. apply bool_decide_eq_false. intros Hin.
    unfold HEADLESS_ADAPTERS in Hin.
    rewrite !elem_of_union, !elem_of_singleton in Hin.
    destruct Hin as [[[->| ->]| ->]| ->]; vm_compute in H; discriminate H.
Qed.

(** X8, witness. *)
Lemma unknown_kind_is_generic_witness :
  get_adapter "kirkwood" = GenericHTMLAdapter /\ requires_headless "kirkwood" = false.
Proof. apply unknown_kind_is_generic. vm_compute. reflexivity. Defined.

End RegistryProps.

Section MtRoseLifts.
Import Py Re Adapters.
Local Open Scope Z_scope.

Lemma count_lift_step (text : str) (acc : Z * Z) (name : string) :
  0 <= fst acc <= snd acc ->
  0 <= fst (count_lift text acc name) <= snd (count_lift text acc name) /\
  snd acc <= snd (count_lift text acc name) <= snd acc + 1.
Proof.
  destruct acc as [o t]. unfold count_lift. simpl. intros H.
  destruct (search _ text); [|simpl; lia].
  destruct (_ || _); simpl; lia.
Qed.

Lemma count_lifts_fold (text : str) (names : list string) :
  forall acc, 0 <= fst acc <= snd acc ->
    let r := fold_left (count_lift text) names acc in
    0 <= fst r <= snd r /\ snd acc <= snd r <= snd acc + Z.of_nat (length names).
Proof.
  induction names as [|n names IH]; intros acc H; simpl.
  - lia.
  - destruct (count_lift_step text acc n H) as [H1 H2].
    specialize (IH _ H1). simpl in IH. lia.
Qed.

(** X9: the Mt Rose lift counts are coherent.  [_count_lifts] returns
    both counts or neither; when it returns counts, the open count lies
    between 0 and the total, and the total between 1 and the number of
    known lift names. *)
Theorem count_lifts_bounds (text : str) :
  match _count_lifts text with
  | (Some lifts_open, Some lifts_total) =>
      0 <= lifts_open <= lifts_total /\
      1 <= lifts_total <= Z.of_nat (length LIFT_NAMES)
  | (None, None) => True
  | _ => False
  end.
Proof.
  unfold _count_lifts.
  pose proof (count_lifts_fold text LIFT_NAMES (0, 0) ltac:(simpl; lia)) as H.
  cbv zeta in H. destruct (fold_left (count_lift text) LIFT_NAMES (0, 0)) as [o t].
  cbn [fst snd] in H. change (Z.of_nat (length LIFT_NAMES)) with 8 in *.
  destruct (Z.eqb_spec t 0); [exact I|]. lia.
Qed.

End MtRoseLifts.

Section FetchMore.
Import Py Json Models Exc Http Spec Waits.
Local Open Scope string_scope.
Context {P : Platform}.

Lemma Qltb_spec (a b : Q) : if Qltb a b then (a < b)%Q else (b <= a)%Q.
Proof.
  unfold Qltb. destruct (Qle_bool b a) eqn:E; simpl.
  - apply Qle_bool_iff. exact E.
  - apply Qnot_le_lt. intros H. apply Qle_bool_iff in H. congruence.
Qed.


(** What the fetch functions need of the rate limiter. *)
Lemma rate_limit_clock (url : str) (w : World) :
  exists w',
    _rate_limit url w = (Ok tt, w') /\ (clock w <= clock w')%Q /\
    calls w' = calls w /\ cache w' = cache w /\ same_environment w w'.
Proof.
  unfold _rate_limit, bind, get, time_time, sleep, modify, ret.
  set (last := default 0%Q (last_request_time w !! netloc url)).
  pose proof (Qltb_spec (clock w - last) RATE_LIMIT_DELAY) as H.
  destruct (Qltb (clock w - last) RATE_LIMIT_DELAY);
    eexists; (split; [reflexivity|]); simpl; repeat split; lra.
Qed.

Lemma backoff_pos (n : nat) : (1 <= backoff n)%Q.
Proof.
  unfold backoff, qmax. destruct (Qle_bool 1 _) eqn:E.
  - apply Qle_bool_iff. exact E.
  - lra.
Qed.

Lemma waits_nonneg (r n : nat) : (0 <= waits r n)%Q.
Proof.
  revert n. induction r as [|r IH]; intros n; simpl; [lra|].
  pose proof (backoff_pos n). pose proof (IH (S n)). lra.
Qed.

Lemma fetch_once_world (url : str) (w : World) :
  exists x, fetch_once url w = (x, set_calls w (S (calls w))) /\
            match x with
            | Ok resp => net w (calls w) url
                         = Responds (status resp) (response_text resp) (response_json resp)
                         /\ ~ (500 <= status resp < 600)%Z
            | Raise e => is_RequestException e = true /\ fails_at w (calls w) url
            end.
Proof.
  unfold fetch_once, bind, requests_get, fails_at.
  destruct (net w (calls w) url) as [st tx js|msg]; simpl.
  - destruct (500 <=? st)%Z eqn:E1; destruct (st <? 600)%Z eqn:E2; simpl;
      eexists; (split; [reflexivity|]); simpl.
    + split; [reflexivity|]. apply Z.leb_le in E1. apply Z.ltb_lt in E2. lia.
    + split; [reflexivity|]. apply Z.ltb_ge in E2. lia.
    + split; [reflexivity|]. apply Z.leb_gt in E1. lia.
    + split; [reflexivity|]. apply Z.leb_gt in E1. lia.
  - eexists; split; [reflexivity|]. split; [reflexivity|exact I].
Qed.

(** The retry loop: the number of transport calls and the clock. *)
Lemma retrying_calls (url : str) :
  forall (remaining attempt_number : nat) (w w' : World) (r : result Response),
    retrying remaining attempt_number (fetch_once url) w = (r, w') ->
    (calls w < calls w' <= calls w + remaining + 1)%nat /\
    (clock w <= clock w')%Q.
Proof.
  induction remaining as [|rem IH]; intros n w w' r H;
    rewrite retrying_unfold in H; unfold try_except in H;
    destruct (fetch_once_world url w) as (x & Hx & Hprop); rewrite Hx in H;
    destruct x as [resp|e].
  - injection H as <- <-. simpl. split; [lia|lra].
  - destruct Hprop as [He _]. rewrite He in H. injection H as <- <-.
    simpl. split; [lia|lra].
  - injection H as <- <-. simpl. split; [lia|lra].
  - destruct Hprop as [He _]. rewrite He in H.
    unfold bind, sleep, modify in H. apply IH in H. simpl in H.
    pose proof (backoff_pos n). split; [lia|lra].
Qed.

Lemma retrying_all_fail (url : str) :
  forall (remaining attempt_number : nat) (w : World),
    (forall i, (i <= remaining)%nat -> fails_at w (calls w + i) url) ->
    exists e w',
      retrying remaining attempt_number (fetch_once url) w = (Raise e, w') /\
      is_RequestException e = true /\
      calls w' = (calls w + remaining + 1)%nat /\
      cache w' = cache w /\ same_environment w w' /\
      (clock w' == clock w + waits remaining attempt_number)%Q.
Proof.
  induction remaining as [|rem IH]; intros n w Hf;
    rewrite retrying_unfold; unfold try_except;
    destruct (fetch_once_world url w) as (x & Hx & Hprop); rewrite Hx;
    pose proof (Hf O ltac:(lia)) as H0; rewrite Nat.add_0_r in H0;
    (destruct x as [resp|e];
     [exfalso; destruct Hprop as [Hn Hst]; unfold fails_at in H0;
      rewrite Hn in H0; exact (Hst H0)|]);
    destruct Hprop as [He _]; rewrite He.
  - do 2 eexists. split; [reflexivity|]. simpl.
    repeat split; [exact He|lia|lra].
  - unfold bind, sleep, modify.
    set (w1 := set_clock (set_calls w (S (calls w))) _).
    destruct (IH (S n) w1) as (e' & w' & Hr & He' & Hc & Hca & Henv & Hcl).
    { intros i Hi. specialize (Hf (S i) ltac:(lia)). unfold fails_at in *.
      simpl. replace (S (calls w + i)) with (calls w + S i)%nat by lia. exact Hf. }
    exists e', w'. split; [exact Hr|]. simpl in Hc, Hca, Hcl.
    split; [exact He'|]. split; [lia|]. split; [exact Hca|].
    split; [exact Henv|]. simpl. lra.
Qed.

Lemma waits_three : (waits (MAX_RETRIES - 1) 1 == 6)%Q.
Proof. vm_compute. reflexivity. Qed.


(** What every [fetch] does to the world. *)
Lemma fetch_outcome (url : str) (ttl : Z) (suffix : string) (use_cache : bool)
    (w w' : World) (r : result str) :
  fetch url ttl suffix use_cache w = (r, w') ->
  (calls w <= calls w' <= calls w + MAX_RETRIES)%nat /\
  (clock w <= clock w')%Q /\
  match r with
  | Raise e => is_FetchError e = true /\ cache w' = cache w
  | Ok _ => True
  end.
Proof.
  unfold fetch. unfold bind at 1. rewrite get_cache_path_run.
  unfold bind at 1.
  destruct ((if use_cache then _read_cache (cache_key w url suffix) ttl
             else ret None) w) as [rc wc] eqn:Hread.
  assert (Hwc : wc = w /\ exists o, rc = Ok o).
  { destruct use_cache.
    - rewrite read_cache_run in Hread. injection Hread as <- <-. eauto.
    - injection Hread as <- <-. eauto. }
  destruct Hwc as [-> [o ->]].
  destruct o as [c|].
  { intros [= <- <-]. unfold MAX_RETRIES. split; [lia|]. split; [lra|exact I]. }
  unfold bind at 1.
  destruct (rate_limit_clock url w) as (w1 & Hrl & Hclk & Hc & Hca & _).
  rewrite Hrl. unfold try_except. unfold bind at 1. unfold _fetch_with_retry.
  destruct (retrying (MAX_RETRIES - 1) 1 (fetch_once url) w1) as [rr w2] eqn:Hret.
  destruct (retrying_calls _ _ _ _ _ _ Hret) as [Hcalls Hclock].
  destruct (retrying_outcome _ _ _ _ _ _ Hret) as (Hcache & _ & Hres).
  destruct rr as [resp|e].
  - unfold bind at 1, raise_for_status.
    destruct ((400 <=? status resp)%Z && (status resp <? 600)%Z).
    + unfold raise. simpl. intros [= <- <-].
      unfold MAX_RETRIES in *. split; [lia|]. split; [lra|].
      split; [reflexivity|congruence].
    + unfold ret at 1. unfold bind at 1.
      destruct (write_cache_run (cache_key w url suffix) (response_text resp) w2)
        as (w3 & Hw & Hc3 & _ & _).
      assert (Hclk3 : clock w3 = clock w2).
      { revert Hw. unfold _write_cache, modify.
        destruct (cache_writable w2); intros [= <-]; reflexivity. }
      destruct use_cache.
      * rewrite Hw. unfold ret. intros [= <- <-].
        unfold MAX_RETRIES in *. split; [lia|]. split; [rewrite Hclk3; lra|exact I].
      * unfold ret. unfold bind. intros [= <- <-].
        unfold MAX_RETRIES in *. split; [lia|]. split; [lra|exact I].
  - rewrite Hres. unfold raise. intros [= <- <-].
    unfold MAX_RETRIES in *. split; [lia|]. split; [lra|].
    split; [reflexivity|congruence].
Qed.

(** X12: the transport calls of one [fetch].  Whatever the cache and
    the network do, [fetch] issues at most [MAX_RETRIES] transport calls,
    and the clock does not go back. *)
Theorem fetch_call_bound (url : str) (ttl : Z) (suffix : string)
    (use_cache : bool) (w : World) :
  let w' := snd (fetch url ttl suffix use_cache w) in
  (calls w <= calls w' <= calls w + MAX_RETRIES)%nat /\ (clock w <= clock w')%Q.
Proof.
  destruct (fetch url ttl suffix use_cache w) as [r w'] eqn:H.
  apply fetch_outcome in H. simpl. tauto.
Qed.


End FetchMore.

Section CacheProps.
Import Py Json Models Exc Http Spec Waits Samples Fixtures.
Local Open Scope string_scope.
Context {P : Platform}.


(** X15: a cache entry that does not decode.  When the fresh entry of
    a URL is not JSON, [fetch_json] goes to the network: with an answer
    below 400 that carries a document, it returns the document after one
    transport call and overwrites the entry. *)
Theorem fetch_json_refetches_corrupt_cache (url : str) (ttl : Z) (w : World)
    (c : str) (st : Z) (tx : str) (d : json) :
  cache_read w (cache_key w url "_json") ttl = Some c ->
  json_loads c = None ->
  net w (calls w) url = Responds st tx (Some d) ->
  ~ (400 <= st < 600)%Z ->
  cache_writable w = true ->
  exists w',
    fetch_json url ttl w = (Ok d, w') /\
    calls w' = (calls w + 1)%nat /\
    exists t, cache w' !! cache_key w url "_json"
              = Some (mkCacheFile t (Some (json_dumps d))).
Proof.
  intros Hread Hbad Hnet Hst Hw.
  unfold fetch_json. unfold bind at 1. rewrite get_cache_path_run.
  unfold bind at 1. rewrite read_cache_run, Hread. simpl mbind. 
  change (Some c ≫= json_loads) with (json_loads c). rewrite Hbad.
  unfold bind at 1.
  destruct (rate_limit_run url w) as (w1 & Hrl & Hc & Hca & Henv).
  rewrite Hrl.
  destruct (retrying_after_5xx url st tx (Some d) 0 (MAX_RETRIES - 1) 1 w1)
    as (w2 & Hr & Hcalls & Hcache & Henv2).
  - lia.
  - intros i Hi. lia.
  - destruct Henv as (-> & _). rewrite Hc, Nat.add_0_r. exact Hnet.
  - lia.
  - unfold try_except. unfold bind at 1. unfold _fetch_with_retry. rewrite Hr.
    unfold bind at 1. rewrite raise_for_status_ok by (simpl; exact Hst).
    cbn [response_json]. unfold bind at 1.
    destruct (write_cache_run (cache_key w url "_json") (json_dumps d) w2)
      as (w3 & Hwr & Hc3 & _ & Hlook).
    rewrite Hwr. unfold ret. eexists. split; [reflexivity|].
    split; [lia|]. eexists. apply Hlook.
    destruct Henv2 as (_ & _ & ->). destruct Henv as (_ & _ & ->). exact Hw.
Qed.

End CacheProps.

Section CacheExamples.
Import Py Json Models Exc Http Spec Waits Samples Fixtures.
Local Open Scope string_scope.


(** X15, witness. *)
Lemma fetch_json_refetches_corrupt_cache_witness :
  exists w',
    @fetch_json sample_platform sample_url 3600 corrupt_cache_world
      = (Ok points_doc, w') /\
    calls w' = (calls corrupt_cache_world + 1)%nat /\
    exists t, cache w' !! @cache_key sample_platform corrupt_cache_world sample_url "_json"
              = Some (mkCacheFile t (Some (@json_dumps sample_platform points_doc))).
Proof.
  apply (@fetch_json_refetches_corrupt_cache sample_platform sample_url 3600
           corrupt_cache_world (py "{not json") 200 [] points_doc).
  - vm_compute. reflexivity.
  - reflexivity.
  - reflexivity.
  - lia.
  - reflexivity.
Defined.


End CacheExamples.

Section WindProps.
Import Py Re Scan Json Exc Nws.
Local Open Scope string_scope.
Local Open Scope N_scope.
Local Open Scope list_scope.

Lemma begins_gust : begins is_g gust_pattern.
Proof. unfold gust_pattern. cbn [seqs]. repeat constructor. Qed.

Lemma digit_not_g (c : char) : is_digit c = true -> is_g c = false.
Proof.
  intros H. pose proof (digit_not_upper c H) as Hu.
  unfold is_g, lower_char at 1. rewrite Hu.
  unfold is_digit, in_range in H. apply andb_true_iff in H as [H1 H2].
  apply N.leb_le in H1. apply N.leb_le in H2.
  apply N.eqb_neq. change (lower_char 103) with 103. lia.
Qed.

Lemma space_not_g (c : char) : is_space c = true -> is_g c = false.
Proof.
  intros H. pose proof (space_not_upper c H) as Hu.
  unfold is_g, lower_char at 1. rewrite Hu. change (lower_char 103) with 103.
  destruct (N.eqb_spec c 103) as [->|]; [discriminate H|reflexivity].
Qed.

Lemma free_of_g_digits (s : str) : forallb is_digit s = true -> free_of is_g s = true.
Proof.
  unfold free_of. induction s as [|x s IH]; [reflexivity|]. simpl. intros H.
  apply andb_true_iff in H as [Hx Hs]. rewrite (digit_not_g x Hx). simpl. auto.
Qed.

Lemma free_of_g_spaces (s : str) : forallb is_space s = true -> free_of is_g s = true.
Proof.
  unfold free_of. induction s as [|x s IH]; [reflexivity|]. simpl. intros H.
  apply andb_true_iff in H as [Hx Hs]. rewrite (space_not_g x Hx). simpl. auto.
Qed.

Lemma free_of_app p (a b : str) : free_of p (a ++ b) = free_of p a && free_of p b.
Proof. apply forallb_app. Qed.

Lemma stops_spaces_then (p : char -> bool) (ws rest : str) :
  (forall c, is_space c = true -> p c = false) ->
  forallb is_space ws = true -> stops p rest -> stops p (ws ++ rest).
Proof.
  intros Hp. destruct ws as [|x ws]; [intros _ H; exact H|].
  intros H _. cbn [forallb] in H. apply andb_true_iff in H as [Hx _].
  exact (Hp x Hx).
Qed.

Lemma space_not_digit (c : char) : is_space c = true -> is_digit c = false.
Proof.
  intros H. destruct (is_digit c) eqn:E; [|reflexivity].
  apply digit_not_space in E. congruence.
Qed.

Lemma run_one_i_chars (cs : str) (k : K) (s : str) (c : caps) :
  run (seqs (map one_i cs)) k (cs ++ s) c = k s c.
Proof.
  induction cs as [|x cs IH]; [reflexivity|].
  cbn [map seqs]. destruct cs as [|y cs].
  - cbn [map app]. unfold one_i. cbn [run]. rewrite N.eqb_refl. reflexivity.
  - cbn [map] in *. rewrite run_seq. unfold one_i at 1. cbn [run app].
    rewrite N.eqb_refl. exact IH.
Qed.

Lemma run_alt (a b : re) (k : K) (s : str) (c : caps) :
  run (Alt a b) k s c =
  match run a k s c with
  | Some x => Some x
  | None => run b k s c
  end.
Proof. reflexivity. Qed.

(** A literal under [re.IGNORECASE] matches itself. *)
Lemma run_lit_i (l : string) (k : K) (s : str) (c : caps) :
  run (lit_i l) k (py l ++ s) c = k s c.
Proof. apply run_one_i_chars. Qed.

(** X16: a wind range.  For a text [A to B mph], with any white space
    between its parts, [_parse_wind] returns the second number as the
    wind speed, and no gust. *)
Theorem parse_wind_range (a ws1 ws2 b ws3 : str) :
  a <> [] -> forallb is_digit a = true ->
  b <> [] -> forallb is_digit b = true ->
  forallb is_space ws1 = true -> forallb is_space ws2 = true ->
  forallb is_space ws3 = true ->
  _parse_wind (JStr (a ++ ws1 ++ py "to" ++ ws2 ++ b ++ ws3 ++ py "mph"))
  = Ok (Some (float_of_digits b), None).
Proof.
  intros Ha Hda Hb Hdb Hws1 Hws2 Hws3.
  unfold _parse_wind.
  assert (Ht : truthy (JStr (a ++ ws1 ++ py "to" ++ ws2 ++ b ++ ws3 ++ py "mph")) = true).
  { destruct a; [congruence|reflexivity]. }
  rewrite Ht. cbn [negb]. unfold parse_wind_text.
  rewrite (search_begins is_g gust_pattern) by
    (first [ exact begins_gust
           | rewrite !free_of_app, (free_of_g_digits a Hda), (free_of_g_digits b Hdb),
               (free_of_g_spaces ws1 Hws1), (free_of_g_spaces ws2 Hws2),
               (free_of_g_spaces ws3 Hws3); reflexivity ]).
  rewrite (search_here _ _ [(2%nat, b); (1%nat, a)]).
  { destruct b as [|d b']; [congruence|]. reflexivity. }
  unfold match_at, speed_pattern. cbn [seqs].
  match goal with
  | |- fst <$> ?x = _ =>
      enough (Hrun : x = Some ([(2%nat, b); (1%nat, a)], []))
        by (rewrite Hrun; reflexivity)
  end.
  rewrite run_seq. apply run_group_run; [exact Ha|exact Hda| |].
  { apply stops_spaces_then; [exact space_not_digit|exact Hws1|reflexivity]. }
  rewrite run_seq. apply run_star_run; [exact Hws1|reflexivity|].
  rewrite run_seq. unfold Opt. rewrite run_alt.
  assert (Hfirst :
    run (Seq (lit_i "to") (Seq (Star space) (Group 2 (Plus digit))))
      (run (Seq (Star space) (lit_i "mph")) (fun s' c' => Some (c', s')))
      (py "to" ++ ws2 ++ b ++ ws3 ++ py "mph") [(1%nat, a)]
    = Some ([(2%nat, b); (1%nat, a)], [])).
  { rewrite run_seq, run_lit_i.
    rewrite run_seq. apply run_star_run; [exact Hws2| |].
    { apply stops_digits_head; assumption. }
    apply run_group_run; [exact Hb|exact Hdb| |].
    { apply stops_spaces_then; [exact space_not_digit|exact Hws3|reflexivity]. }
    rewrite run_seq. apply run_star_run; [exact Hws3|reflexivity|].
    exact (run_lit_i "mph" _ [] _). }
  rewrite Hfirst. reflexivity.
Qed.

(** X16, witness. *)
Lemma parse_wind_range_witness :
  _parse_wind (JStr (py "10" ++ py " " ++ py "to" ++ py " " ++ py "20" ++ py " " ++ py "mph"))
  = Ok (Some (float_of_digits (py "20")), None).
Proof.
  apply (parse_wind_range (py "10") (py " ") (py " ") (py "20") (py " "));
    first [ discriminate | reflexivity ].
Defined.

End WindProps.

Section BaseExamples.
Import Py Re Scan Base Fraction.
Local Open Scope list_scope.





End BaseExamples.

Section OrchestratorMore.
Import Py Json Models Exc Adapters Http Nws Output Main Spec.
Local Open Scope string_scope.
Context {P : Platform} {L : PageLib}.

(** X17: a fresh record.  When the live fetch returns markup, the
    parse succeeds and the weather step returns, [process_resort] returns
    a record that is not stale and carries the parsed facts, the weather,
    the three source URLs and the time read when the call began. *)
Theorem fresh_record_on_success (cfg : ResortConfig) (published : Store)
    (w w1 w2 : World) (html : str) (r : ParseResult)
    (wx : Weather * str * option str) :
  engine_missing cfg = false ->
  live_fetch cfg w = (Ok html, w1) ->
  parse (get_adapter (cfg_kind cfg)) html = Ok r ->
  success r = true ->
  fetch_weather (cfg_lat cfg) (cfg_lon cfg) w1 = (Ok wx, w2) ->
  process_resort cfg (published, w)
  = (Ok (mkResortConditions (cfg_slug cfg) (cfg_name cfg) (clock w) false
           (mkSources (cfg_source_url cfg) (Some (snd (fst wx))) (snd wx))
           (Adapters.ops r) (Adapters.snow r) (fst (fst wx))),
     (published, w2)).
Proof.
  intros Heng Hfetch Hparse Hok Hwx.
  rewrite (process_resort_run cfg published w w1 w2 (Ok html) (Ok wx) Hfetch)
    by (rewrite Heng; exact Hwx).
  unfold assemble, after_acquire. rewrite Heng, Hparse, Hok. reflexivity.
Qed.

(** X18: a failed weather step.  When [fetch_weather] raises, the
    record [update_command] appends for the resort is the stale
    placeholder: every operations, snow and weather fact is unknown,
    whatever the page fetch and the parse gave, and the sources carry the
    page URL only. *)
Theorem weather_failure_drops_facts (cfg : ResortConfig) (published : Store)
    (w w1 w2 : World) (outcome : result str) (e : exn) :
  live_fetch cfg w = (outcome, w1) ->
  fetch_weather (cfg_lat cfg) (cfg_lon cfg) (if engine_missing cfg then w else w1)
    = (Raise e, w2) ->
  process_or_stale cfg (published, w)
  = (Ok (mkResortConditions (cfg_slug cfg) (cfg_name cfg) (clock w2) true
           (mkSources (cfg_source_url cfg) None None)
           Operations_default Snow_default Weather_default),
     (published, w2)).
Proof.
  intros Hfetch Hwx.
  rewrite (process_or_stale_run cfg published w w1 w2 outcome (Raise e) Hfetch Hwx).
  reflexivity.
Qed.

End OrchestratorMore.

Section OrchestratorMoreExamples.
Import Py Json Models Exc Adapters Http Nws Output Main Spec Samples Fixtures.
Local Open Scope string_scope.

(** X17, witness. *)
Lemma fresh_record_on_success_witness :
  exists w1 w2 r wx,
    @live_fetch sample_platform heavenly_config weather_world = (Ok [], w1) /\
    @parse sample_lib (get_adapter (cfg_kind heavenly_config)) [] = Ok r /\
    @process_resort sample_platform sample_lib heavenly_config (sample_store, weather_world)
    = (Ok (mkResortConditions (cfg_slug heavenly_config) (cfg_name heavenly_config)
             (clock weather_world) false
             (mkSources (cfg_source_url heavenly_config) (Some (snd (fst wx))) (snd wx))
             (Adapters.ops r) (Adapters.snow r) (fst (fst wx))),
       (sample_store, w2)).
Proof.
  do 4 eexists. split; [vm_compute; reflexivity|]. split; [vm_compute; reflexivity|].
  eapply (@fresh_record_on_success sample_platform sample_lib heavenly_config
            sample_store weather_world).
  - reflexivity.
  - vm_compute. reflexivity.
  - vm_compute. reflexivity.
  - reflexivity.
  - vm_compute. reflexivity.
Defined.

(** X18, witness. *)
Lemma weather_failure_drops_facts_witness :
  exists w2,
    @process_or_stale sample_platform sample_lib heavenly_config
      (sample_store, null_properties_world)
    = (Ok (mkResortConditions (cfg_slug heavenly_config) (cfg_name heavenly_config)
             (clock w2) true
             (mkSources (cfg_source_url heavenly_config) None None)
             Operations_default Snow_default Weather_default),
       (sample_store, w2)).
Proof.
  eexists.
  eapply (@weather_failure_drops_facts sample_platform sample_lib heavenly_config
            sample_store null_properties_world).
  - vm_compute. reflexivity.
  - vm_compute. reflexivity.
Defined.

End OrchestratorMoreExamples.

Section ReportProps.
Import Py Json Models Exc Http Summarize Report.
Local Open Scope string_scope.
Local Open Scope Z_scope.
Local Open Scope list_scope.
Context {R : Render}.

Lemma best_from_ok {A} (better : Q -> Q -> bool) (key : A -> result Q)
    (items : list A) :
  (forall x, In x items -> exists q, key x = Ok q) ->
  forall best kbest,
    exists r, best_from better key best kbest items = Ok r /\ In r (best :: items).
Proof.
  induction items as [|x items IH]; intros Hkey best kbest.
  - exists best. split; [reflexivity|left; reflexivity].
  - destruct (Hkey x (or_introl eq_refl)) as [q Hq].
    cbn [best_from]. rewrite Hq. cbn [rbind].
    assert (Hrest : forall y, In y items -> exists q, key y = Ok q)
      by (intros y Hy; apply Hkey; right; exact Hy).
    destruct (better kbest q).
    + destruct (IH Hrest x q) as (r & Hr & Hin). exists r. split; [exact Hr|].
      right. exact Hin.
    + destruct (IH Hrest best kbest) as (r & Hr & Hin). exists r. split; [exact Hr|].
      destruct Hin as [<-|Hin]; [left; reflexivity|right; right; exact Hin].
Qed.

Lemma best_of_ok {A} (better : Q -> Q -> bool) (key : A -> result Q)
    (items : list A) :
  items <> [] ->
  (forall x, In x items -> exists q, key x = Ok q) ->
  exists r, best_of better key items = Ok r /\ In r items.
Proof.
  destruct items as [|x items]; [congruence|]. intros _ Hkey.
  destruct (Hkey x (or_introl eq_refl)) as [q Hq].
  cbn [best_of]. rewrite Hq. cbn [rbind].
  apply best_from_ok. intros y Hy. apply Hkey. right. exact Hy.
Qed.

Lemma trail_ratio_ok (r : ResortConditions) :
  has_trails r = true -> exists q, trail_ratio r = Ok q.
Proof.
  unfold has_trails, trail_ratio, count_set, py_truediv.
  destruct (trails_open (ops r)) as [a|]; [|discriminate].
  destruct (trails_total (ops r)) as [b|]; [|rewrite andb_false_r; discriminate].
  intros H. apply andb_true_iff in H as [_ Hb]. apply negb_true_iff in Hb.
  simpl. rewrite Hb. eauto.
Qed.

Lemma known_number {A} (x : option A) : known x = true -> exists q, number x = Ok q.
Proof. destruct x; [eauto|discriminate]. Qed.

Lemma has_snow_number (r : ResortConditions) :
  has_snow r = true -> exists q, number (new_snow_24h_in (snow r)) = Ok q.
Proof. unfold has_snow. destruct (new_snow_24h_in (snow r)); [eauto|discriminate]. Qed.

(** Each of the four highlight steps, on the resorts its filter keeps,
    returns at most one line. *)
Lemma stage_ok {A} (f : A -> bool) (key : A -> result Q)
    (better : Q -> Q -> bool) (l : list A) :
  (forall x, f x = true -> exists q, key x = Ok q) ->
  List.filter f l <> [] ->
  exists r q, best_of better key (List.filter f l) = Ok r /\ key r = Ok q.
Proof.
  intros Hkey Hne.
  destruct (best_of_ok better key (List.filter f l) Hne) as (r & Hr & Hin).
  { intros x Hx. apply filter_In in Hx as [_ Hx]. apply Hkey, Hx. }
  apply filter_In in Hin as [_ Hf]. destruct (Hkey r Hf) as [q Hq].
  exists r, q. split; assumption.
Qed.

Lemma terrain_ok (l : list ResortConditions) :
  exists h, terrain_highlight (List.filter has_trails l) = Ok h /\ (length h <= 1)%nat.
Proof.
  unfold terrain_highlight.
  destruct (List.filter has_trails l) as [|x t] eqn:E.
  { exists []. split; [reflexivity|simpl; lia]. }
  rewrite <- E.
  destruct (stage_ok has_trails trail_ratio (fun k k' => Qltb k k') l trail_ratio_ok)
    as (r & q & Hr & Hq); [rewrite E; discriminate|].
  unfold py_max. rewrite Hr. cbn [rbind]. rewrite Hq. cbn [rbind].
  eexists. split; [reflexivity|simpl; lia].
Qed.

Lemma snow_ok (l : list ResortConditions) :
  exists h, snow_highlight (List.filter has_snow l) = Ok h /\ (length h <= 1)%nat.
Proof.
  unfold snow_highlight.
  destruct (List.filter has_snow l) as [|x t] eqn:E.
  { exists []. split; [reflexivity|simpl; lia]. }
  rewrite <- E.
  destruct (stage_ok has_snow (fun r => number (new_snow_24h_in (snow r)))
              (fun k k' => Qltb k k') l has_snow_number)
    as (r & q & Hr & Hq); [rewrite E; discriminate|].
  unfold py_max. rewrite Hr. cbn [rbind]. rewrite Hq. cbn [rbind].
  eexists. split; [reflexivity|simpl; lia].
Qed.

Lemma wind_ok (l : list ResortConditions) :
  exists h, wind_highlight (List.filter has_wind l) = Ok h /\ (length h <= 1)%nat.
Proof.
  unfold wind_highlight.
  destruct (List.filter has_wind l) as [|x t] eqn:E.
  { exists []. split; [reflexivity|simpl; lia]. }
  rewrite <- E.
  destruct (stage_ok has_wind (fun r => number (wind_mph (weather r)))
              (fun k k' => Qltb k k') l (fun x => known_number _))
    as (r & q & Hr & Hq); [rewrite E; discriminate|].
  unfold py_max. rewrite Hr. cbn [rbind]. rewrite Hq. cbn [rbind].
  destruct (Qle_bool 15 q); eexists; (split; [reflexivity|simpl; lia]).
Qed.

Lemma temp_ok (l : list ResortConditions) :
  exists h, temp_highlight (List.filter has_temp l) = Ok h /\ (length h <= 1)%nat.
Proof.
  unfold temp_highlight.
  destruct (List.filter has_temp l) as [|x t] eqn:E.
  { exists []. split; [reflexivity|simpl; lia]. }
  rewrite <- E.
  destruct (stage_ok has_temp (fun r => number (temp_f (weather r)))
              (fun k k' => Qltb k' k) l (fun x => known_number _))
    as (r & q & Hr & Hq); [rewrite E; discriminate|].
  unfold py_min. rewrite Hr. cbn [rbind]. rewrite Hq. cbn [rbind].
  destruct (Qle_bool q 32); eexists; (split; [reflexivity|simpl; lia]).
Qed.

Lemma highlights_ok (resorts : list ResortConditions) :
  exists hs,
    compute_highlights resorts = Ok hs /\
    (length hs <= 4)%nat /\
    (List.filter is_active resorts = [] ->
     hs = [py "All resorts are currently closed or unavailable."]).
Proof.
  unfold compute_highlights.
  destruct (List.filter is_active resorts) as [|x t] eqn:E.
  { eexists. split; [reflexivity|]. split; [simpl; lia|reflexivity]. }
  destruct (terrain_ok (x :: t)) as (h1 & H1 & L1).
  destruct (snow_ok (x :: t)) as (h2 & H2 & L2).
  destruct (wind_ok (x :: t)) as (h3 & H3 & L3).
  destruct (temp_ok (x :: t)) as (h4 & H4 & L4).
  rewrite H1. cbn [rbind]. rewrite H2. cbn [rbind]. rewrite H3. cbn [rbind].
  rewrite H4. cbn [rbind].
  eexists. split; [reflexivity|]. split; [|discriminate].
  rewrite !length_app. lia.
Qed.

Lemma filter_twice {A} (f : A -> bool) (l : list A) :
  List.filter f (List.filter f l) = List.filter f l.
Proof.
  induction l as [|x l IH]; [reflexivity|].
  simpl. destruct (f x) eqn:E; [|exact IH].
  simpl. rewrite E, IH. reflexivity.
Qed.


Lemma strings_of_ok (items : list json) :
  returns (strings_of items)
  = forallb (fun v => match v with JStr _ => true | _ => false end) items.
Proof.
  induction items as [|v items IH]; [reflexivity|].
  destruct v; try reflexivity. simpl.
  destruct (strings_of items); simpl in *; congruence.
Qed.

Lemma add_to_last_ok (parts : list str) (x suffix : str) :
  exists l, add_to_last (parts ++ [x]) suffix = Ok l.
Proof. unfold add_to_last. rewrite rev_app_distr. simpl. eauto. Qed.

Lemma blurb_returns (resort : ResortConditions) :
  returns (generate_blurb resort) = stale resort || forecast_ok resort.
Proof.
  unfold generate_blurb, forecast_ok.
  destruct (stale resort); [reflexivity|]. cbn [orb].
  cbv zeta.
  match goal with
  | |- returns (rbind ?first _) = _ =>
      assert (Hfirst : exists parts, first = Ok parts);
        [|destruct Hfirst as [parts ->]]
  end.
  { destruct (trails_total (ops resort)); [eauto|].
    destruct (lifts_total (ops resort)); [apply add_to_last_ok|eauto]. }
  cbn [rbind]. cbv beta.
  destruct (short_forecast (weather resort)) as [|b|z|q|s|l|f] eqn:Esf;
    cbn [truthy negb orb];
    try (destruct (temp_f (weather resort)); destruct (wind_mph (weather resort));
         reflexivity).
  - destruct b; destruct (temp_f (weather resort));
      destruct (wind_mph (weather resort)); reflexivity.
  - destruct (z =? 0); destruct (temp_f (weather resort));
      destruct (wind_mph (weather resort)); reflexivity.
  - destruct (Qeq_bool q 0); destruct (temp_f (weather resort));
      destruct (wind_mph (weather resort)); reflexivity.
  - destruct s; destruct (temp_f (weather resort));
      destruct (wind_mph (weather resort)); reflexivity.
  - destruct l; destruct (temp_f (weather resort));
      destruct (wind_mph (weather resort)); reflexivity.
  - destruct f; destruct (temp_f (weather resort));
      destruct (wind_mph (weather resort)); reflexivity.
Qed.

Lemma blurb_ok (resort : ResortConditions) :
  stale resort = true \/ forecast_ok resort = true ->
  exists b, generate_blurb resort = Ok b.
Proof.
  intros H. pose proof (blurb_returns resort) as E.
  destruct (generate_blurb resort); [eauto|].
  simpl in E. destruct H as [H|H]; rewrite H in E;
    [discriminate E | rewrite orb_true_r in E; discriminate E].
Qed.


Lemma summarize_each_ok (resorts : list ResortConditions) :
  Forall (fun r => stale r = true \/ forecast_ok r = true) resorts ->
  forall c b,
    exists c' b',
      summarize_each resorts c b = Ok (c', b') /\
      stale_resorts c' = stale_resorts c + Z.of_nat (length (List.filter stale resorts)) /\
      open_resorts c' = open_resorts c + Z.of_nat (length (List.filter is_active resorts)) /\
      total_of c' = total_of c + Z.of_nat (length resorts) /\
      (forall k, is_Some (b !! k) -> is_Some (b' !! k)) /\
      (forall r, In r resorts -> is_Some (b' !! slug r)).
Proof.
  induction 1 as [|r rs Hr Hrs IH]; intros c b.
  - exists c, b. split; [reflexivity|]. unfold total_of. simpl.
    split; [lia|]. split; [lia|]. split; [lia|].
    split; [intros k Hk; exact Hk|intros r Hr; destruct Hr].
  - destruct (blurb_ok r Hr) as [blurb Hb].
    cbn [summarize_each]. rewrite Hb. cbn [rbind].
    destruct (IH (count_resort c r) (<[slug r := blurb]> b))
      as (c' & b' & Hrun & Hs & Ho & Ht & Hkeep & Hall).
    exists c', b'. split; [exact Hrun|].
    unfold total_of, count_resort, is_active in *. cbn [List.filter length].
    destruct (stale r) eqn:Es; cbn [negb andb] in *;
      [|destruct (flag_set (open_flag (ops r))) eqn:Ef]; cbn [length] in *;
      simpl in Hs, Ho, Ht;
      (split; [lia|]); (split; [lia|]); (split; [lia|]);
      (split;
       [intros k Hk; apply Hkeep;
        destruct (decide (slug r = k)) as [->|Hne];
        [rewrite lookup_insert_eq; eauto | rewrite lookup_insert_ne by exact Hne; exact Hk]
       |intros r' [<-|Hin];
        [apply Hkeep; rewrite lookup_insert_eq; eauto | apply Hall, Hin]]).
Qed.


End ReportProps.

Section ReportExamples.
Import Py Json Models Exc Http Summarize Report Samples Fixtures2.
Local Open Scope string_scope.
Local Open Scope list_scope.


Example sample_blurbs :
  map (fun r => @generate_blurb sample_render r) three_records
  = [Ok (py "Heavenly: 6/8 lifts 20/40 trails. New snow (24h): 6" ++ [34; 46]
         ++ py " Forecast: Snow, 20" ++ [176; 70] ++ py ", wind 25 mph.");
     Ok (py "Homewood: 0/4 lifts.");
     Ok (py "Latest update unavailable; showing last known conditions from 2026-01-01 00:00 UTC.")].
Proof. vm_compute. reflexivity. Qed.

Example sample_highlights :
  @compute_highlights sample_render three_records
  = Ok [py "Most open terrain: Heavenly (20/40 trails, 50%)";
        py "Most new snow: Heavenly (6" ++ [34] ++ py " in 24h)";
        py "Windiest: Heavenly (25 mph)";
        py "Coldest: Heavenly (20" ++ [176; 70] ++ py ")"].
Proof. vm_compute. reflexivity. Qed.

End ReportExamples.

Section MtRoseRange.
Import Py Re Scan Models Base Adapters MtRoseSnow.
Local Open Scope string_scope.
Local Open Scope N_scope.
Local Open Scope list_scope.

Lemma run_opt_take (a : re) (k : K) (s : str) (c : caps) r :
  run a k s c = Some r -> run (Opt a) k s c = Some r.
Proof. intros H. unfold Opt. rewrite run_alt, H. reflexivity. Qed.

Lemma digit_not_sep (c : char) :
  is_digit c = true -> ((c =? 58) || is_space c) = false.
Proof.
  intros H. rewrite (digit_not_space c H), orb_false_r.
  unfold is_digit, in_range in H. apply andb_true_iff in H as [_ H].
  apply N.leb_le in H. apply N.eqb_neq. lia.
Qed.

Lemma stops_sep_digits (a rest : str) :
  a <> [] -> forallb is_digit a = true ->
  stops (fun c => (c =? 58) || is_space c) (a ++ rest).
Proof.
  destruct a as [|d a]; [congruence|]. intros _ H. cbn [forallb] in H.
  apply andb_true_iff in H as [Hd _]. exact (digit_not_sep d Hd).
Qed.

(** X22: a range on the Mt Rose page.  With the base-depth pattern,
    [_parse_range] reads two runs of digits joined by a hyphen or by an
    en dash (U+2013) and followed by an inch mark as their mean. *)
Theorem mt_rose_range_mean (ws seps a b rest : str) (dash mark : char) :
  forallb is_space ws = true ->
  forallb (fun c => (c =? 58) || is_space c) seps = true ->
  a <> [] -> forallb is_digit a = true ->
  b <> [] -> forallb is_digit b = true ->
  dash = 45 \/ dash = 8211 ->
  mark = 34 \/ mark = 8243 ->
  _parse_range (py "base" ++ ws ++ py "depth" ++ seps ++ a ++ [dash] ++ b ++ [mark] ++ rest)
    base_depth_pattern
  = Some (mean (float_of_decimal a) (float_of_decimal b)).
Proof.
  intros Hws Hseps Ha Hda Hb Hdb Hdash Hmark.
  unfold _parse_range.
  rewrite (search_here _ _ [(2%nat, b); (1%nat, a)]).
  { cbn [group Nat.eqb]. destruct b as [|d b']; [congruence|reflexivity]. }
  unfold match_at, base_depth_pattern, range_tail. cbn [seqs].
  match goal with
  | |- fst <$> ?x = _ =>
      enough (Hrun : x = Some ([(2%nat, b); (1%nat, a)], rest))
        by (rewrite Hrun; reflexivity)
  end.
  rewrite run_seq, run_lit_i.
  rewrite run_seq. apply run_star_run; [exact Hws|reflexivity|].
  rewrite run_seq. apply run_opt_take. rewrite run_lit_i.
  rewrite run_seq. apply run_star_run; [exact Hseps| |].
  { apply stops_sep_digits; assumption. }
  rewrite run_seq. apply run_group_run; [exact Ha|exact Hda| |].
  { destruct Hdash as [-> | ->]; reflexivity. }
  cbn [app]. rewrite run_seq. apply run_opt_take.
  rewrite run_any_of by (destruct Hdash as [-> | ->]; reflexivity).
  rewrite run_seq. apply run_opt_take.
  apply run_group_run; [exact Hb|exact Hdb| |].
  { destruct Hmark as [-> | ->]; reflexivity. }
  cbn [app]. unfold inch_mark.
  rewrite run_any_of by (destruct Hmark as [-> | ->]; reflexivity).
  reflexivity.
Qed.

(** X22, witness. *)
Lemma mt_rose_range_mean_witness :
  _parse_range (py "base" ++ py " " ++ py "depth" ++ py ": " ++ py "47" ++ [8211]
                ++ py "58" ++ [8243] ++ py " at the summit")
    base_depth_pattern
  = Some (mean (float_of_decimal (py "47")) (float_of_decimal (py "58"))).
Proof.
  apply (mt_rose_range_mean (py " ") (py ": ") (py "47") (py "58")
           (py " at the summit") 8211 8243);
    first [ discriminate | reflexivity | right; reflexivity ].
Defined.

Example mt_rose_en_dash_is_read :
  base_depth_in (mt_rose_snow (py "Base Depth: 47" ++ [8211] ++ py "58" ++ [34]))
  = Some (105 # 2)%Q.
Proof. vm_compute. reflexivity. Qed.

End MtRoseRange.

Section HeadlessCache.
Import Py Json Models Exc Http Spec.
Local Open Scope string_scope.
Context {P : Platform}.

(** X23: the rendering cache.  With a fresh entry for the URL,
    [fetch_headless] returns the cached rendering and leaves the world
    alone when the rendering engine is there; without the engine it
    raises [FetchError] although the entry is there. *)
Theorem fetch_headless_cached (url : str) (ttl : Z) (suffix : string)
    (w : World) (body : str) :
  cache_read w (cache_key w url suffix) ttl = Some body ->
  fetch_headless url ttl suffix true w =
    if HAS_PLAYWRIGHT then (Ok body, w)
    else (Raise (mkExn FetchError
                   (py "Playwright not installed - cannot fetch JavaScript-rendered pages")),
          w).
Proof.
  intros Hread. unfold fetch_headless.
  destruct HAS_PLAYWRIGHT; cbn [negb]; [|reflexivity].
  unfold bind at 1. rewrite get_cache_path_run.
  unfold bind at 1. rewrite read_cache_run, Hread. reflexivity.
Qed.

End HeadlessCache.

Section HeadlessCacheExamples.
Import Py Json Models Exc Http Spec Samples Fixtures2.
Local Open Scope string_scope.

(** X23, witness. *)
Lemma fetch_headless_cached_witness :
  @fetch_headless sample_platform sample_url 900 "_headless" true rendered_world =
    if @HAS_PLAYWRIGHT sample_platform then (Ok (py "<p>cached</p>"), rendered_world)
    else (Raise (mkExn FetchError
                   (py "Playwright not installed - cannot fetch JavaScript-rendered pages")),
          rendered_world).
Proof.
  apply (@fetch_headless_cached sample_platform sample_url 900 "_headless"
           rendered_world (py "<p>cached</p>")).
  vm_compute. reflexivity.
Defined.

End HeadlessCacheExamples.

Section RegexSound.
Import Py Re Scan Scan2.
Local Open Scope list_scope.

Lemma reaches_trans keeps (k : K) (s s1 : str) (c c1 : caps) x :
  s1 `suffix_of` s -> (keeps = true -> c1 = c) ->
  reaches keeps k s1 c1 x -> reaches keeps k s c x.
Proof.
  intros Hs Hc (s' & c' & Hs' & Hk & Hc').
  exists s', c'. split; [etrans; eassumption|]. split; [exact Hk|].
  intros Hkeep. rewrite (Hc' Hkeep). apply Hc, Hkeep.
Qed.

Lemma star_reaches keeps (body : K -> K) :
  (forall k s c x, body k s c = Some x -> reaches keeps k s c x) ->
  forall fuel k s c x, star body fuel k s c = Some x -> reaches keeps k s c x.
Proof.
  intros Hbody. induction fuel as [|f IH]; intros k s c x H.
  - exists s, c. split; [reflexivity|]. split; [exact H|reflexivity].
  - cbn [star] in H.
    destruct (body _ s c) as [y|] eqn:E.
    + injection H as ->. apply Hbody in E as (s1 & c1 & Hs1 & Hk & Hc1).
      destruct (Nat.ltb (length s1) (length s)); [|discriminate].
      apply IH in Hk. eapply reaches_trans; eassumption.
    + exists s, c. split; [reflexivity|]. split; [exact H|reflexivity].
Qed.

Lemma star_lazy_reaches keeps (body : K -> K) :
  (forall k s c x, body k s c = Some x -> reaches keeps k s c x) ->
  forall fuel k s c x, star_lazy body fuel k s c = Some x -> reaches keeps k s c x.
Proof.
  intros Hbody. induction fuel as [|f IH]; intros k s c x H.
  - cbn [star_lazy] in H. destruct (k s c) eqn:E; [|discriminate].
    injection H as ->. exists s, c. split; [reflexivity|]. split; [exact E|reflexivity].
  - cbn [star_lazy] in H. destruct (k s c) eqn:E.
    + injection H as ->. exists s, c. split; [reflexivity|]. split; [exact E|reflexivity].
    + apply Hbody in H as (s1 & c1 & Hs1 & Hk & Hc1).
      destruct (Nat.ltb (length s1) (length s)); [|discriminate].
      apply IH in Hk. eapply reaches_trans; eassumption.
Qed.

(** Whatever a pattern matches, the continuation is run on a suffix of
    the text; with the captures it was given when the pattern has no
    group. *)
Lemma run_reaches (r : re) :
  forall k s c x, run r k s c = Some x -> reaches (groupless r) k s c x.
Proof.
  induction r as [|p|a IHa b IHb|a IHa b IHb|a IHa|a IHa| |i a IHa];
    intros k s c x H; cbn [run groupless] in *.
  - exists s, c. split; [reflexivity|]. split; [exact H|reflexivity].
  - destruct s as [|y s]; [discriminate|]. destruct (p y); [|discriminate].
    exists s, c. split; [apply suffix_cons_r; reflexivity|]. split; [exact H|reflexivity].
  - apply IHa in H as (s1 & c1 & Hs1 & Hk & Hc1).
    apply IHb in Hk as (s2 & c2 & Hs2 & Hk2 & Hc2).
    exists s2, c2. split; [etrans; eassumption|]. split; [exact Hk2|].
    intros Hg. apply andb_true_iff in Hg as [Ha Hb].
    rewrite (Hc2 Hb). apply Hc1, Ha.
  - destruct (run a k s c) as [y|] eqn:E.
    + injection H as ->. apply IHa in E as (s1 & c1 & Hs1 & Hk & Hc1).
      exists s1, c1. split; [exact Hs1|]. split; [exact Hk|].
      intros Hg. apply andb_true_iff in Hg as [Ha _]. apply Hc1, Ha.
    + apply IHb in H as (s1 & c1 & Hs1 & Hk & Hc1).
      exists s1, c1. split; [exact Hs1|]. split; [exact Hk|].
      intros Hg. apply andb_true_iff in Hg as [_ Hb]. apply Hc1, Hb.
  - eapply star_reaches; [|exact H]. intros k' s' c' x'. apply IHa.
  - eapply star_lazy_reaches; [|exact H]. intros k' s' c' x'. apply IHa.
  - exists s, c. split; [reflexivity|]. split; [|reflexivity].
    repeat match type of H with
           | context [match ?v with _ => _ end] =>
               is_var v; destruct v; try discriminate H
           end; exact H.
  - apply IHa in H as (s1 & c1 & Hs1 & Hk & _).
    exists s1, ((i, take (length s - length s1) s) :: c1).
    split; [exact Hs1|]. split; [exact Hk|discriminate].
Qed.

Lemma search_none (r : re) (s : str) :
  (forall s', s' `suffix_of` s -> match_at r s' = None) -> search r s = None.
Proof.
  induction s as [|y s IH]; intros H.
  - simpl. rewrite (H [] ltac:(reflexivity)). reflexivity.
  - cbn [search]. rewrite (H (y :: s) ltac:(reflexivity)).
    apply IH. intros s' Hs'. apply H. apply suffix_cons_r. exact Hs'.
Qed.

End RegexSound.

Section InchesSingle.
Import Py Re Scan Scan2 Base.
Local Open Scope list_scope.

Lemma run_chr (p : char -> bool) (k : K) (s : str) (c : caps) :
  run (Chr p) k s c =
  match s with
  | y :: s' => if p y then k s' c else None
  | [] => None
  end.
Proof. destruct s; reflexivity. Qed.

Lemma free_of_suffix p (s' s : str) :
  s' `suffix_of` s -> free_of p s = true -> free_of p s' = true.
Proof.
  intros [l ->]. unfold free_of. rewrite forallb_app.
  intros H. apply andb_true_iff in H as [_ H]. exact H.
Qed.

Lemma no_range_fails (t : str) :
  no_range t -> forall s, s `suffix_of` t -> match_at range_pattern s = None.
Proof.
  intros Hno s [l0 Ht]. unfold match_at.
  destruct (run range_pattern _ s []) as [x|] eqn:H; [exfalso|reflexivity].
  unfold range_pattern in H. cbn [seqs] in H. rewrite run_seq in H.
  apply run_reaches in H as (s1 & c1 & [l1 Hs1] & H & _).
  rewrite run_seq in H.
  apply run_reaches in H as (s2 & c2 & [l2 Hs2] & H & _).
  rewrite run_seq in H. unfold any_of in H. rewrite run_chr in H.
  destruct s2 as [|y s3]; [discriminate|].
  destruct (existsb (N.eqb y) range_class) eqn:Hy; [|discriminate].
  rewrite run_seq in H.
  apply run_reaches in H as (s4 & c4 & [l4 Hs4] & H & _).
  assert (Hfree : free_of is_digit s3 = true).
  { apply (Hno (l0 ++ l1 ++ l2) y s3); [|exact Hy].
    rewrite Ht, Hs1, Hs2, <- !app_assoc. reflexivity. }
  rewrite (run_begins is_digit (Group 2 decimal) (begins_decimal 2)) in H;
    [discriminate|].
  apply free_of_stops. apply (free_of_suffix is_digit s4 s3); [|exact Hfree].
  exists l4. exact Hs4.
Qed.

Lemma class_not_digit (y : char) :
  existsb (N.eqb y) range_class = true -> is_digit y = false.
Proof.
  unfold range_class. cbn [existsb]. rewrite !orb_true_iff, !N.eqb_eq.
  intros [->|[->|[->|[->|H]]]]; first [reflexivity|discriminate H].
Qed.

Lemma split_after_digits (a tail m r : str) (y : char) :
  forallb is_digit a = true -> is_digit y = false ->
  a ++ tail = m ++ y :: r -> exists m', tail = m' ++ y :: r.
Proof.
  revert m. induction a as [|d a IH]; intros m Ha Hy H.
  - exists m. exact H.
  - cbn [forallb] in Ha. apply andb_true_iff in Ha as [Hd Ha].
    destruct m as [|d' m].
    + injection H as -> _. congruence.
    + injection H as _ H. apply (IH m Ha Hy H).
Qed.

Lemma no_range_single (a tail : str) :
  forallb is_digit a = true -> free_of is_digit tail = true ->
  no_range (a ++ tail).
Proof.
  intros Ha Htail l y r H Hy.
  destruct (split_after_digits a tail l r y Ha (class_not_digit y Hy) H) as [m' ->].
  apply (free_of_suffix is_digit r (m' ++ y :: r)); [|exact Htail].
  exists (m' ++ [y]). rewrite <- app_assoc. reflexivity.
Qed.

(** An integer matched by the decimal pattern when no digit follows. *)
Lemma run_group_integer (i : nat) (k : K) (ds rest : str) (c : caps) r :
  ds <> [] -> forallb is_digit ds = true -> free_of is_digit rest = true ->
  k rest ((i, ds) :: c) = Some r ->
  run (Group i decimal) k (ds ++ rest) c = Some r.
Proof.
  intros Hne Hds Hrest Hk.
  destruct ds as [|d ds]; [congruence|].
  cbn [forallb] in Hds. apply andb_true_iff in Hds as [Hd0 Hds].
  unfold decimal. cbn [run].
  change ((d :: ds) ++ rest) with (d :: ds ++ rest).
  apply (run_plus_run is_digit _ d ds rest c r Hd0 Hds (free_of_stops _ _ Hrest)).
  unfold Opt. rewrite run_alt, run_seq. unfold one. rewrite run_chr.
  assert (Hno : match rest with
                | y :: s' =>
                    if 46 =? y
                    then run (Plus digit)
                           (fun s'0 c' =>
                              k s'0 ((i, take (length (d :: ds ++ rest) - length s'0)
                                           (d :: ds ++ rest)) :: c')) s' c
                    else None
                | [] => None
                end = None).
  { destruct rest as [|y rest']; [reflexivity|].
    destruct (46 =? y); [|reflexivity].
    apply (run_begins is_digit); [repeat constructor|].
    apply free_of_stops. apply (free_of_suffix is_digit rest' (y :: rest'));
      [apply suffix_cons_r; reflexivity|exact Hrest]. }
  rewrite Hno. cbn [run].
  change (d :: ds ++ rest) with ((d :: ds) ++ rest).
  rewrite take_prefix. exact Hk.
Qed.

(** What follows the number in the single-value pattern has no group: it
    leaves the captures alone, and it cannot fail. *)
Lemma single_tail_total (s : str) (c : caps) :
  exists s',
    run (Seq (Star space)
           (Opt (Alt (one 34) (Alt (lit "in") (Seq (lit "inche") (Opt (one 115)))))))
      (fun s' c' => Some (c', s')) s c = Some (c, s').
Proof.
  set (tail := Seq _ _).
  assert (Hg : groupless tail = true) by reflexivity.
  destruct (run tail (fun s' c' => Some (c', s')) s c) as [x|] eqn:H.
  - apply run_reaches in H as (s' & c' & _ & Hk & Hc).
    injection Hk as <-. rewrite (Hc Hg). eauto.
  - exfalso. subst tail. unfold space in H. rewrite run_seq, run_star_chr in H.
    assert (Hopt : forall s0, exists x,
      run (Opt (Alt (one 34) (Alt (lit "in") (Seq (lit "inche") (Opt (one 115))))))
        (fun s' c' => Some (c', s')) s0 c = Some x).
    { intros s0. unfold Opt at 1. rewrite run_alt.
      destruct (run _ _ s0 c); [eauto|]. cbn [run]. eauto. }
    assert (Hgreedy : forall s0, exists x,
      greedy is_space
        (run (Opt (Alt (one 34) (Alt (lit "in") (Seq (lit "inche") (Opt (one 115))))))
           (fun s' c' => Some (c', s'))) s0 c = Some x).
    { induction s0 as [|y s0 [x IH]]; cbn [greedy].
      - apply Hopt.
      - destruct (is_space y); [rewrite IH; eauto|apply Hopt]. }
    destruct (Hgreedy s) as [x Hx]. congruence.
Qed.



End InchesSingle.

Section CacheKeys.
Import Py Json Models Exc Http Spec.
Local Open Scope string_scope.
Context {P : Platform}.

Lemma length_append (s t : string) :
  String.length (s +:+ t) = (String.length s + String.length t)%nat.
Proof. induction s as [|a s IH]; simpl; [reflexivity|]. rewrite IH. reflexivity. Qed.

Lemma append_inj_r (t s1 s2 : string) : s1 +:+ t = s2 +:+ t -> s1 = s2.
Proof.
  revert s2. induction s1 as [|a s1 IH]; intros s2 H.
  - destruct s2 as [|b s2]; [reflexivity|].
    apply (f_equal String.length) in H. rewrite !length_append in H. simpl in H. lia.
  - destruct s2 as [|b s2].
    + apply (f_equal String.length) in H. rewrite !length_append in H. simpl in H. lia.
    + simpl in H. injection H as -> H. f_equal. apply IH, H.
Qed.


End CacheKeys.

Section CacheKeysExamples.
Import Py Json Models Exc Http Spec Samples.
Local Open Scope string_scope.


End CacheKeysExamples.

Section GenericLifts.
Import Py Re Scan Scan2 Models Base Exc Adapters.
Local Open Scope string_scope.
Local Open Scope N_scope.
Local Open Scope list_scope.
Context {L : PageLib}.

Lemma run_one_i_fold (cs : str) :
  forall (ds : str) (k : K) (s : str) (c : caps),
    map lower_char ds = map lower_char cs ->
    run (seqs (map one_i cs)) k (ds ++ s) c = k s c.
Proof.
  induction cs as [|x cs IH]; intros ds k s c H.
  - destruct ds; [reflexivity|discriminate].
  - destruct ds as [|d ds]; [discriminate|]. cbn [map] in H. injection H as Hd Hds.
    cbn [map seqs]. destruct cs as [|y cs].
    + destruct ds; [|discriminate]. cbn [map app]. unfold one_i. rewrite run_chr.
      rewrite Hd, N.eqb_refl. reflexivity.
    + cbn [map] in *. rewrite run_seq. unfold one_i at 1. rewrite run_chr.
      cbn [app]. rewrite Hd, N.eqb_refl. apply IH. exact Hds.
Qed.

(** A literal under [re.IGNORECASE] matches every spelling of it. *)
Lemma run_lit_i_fold (l : string) (ds : str) (k : K) (s : str) (c : caps) :
  lower ds = lower (py l) -> run (lit_i l) k (ds ++ s) c = k s c.
Proof. apply run_one_i_fold. Qed.


End GenericLifts.

Section GenericLiftsExamples.
Import Py Re Scan Scan2 Models Base Exc Adapters Samples.
Local Open Scope string_scope.
Local Open Scope N_scope.
Local Open Scope list_scope.


End GenericLiftsExamples.
